(** * Cricket auction server: a shallow embedding of [server.js]

    The development models one room of the auction server: its data
    (teams, squads, auction sub-state), every socket handler and timer
    callback that touches the room, the snapshot written by
    [saveGameData] and the reconstruction done by [loadGameData].

    Conventions of the embedding.
    - JavaScript numbers that carry money or scores are exact rationals
      ([Q]); the binary rounding error of IEEE doubles is not modelled.
      A property that the error could decide, such as which bids pass
      the test against the minimum, is stated with a margin.
      [NaN] and the infinities appear where the code can observe them
      (the result of [parseFloat] on client input, a division by a zero
      base price).
    - Ratings are integers: [calculateWeightedRating] ends in
      [Math.round] and the placeholder player has rating 0.
    - [room.teams] is a JavaScript object used as a map; it is an
      association list in insertion order, the order of [Object.keys]
      and [Object.values] for keys that are not array indices, and a
      key that is missing is not found, as long as it does not name a
      property of [Object.prototype]. The user ids on which object and
      list agree are the [plainId]s; a property that depends on the
      agreement has a hypothesis to that effect.
    - [auction.skippedBy] is a [Set]: a duplicate-free list in insertion
      order.
    - The interval handle [auction.timer] and the timeout handle
      [room.nextPlayerTimeout] are booleans: [true] when a callback is
      pending. A callback is an event of its own ([TimerTick],
      [NextPlayerTimeout]) that can only occur while it is pending.
    - Handlers take their string arguments after [sanitizeInput]; the
      room has already been found in [rooms].
    - [saveGameData] schedules a write and changes nothing in the room;
      calls to it are left out of the handlers.
    - A [TypeError] raised by reading a property of [undefined] is the
      outcome [Threw]. *)

From Stdlib Require Import ZArith QArith Qround Bool List String Lia.
Import ListNotations.

Local Open Scope string_scope.
Local Open Scope Z_scope.
Local Open Scope Q_scope.
Local Open Scope list_scope.

(** ** Numbers *)

(** The result of [parseFloat] on a client value, or of a division. *)
Inductive jsnum : Type :=
  | JNum (q : Q)
  | JNaN
  | JPosInf
  | JNegInf.

Definition Qlt_bool (x y : Q) : bool := negb (Qle_bool y x).

(** [x < c], [x > c], [x >= c] for a JavaScript number [x] and a finite
    [c]; every comparison with [NaN] is false. *)
Definition jlt (x : jsnum) (c : Q) : bool :=
  match x with
  | JNum q => Qlt_bool q c
  | JNegInf => true
  | JNaN | JPosInf => false
  end.

Definition jgt (x : jsnum) (c : Q) : bool :=
  match x with
  | JNum q => Qlt_bool c q
  | JPosInf => true
  | JNaN | JNegInf => false
  end.

Definition jge (x : jsnum) (c : Q) : bool :=
  match x with
  | JNum q => Qle_bool c q
  | JPosInf => true
  | JNaN | JNegInf => false
  end.

(** [x / y] on finite operands. *)
Definition jdiv (x y : Q) : jsnum :=
  if Qeq_bool y 0 then
    if Qlt_bool 0 x then JPosInf
    else if Qlt_bool x 0 then JNegInf
    else JNaN
  else JNum (x / y).

(** [Math.round(x * 100) / 100]: [Math.round] is [floor (x + 1/2)]. *)
Definition round100 (x : Q) : Q := Qfloor (x * 100 + (1 # 2)) # 100.

(** [parseFloat(x.toFixed(2))]: the nearest multiple of 1/100, a tie
    going away from zero. *)
Definition toFixed2 (x : Q) : Q :=
  if Qle_bool 0 x then Qfloor (x * 100 + (1 # 2)) # 100
  else - (Qfloor ((- x) * 100 + (1 # 2)) # 100).

(** A truthy string is a non-empty one. *)
Definition truthy (s : string) : bool := negb (s =? "")%string.

(** ** Rules *)

Definition MAX_SQUAD_SIZE : nat := 25.
Definition MIN_SQUAD_TO_PLAY : nat := 18.
Definition PLAYING_11_SIZE : nat := 11.
Definition MAX_OVERSEAS_SQUAD : nat := 8.
Definition MAX_OVERSEAS_P11 : nat := 4.
Definition BID_INCREMENT : Q := 1 # 4.

(** ** Data model *)

(** A catalogue entry as [loadPlayerDatabase] returns it. The skill
    scores and the image link are never read again by the server. *)
Record Player : Type := mkPlayer {
  id : string;
  name : string;
  role : string;
  country : string;
  status : string;
  rating : Z;
  basePrice : Q
}.

(** [{ ...player, soldPrice: finalPrice }] *)
Record SquadPlayer : Type := mkSquadPlayer {
  player : Player;
  soldPrice : Q
}.

Record Team : Type := mkTeam {
  team_id : string;
  team_name : string;
  purse : Q;
  squad : list SquadPlayer;
  isEliminated : bool;
  isFinishedBidding : bool;
  submitted11 : bool;
  totalScore : Q;
  playing11 : option (list SquadPlayer)
}.

Inductive Phase : Type := LOBBY | AUCTION | SELECTION | RESULT.

Record Auction : Type := mkAuction {
  playerPool : list Player;
  currentPlayerIndex : nat;
  currentBid : Q;
  currentBidderId : option string;
  biddingOpen : bool;
  phase : Phase;
  skippedBy : list string;
  timeLeft : Z;
  timer : bool
}.

Definition TeamMap : Type := list (string * Team).

Record Room : Type := mkRoom {
  hostId : string;
  startingPurse : Q;
  teams : TeamMap;
  auction : Auction;
  lastActivity : Z;
  nextPlayerTimeout : bool
}.

Definition Phase_eqb (a b : Phase) : bool :=
  match a, b with
  | LOBBY, LOBBY | AUCTION, AUCTION | SELECTION, SELECTION | RESULT, RESULT => true
  | _, _ => false
  end.

(** *** Field assignment *)

Definition set_purse (v : Q) (t : Team) : Team :=
  mkTeam (team_id t) (team_name t) v (squad t) (isEliminated t)
         (isFinishedBidding t) (submitted11 t) (totalScore t) (playing11 t).
Definition set_squad (v : list SquadPlayer) (t : Team) : Team :=
  mkTeam (team_id t) (team_name t) (purse t) v (isEliminated t)
         (isFinishedBidding t) (submitted11 t) (totalScore t) (playing11 t).
Definition set_isEliminated (v : bool) (t : Team) : Team :=
  mkTeam (team_id t) (team_name t) (purse t) (squad t) v
         (isFinishedBidding t) (submitted11 t) (totalScore t) (playing11 t).
Definition set_isFinishedBidding (v : bool) (t : Team) : Team :=
  mkTeam (team_id t) (team_name t) (purse t) (squad t) (isEliminated t)
         v (submitted11 t) (totalScore t) (playing11 t).
Definition set_submitted11 (v : bool) (t : Team) : Team :=
  mkTeam (team_id t) (team_name t) (purse t) (squad t) (isEliminated t)
         (isFinishedBidding t) v (totalScore t) (playing11 t).
Definition set_totalScore (v : Q) (t : Team) : Team :=
  mkTeam (team_id t) (team_name t) (purse t) (squad t) (isEliminated t)
         (isFinishedBidding t) (submitted11 t) v (playing11 t).
Definition set_playing11 (v : option (list SquadPlayer)) (t : Team) : Team :=
  mkTeam (team_id t) (team_name t) (purse t) (squad t) (isEliminated t)
         (isFinishedBidding t) (submitted11 t) (totalScore t) v.

Definition set_currentPlayerIndex (v : nat) (a : Auction) : Auction :=
  mkAuction (playerPool a) v (currentBid a) (currentBidderId a)
            (biddingOpen a) (phase a) (skippedBy a) (timeLeft a) (timer a).
Definition set_currentBid (v : Q) (a : Auction) : Auction :=
  mkAuction (playerPool a) (currentPlayerIndex a) v (currentBidderId a)
            (biddingOpen a) (phase a) (skippedBy a) (timeLeft a) (timer a).
Definition set_currentBidderId (v : option string) (a : Auction) : Auction :=
  mkAuction (playerPool a) (currentPlayerIndex a) (currentBid a) v
            (biddingOpen a) (phase a) (skippedBy a) (timeLeft a) (timer a).
Definition set_biddingOpen (v : bool) (a : Auction) : Auction :=
  mkAuction (playerPool a) (currentPlayerIndex a) (currentBid a)
            (currentBidderId a) v (phase a) (skippedBy a) (timeLeft a) (timer a).
Definition set_phase (v : Phase) (a : Auction) : Auction :=
  mkAuction (playerPool a) (currentPlayerIndex a) (currentBid a)
            (currentBidderId a) (biddingOpen a) v (skippedBy a) (timeLeft a) (timer a).
Definition set_skippedBy (v : list string) (a : Auction) : Auction :=
  mkAuction (playerPool a) (currentPlayerIndex a) (currentBid a)
            (currentBidderId a) (biddingOpen a) (phase a) v (timeLeft a) (timer a).
Definition set_timeLeft (v : Z) (a : Auction) : Auction :=
  mkAuction (playerPool a) (currentPlayerIndex a) (currentBid a)
            (currentBidderId a) (biddingOpen a) (phase a) (skippedBy a) v (timer a).
Definition set_timer (v : bool) (a : Auction) : Auction :=
  mkAuction (playerPool a) (currentPlayerIndex a) (currentBid a)
            (currentBidderId a) (biddingOpen a) (phase a) (skippedBy a) (timeLeft a) v.

Definition set_hostId (v : string) (r : Room) : Room :=
  mkRoom v (startingPurse r) (teams r) (auction r) (lastActivity r) (nextPlayerTimeout r).
Definition set_teams (v : TeamMap) (r : Room) : Room :=
  mkRoom (hostId r) (startingPurse r) v (auction r) (lastActivity r) (nextPlayerTimeout r).
Definition set_auction (v : Auction) (r : Room) : Room :=
  mkRoom (hostId r) (startingPurse r) (teams r) v (lastActivity r) (nextPlayerTimeout r).
Definition set_lastActivity (v : Z) (r : Room) : Room :=
  mkRoom (hostId r) (startingPurse r) (teams r) (auction r) v (nextPlayerTimeout r).
Definition set_nextPlayerTimeout (v : bool) (r : Room) : Room :=
  mkRoom (hostId r) (startingPurse r) (teams r) (auction r) (lastActivity r) v.

(** [room.auction.f = v] *)
Definition inAuction (f : Auction -> Auction) (r : Room) : Room :=
  set_auction (f (auction r)) r.

(** *** The team map *)

(** [teams[uid]], for a [uid] that is a key of the map or does not name
    a property that the object inherits from [Object.prototype]. *)
Fixpoint getTeam (uid : string) (ts : TeamMap) : option Team :=
  match ts with
  | [] => None
  | (k, t) :: rest => if (k =? uid)%string then Some t else getTeam uid rest
  end.

(** [teams[uid] = t]: an existing key keeps its place, a new key goes
    last, as it does in the object unless it is an array index.
    Assigning to a field of the object [teams[uid]] is [putTeam] of the
    changed team. *)
Fixpoint putTeam (uid : string) (t : Team) (ts : TeamMap) : TeamMap :=
  match ts with
  | [] => [(uid, t)]
  | (k, t0) :: rest =>
      if (k =? uid)%string then (k, t) :: rest else (k, t0) :: putTeam uid t rest
  end.

(** [delete teams[uid]] *)
Definition deleteTeam (uid : string) (ts : TeamMap) : TeamMap :=
  filter (fun kt => negb (fst kt =? uid)%string) ts.

(** [Object.values(teams)] and [Object.keys(teams)] *)
Definition teamValues (ts : TeamMap) : list Team := map snd ts.
Definition teamKeys (ts : TeamMap) : list string := map fst ts.

(** [set.has(x)] and [set.add(x)] *)
Definition setHas (x : string) (s : list string) : bool :=
  existsb (fun y => (y =? x)%string) s.
Definition setAdd (x : string) (s : list string) : list string :=
  if setHas x s then s else s ++ [x].

(** ** Events sent to clients *)

Inductive Emit : Type :=
  | JoinedRoom (team : Team) (isHost : bool)
  | RoomCreated (team : Team) (isHost : bool)
  | TeamsUpdated (ts : list Team)
  | AuctionStartedSignal
  | NewPlayer (p : option Player) (bid : Q)
  | BidUpdated (bid : Q) (bidderId bidderName : string)
  | TimerUpdate (seconds : Z)
  | PlayerSold (p : Player) (price : Q) (teamName : string) (eliminated : bool)
  | PlayerUnsold (p : option Player)
  | StartSelectionPhase
  | GameOverResults (winner : option Team) (rankings : list Team)
  | ErrorMessage (msg : string).

(** [io.to(roomId).emit] reaches the room, [socket.emit] the caller. *)
Inductive Out : Type :=
  | ToRoom (e : Emit)
  | ToSocket (e : Emit).

(** A handler runs on the room and the log of what it has sent. *)
Definition St : Type := (Room * list Out)%type.

Definition upd (f : Room -> Room) (s : St) : St := (f (fst s), snd s).
Definition emit (o : Out) (s : St) : St := (fst s, snd s ++ [o]).

Inductive outcome (A : Type) : Type :=
  | Done (a : A)
  | Threw.
Arguments Done {A} a.
Arguments Threw {A}.

(** ** Game state logic *)

(** [updateRoomActivity]: [Date.now()] is the time stamp [now] that
    comes with every event. *)
Definition updateRoomActivity (now : Z) (s : St) : St :=
  upd (set_lastActivity now) s.

Definition eliminationDue (t : Team) : bool :=
  Qlt_bool (purse t) BID_INCREMENT && (List.length (squad t) <? MIN_SQUAD_TO_PLAY)%nat.

Definition checkTeam (t : Team) : Team :=
  if eliminationDue t then set_isEliminated true t else t.

Definition checkEliminations (s : St) : St :=
  upd (fun r => set_teams (map (fun kt => (fst kt, checkTeam (snd kt))) (teams r)) r) s.

Definition endAuctionPhase (now : Z) (s : St) : St :=
  let s := upd (inAuction (set_timer false)) s in
  let s := upd (inAuction (set_phase SELECTION)) s in
  let s := upd (inAuction (set_biddingOpen false)) s in
  let s := emit (ToRoom StartSelectionPhase) s in
  updateRoomActivity now s.

Definition isActiveBidder (t : Team) : bool :=
  negb (isEliminated t) && negb (isFinishedBidding t)
  && (List.length (squad t) <? MAX_SQUAD_SIZE)%nat.

Definition activeBidders (r : Room) : list Team :=
  filter isActiveBidder (teamValues (teams r)).

Definition checkAuctionCompletion (now : Z) (s : St) : St :=
  if negb (Phase_eqb (phase (auction (fst s))) AUCTION) then s
  else if (List.length (activeBidders (fst s)) =? 0)%nat then
    let s := upd (inAuction (set_timer false)) s in
    endAuctionPhase now s
  else s.

(** [teams.sort((a, b) => b.totalScore - a.totalScore)]: a stable sort,
    highest score first. *)
Fixpoint insertByScore (t : Team) (l : list Team) : list Team :=
  match l with
  | [] => [t]
  | u :: rest =>
      if Qlt_bool (totalScore t) (totalScore u) then u :: insertByScore t rest
      else t :: l
  end.

Definition sortByScore (l : list Team) : list Team :=
  fold_right insertByScore [] l.

Definition rankings (r : Room) : list Team :=
  sortByScore (filter (fun t => negb (isEliminated t)) (teamValues (teams r))).

Definition calculateWinner (now : Z) (s : St) : St :=
  let s := upd (inAuction (set_phase RESULT)) s in
  let teams := rankings (fst s) in
  let s := emit (ToRoom (GameOverResults (hd_error teams) teams)) s in
  updateRoomActivity now s.

Definition emitResults (s : St) : St :=
  if Phase_eqb (phase (auction (fst s))) RESULT then
    let teams := rankings (fst s) in
    emit (ToRoom (GameOverResults (hd_error teams) teams)) s
  else s.

(** The property name that [teams[currentBidderId]] reads, and the
    truth value of [currentBidderId]. *)
Definition propertyKey (o : option string) : string :=
  match o with Some u => u | None => "null" end.

Definition truthyId (o : option string) : bool :=
  match o with Some u => truthy u | None => false end.

(** [auction.playerPool[auction.currentPlayerIndex]] *)
Definition currentPlayer (r : Room) : option Player :=
  nth_error (playerPool (auction r)) (currentPlayerIndex (auction r)).

(** ** Timers *)

(** The part of [startAuctionTimer] that runs at once: the count is set
    to 10, a running interval is cleared and a new one installed. *)
Definition startAuctionTimer (s : St) : St :=
  let s := upd (inAuction (set_timeLeft 10%Z)) s in
  let s := upd (inAuction (set_timer false)) s in
  upd (inAuction (set_timer true)) s.

Definition prepareNext (now : Z) (s : St) : St :=
  if negb (Phase_eqb (phase (auction (fst s))) AUCTION) then s
  else
    let s := upd (inAuction (fun a => set_currentPlayerIndex (S (currentPlayerIndex a)) a)) s in
    let s := checkEliminations s in
    let s := emit (ToRoom (TeamsUpdated (teamValues (teams (fst s))))) s in
    let s := updateRoomActivity now s in
    let s := upd (set_nextPlayerTimeout false) s in
    upd (set_nextPlayerTimeout true) s.

Definition finishPlayerUnsold (now : Z) (s : St) : St :=
  let s := upd (inAuction (set_biddingOpen false)) s in
  let player := currentPlayer (fst s) in
  let s := emit (ToRoom (PlayerUnsold player)) s in
  prepareNext now s.

Definition finishBidding (now : Z) (s : St) : outcome St :=
  let s := upd (inAuction (set_biddingOpen false)) s in
  let a := auction (fst s) in
  let player := currentPlayer (fst s) in
  let winnerUserId := propertyKey (currentBidderId a) in
  match getTeam winnerUserId (teams (fst s)) with
  | Some team =>
      let finalPrice := currentBid a in
      if Qlt_bool (purse team) finalPrice then Done (finishPlayerUnsold now s)
      else if (MAX_SQUAD_SIZE <=? List.length (squad team))%nat then
        Done (finishPlayerUnsold now s)
      else
        match player with
        | None => Threw
        | Some p =>
            let team := set_purse (toFixed2 (purse team - finalPrice)) team in
            let soldPlayer := mkSquadPlayer p finalPrice in
            let team := set_squad (squad team ++ [soldPlayer]) team in
            let s := upd (fun r => set_teams (putTeam winnerUserId team (teams r)) r) s in
            let s := checkEliminations s in
            let eliminated :=
              match getTeam winnerUserId (teams (fst s)) with
              | Some t => isEliminated t
              | None => false
              end in
            let s := emit (ToRoom (PlayerSold p (currentBid a) (team_name team) eliminated)) s in
            let s := checkAuctionCompletion now s in
            Done (prepareNext now s)
        end
  | None =>
      let s := emit (ToRoom (PlayerUnsold player)) s in
      let s := checkAuctionCompletion now s in
      Done (prepareNext now s)
  end.

(** The interval callback of [startAuctionTimer]. *)
Definition timerTick (now : Z) (s : St) : outcome St :=
  let s := upd (inAuction (fun a => set_timeLeft (timeLeft a - 1)%Z a)) s in
  let s := emit (ToRoom (TimerUpdate (timeLeft (auction (fst s))))) s in
  if (timeLeft (auction (fst s)) <=? 0)%Z then
    let s := upd (inAuction (set_timer false)) s in
    if truthyId (currentBidderId (auction (fst s))) then finishBidding now s
    else Done (finishPlayerUnsold now s)
  else Done s.

Definition startNextPlayer (now : Z) (s : St) : St :=
  if negb (Phase_eqb (phase (auction (fst s))) AUCTION) then s
  else
    match currentPlayer (fst s) with
    | None => endAuctionPhase now s
    | Some player =>
        let s := upd (inAuction (set_currentBid (basePrice player))) s in
        let s := upd (inAuction (set_currentBidderId None)) s in
        let s := upd (inAuction (set_skippedBy [])) s in
        let s := upd (inAuction (set_biddingOpen true)) s in
        let s := updateRoomActivity now s in
        let s := emit (ToRoom (NewPlayer (Some player) (currentBid (auction (fst s))))) s in
        startAuctionTimer s
    end.

(** The timeout callback of [prepareNext]. *)
Definition nextPlayerTimeoutFired (now : Z) (s : St) : St :=
  let s := upd (set_nextPlayerTimeout false) s in
  if Phase_eqb (phase (auction (fst s))) AUCTION then startNextPlayer now s
  else s.

(** ** Socket handlers *)

(** What a joining or rejoining socket is told about the round in
    progress; [withBid] is the extra [bid-updated] of [rejoin-game]. *)
Definition replayState (withBid : bool) (s : St) : St :=
  let room := fst s in
  if Phase_eqb (phase (auction room)) AUCTION && biddingOpen (auction room) then
    let s := emit (ToSocket (NewPlayer (currentPlayer room) (currentBid (auction room)))) s in
    let s :=
      match currentBidderId (auction room) with
      | Some bidder =>
          if withBid && truthy bidder then
            let bidderName :=
              match getTeam bidder (teams room) with
              | Some leader => team_name leader
              | None => "Unknown"
              end in
            emit (ToSocket (BidUpdated (currentBid (auction room)) bidder bidderName)) s
          else s
      | None => s
      end in
    let shown := if (timeLeft (auction room) =? 0)%Z then 10%Z else timeLeft (auction room) in
    emit (ToSocket (TimerUpdate shown)) s
  else if Phase_eqb (phase (auction room)) SELECTION then
    emit (ToSocket StartSelectionPhase) s
  else if Phase_eqb (phase (auction room)) RESULT then emitResults s
  else s.

Definition rejoinGame (now : Z) (userId : string) (s : St) : St :=
  let room := fst s in
  match getTeam userId (teams room) with
  | Some team =>
      let s := emit (ToSocket (JoinedRoom team (hostId room =? userId)%string)) s in
      let s := emit (ToRoom (TeamsUpdated (teamValues (teams room)))) s in
      let s := replayState true s in
      updateRoomActivity now s
  | None => emit (ToSocket (ErrorMessage "Session expired or room closed.")) s
  end.

(** [sanitizeInput(teamName, 30) || "Team"] *)
Definition teamNameOr (teamName : string) : string :=
  if truthy teamName then teamName else "Team".

Definition newTeam (userId teamName : string) (purse : Q) : Team :=
  mkTeam userId teamName purse [] false false false 0 None.

Definition joinRoom (now : Z) (teamName userId : string) (s : St) : St :=
  let teamName := teamNameOr teamName in
  let s :=
    match getTeam userId (teams (fst s)) with
    | Some _ => s
    | None =>
        upd (fun r => set_teams
               (putTeam userId (newTeam userId teamName (startingPurse r)) (teams r)) r) s
    end in
  let s := updateRoomActivity now s in
  let s :=
    match getTeam userId (teams (fst s)) with
    | Some team => emit (ToSocket (JoinedRoom team (userId =? hostId (fst s))%string)) s
    | None => s
    end in
  let s := replayState false s in
  let s := checkEliminations s in
  emit (ToRoom (TeamsUpdated (teamValues (teams (fst s))))) s.

(** [leave-room]; [None] when the room is deleted from [rooms]. *)
Definition leaveRoom (now : Z) (userId : string) (s : St) : option St :=
  let s := upd (fun r => set_teams (deleteTeam userId (teams r)) r) s in
  let kept :=
    if (hostId (fst s) =? userId)%string then
      match teamKeys (teams (fst s)) with
      | first :: _ => Some (upd (set_hostId first) s)
      | [] => None
      end
    else Some s in
  match kept with
  | Some s =>
      let s := emit (ToRoom (TeamsUpdated (teamValues (teams (fst s))))) s in
      Some (checkAuctionCompletion now s)
  | None => None
  end.

Definition finishBiddingForMe (now : Z) (userId : string) (s : St) : St :=
  match getTeam userId (teams (fst s)) with
  | Some team =>
      if (MIN_SQUAD_TO_PLAY <=? List.length (squad team))%nat && negb (isEliminated team) then
        let s := upd (fun r => set_teams
                        (putTeam userId (set_isFinishedBidding true team) (teams r)) r) s in
        let s := updateRoomActivity now s in
        let s := emit (ToRoom (TeamsUpdated (teamValues (teams (fst s))))) s in
        checkAuctionCompletion now s
      else s
  | None => s
  end.

(** [start-auction]: the caller is [socketToUserMap[socket.id]],
    [undefined] for a socket that never announced a user. *)
Definition startAuction (now : Z) (caller : option string) (s : St) : St :=
  match caller with
  | None => s
  | Some userId =>
      if negb (hostId (fst s) =? userId)%string then s
      else if negb (Phase_eqb (phase (auction (fst s))) LOBBY) then s
      else
        let s := upd (inAuction (set_phase AUCTION)) s in
        let s := updateRoomActivity now s in
        let s := emit (ToRoom AuctionStartedSignal) s in
        startNextPlayer now s
  end.

Definition isOverseas (p : Player) : bool := (country p =? "Overseas")%string.

Definition overseasCount (l : list SquadPlayer) : nat :=
  List.length (filter (fun p => isOverseas (player p)) l).

(** [place-bid]; the sum [currentBid + BID_INCREMENT] and the two
    comparisons with the amount are exact here and made in doubles by
    the handler. *)
Definition placeBid (now : Z) (bidAmount : jsnum) (userId : string) (s : St) : outcome St :=
  let room := fst s in
  if negb (biddingOpen (auction room)) then Done s
  else
    match getTeam userId (teams room) with
    | None => Done s
    | Some team =>
        if isEliminated team || isFinishedBidding team then Done s
        else if (MAX_SQUAD_SIZE <=? List.length (squad team))%nat then Done s
        else
          let minBid := currentBid (auction room) + BID_INCREMENT in
          if jlt bidAmount minBid || jgt bidAmount (purse team) then Done s
          else
            match bidAmount with
            | JNum amount =>
                match currentPlayer room with
                | None => Threw
                | Some player =>
                    if isOverseas player
                       && (MAX_OVERSEAS_SQUAD <=? overseasCount (squad team))%nat
                    then Done s
                    else
                      let s := upd (inAuction (set_currentBid (toFixed2 amount))) s in
                      let s := upd (inAuction (set_currentBidderId (Some userId))) s in
                      let s := upd (inAuction (set_skippedBy [])) s in
                      let s := updateRoomActivity now s in
                      let s := emit (ToRoom (BidUpdated (currentBid (auction (fst s)))
                                               userId (team_name team))) s in
                      Done (startAuctionTimer s)
                end
            | JNaN | JPosInf | JNegInf => Done s
            end
    end.

Definition requiredSkips (r : Room) : Z :=
  if truthyId (currentBidderId (auction r))
  then (Z.of_nat (List.length (activeBidders r)) - 1)%Z
  else Z.of_nat (List.length (activeBidders r)).

Definition skipForMe (now : Z) (userId : string) (s : St) : outcome St :=
  let room := fst s in
  if negb (biddingOpen (auction room)) then Done s
  else
    match getTeam userId (teams room) with
    | None => Done s
    | Some team =>
        if isEliminated team || isFinishedBidding team then Done s
        else
          let s := upd (inAuction (fun a => set_skippedBy (setAdd userId (skippedBy a)) a)) s in
          let room := fst s in
          if (requiredSkips room <=? Z.of_nat (List.length (skippedBy (auction room))))%Z
             && (0 <? List.length (activeBidders room))%nat
          then
            let s := upd (inAuction (set_timer false)) s in
            if truthyId (currentBidderId (auction (fst s))) then finishBidding now s
            else Done (finishPlayerUnsold now s)
          else Done s
    end.

(** ** Scoring *)

Definition getEffectiveRating (p : SquadPlayer) : Z :=
  let factor := jdiv (soldPrice p) (basePrice (player p)) in
  let r := rating (player p) in
  let finalRating :=
    if (88 <? r)%Z && jge factor 8 then (r - 5)%Z
    else if (88 <? r)%Z && jlt factor 6 then (r + 5)%Z
    else if (r <? 88)%Z && jgt factor 6 then (r - 5)%Z
    else if (r <? 88)%Z && jlt factor 4 then (r + 5)%Z
    else r in
  Z.max 0 finalRating.

(** [selectedPlayers.find(p => p.id === x)] *)
Definition findById (x : string) (l : list SquadPlayer) : option SquadPlayer :=
  find (fun p => (id (player p) =? x)%string) l.

(** [playerIds.includes(x)] *)
Definition includes (x : string) (l : list string) : bool :=
  existsb (fun y => (y =? x)%string) l.

(** The score accumulated by the body of [submit-playing-11], before it
    is rounded. *)
Definition lineupScore (selectedPlayers : list SquadPlayer) (cId vcId : string)
    (captain viceCaptain : SquadPlayer) : Q :=
  let cEffRating := inject_Z (getEffectiveRating captain) in
  let vcEffRating := inject_Z (getEffectiveRating viceCaptain) in
  let score := 0 in
  let score := score + cEffRating * 2 in
  let score := score + vcEffRating * (3 # 2) in
  let leadershipBonus := cEffRating * (1 # 10) + vcEffRating * (1 # 10) in
  fold_left
    (fun score p =>
       if negb (id (player p) =? cId)%string && negb (id (player p) =? vcId)%string
       then score + (inject_Z (getEffectiveRating p) + leadershipBonus)
       else score)
    selectedPlayers score.

(** [submit-playing-11]; [playerIds] is [None] when the payload is not
    an array. *)
Definition submitPlaying11 (now : Z) (playerIds : option (list string))
    (cId vcId userId : string) (s : St) : St :=
  match getTeam userId (teams (fst s)) with
  | None => s
  | Some team =>
      let requiredSelection := Nat.min PLAYING_11_SIZE (List.length (squad team)) in
      match playerIds with
      | None => s
      | Some playerIds =>
          if negb (List.length playerIds =? requiredSelection)%nat then s
          else
            let selectedPlayers :=
              filter (fun p => includes (id (player p)) playerIds) (squad team) in
            if negb (List.length selectedPlayers =? requiredSelection)%nat then s
            else if (MAX_OVERSEAS_P11 <? overseasCount selectedPlayers)%nat then s
            else
              match findById cId selectedPlayers, findById vcId selectedPlayers with
              | Some captain, Some viceCaptain =>
                  if (cId =? vcId)%string then s
                  else
                    let score := lineupScore selectedPlayers cId vcId captain viceCaptain in
                    let team := set_totalScore (round100 score) team in
                    let team := set_submitted11 true team in
                    let team := set_playing11 (Some selectedPlayers) team in
                    let s := upd (fun r => set_teams (putTeam userId team (teams r)) r) s in
                    let s := updateRoomActivity now s in
                    let activeTeams :=
                      filter (fun t => negb (isEliminated t)) (teamValues (teams (fst s))) in
                    let allSubmitted := forallb submitted11 activeTeams in
                    if allSubmitted then calculateWinner now s
                    else emit (ToRoom (TeamsUpdated (teamValues (teams (fst s))))) s
              | _, _ => s
              end
      end
  end.

(** ** Room creation *)

(** [Math.max(50, Math.min(500, parseFloat(purse) || 100))] *)
Definition hostPurse (purse : jsnum) : Q :=
  match purse with
  | JNaN => 100
  | JPosInf => 500
  | JNegInf => 50
  | JNum q =>
      let q := if Qeq_bool q 0 then 100 else q in
      let q := if Qlt_bool 500 q then 500 else q in
      if Qlt_bool q 50 then 50 else q
  end.

Definition errorPool : list Player :=
  [mkPlayer "error_0" "Error: No Players" "N/A" "India" "Uncapped" 0 0].

(** [create-room]; [initialPool] is what [loadPlayerDatabase] returned,
    already in the order [shuffleArray] chose. *)
Definition createRoom (now : Z) (teamName : string) (purse : jsnum) (userId : string)
    (initialPool : list Player) : St :=
  let teamName := teamNameOr teamName in
  let hostPurse := hostPurse purse in
  let initialPool :=
    if (List.length initialPool =? 0)%nat then errorPool else initialPool in
  let room :=
    mkRoom userId hostPurse
      [(userId, newTeam userId teamName hostPurse)]
      (mkAuction initialPool 0 0 None false LOBBY [] 10 false)
      now false in
  let s := (room, []) in
  let s :=
    match getTeam userId (teams room) with
    | Some team => emit (ToSocket (RoomCreated team true)) s
    | None => s
    end in
  emit (ToRoom (TeamsUpdated (teamValues (teams room)))) s.

(** ** The room as a transition system *)

Inductive Event : Type :=
  | RejoinGame (userId : string)
  | JoinRoom (teamName userId : string)
  | LeaveRoom (userId : string)
  | FinishBiddingForMe (userId : string)
  | StartAuction (caller : option string)
  | PlaceBid (bidAmount : jsnum) (userId : string)
  | SkipForMe (userId : string)
  | SubmitPlaying11 (playerIds : option (list string)) (cId vcId userId : string)
  | TimerTick
  | NextPlayerTimeout.

(** A timer callback can only run while its timer is pending. *)
Definition enabled (ev : Event) (r : Room) : bool :=
  match ev with
  | TimerTick => timer (auction r)
  | NextPlayerTimeout => nextPlayerTimeout r
  | _ => true
  end.

Inductive result : Type :=
  | Live (r : Room) (out : list Out)
  | Closed
  | Crashed.

Definition live (o : outcome St) : result :=
  match o with
  | Done s => Live (fst s) (snd s)
  | Threw => Crashed
  end.

Definition handle (now : Z) (ev : Event) (r : Room) : result :=
  let s : St := (r, []) in
  match ev with
  | RejoinGame userId => live (Done (rejoinGame now userId s))
  | JoinRoom teamName userId => live (Done (joinRoom now teamName userId s))
  | LeaveRoom userId =>
      match leaveRoom now userId s with
      | Some s => live (Done s)
      | None => Closed
      end
  | FinishBiddingForMe userId => live (Done (finishBiddingForMe now userId s))
  | StartAuction caller => live (Done (startAuction now caller s))
  | PlaceBid bidAmount userId => live (placeBid now bidAmount userId s)
  | SkipForMe userId => live (skipForMe now userId s)
  | SubmitPlaying11 playerIds cId vcId userId =>
      live (Done (submitPlaying11 now playerIds cId vcId userId s))
  | TimerTick => live (timerTick now s)
  | NextPlayerTimeout => live (Done (nextPlayerTimeoutFired now s))
  end.

(** One step of a room that stays alive. *)
Definition step (r r' : Room) : Prop :=
  exists now ev out, enabled ev r = true /\ handle now ev r = Live r' out.

(** Running a list of time-stamped events. *)
Fixpoint run (evs : list (Z * Event)) (r : Room) : option Room :=
  match evs with
  | [] => Some r
  | (now, ev) :: rest =>
      if enabled ev r then
        match handle now ev r with
        | Live r' _ => run rest r'
        | Closed | Crashed => None
        end
      else None
  end.

(** The rooms a server can hold: created by [create-room] and driven by
    events since, the server running all the while; [reloaded] is the
    room after a restart. *)
Definition reachable (r : Room) : Prop :=
  exists now teamName purse userId initialPool evs,
    run evs (fst (createRoom now teamName purse userId initialPool)) = Some r.

(** ** Persistence *)

Local Unset Elimination Schemes.

(** The values that [JSON.stringify] writes and [JSON.parse] reads. *)
Inductive json : Type :=
  | JNull
  | JBool (b : bool)
  | JNumber (q : Q)
  | JString (s : string)
  | JArray (items : list json)
  | JObject (fields : list (string * json)).

Local Set Elimination Schemes.

(** *** [saveGameData]: the clean copy of a room *)

Definition json_of_player (p : Player) : list (string * json) :=
  [("id", JString (id p));
   ("name", JString (name p));
   ("role", JString (role p));
   ("country", JString (country p));
   ("status", JString (status p));
   ("rating", JNumber (inject_Z (rating p)));
   ("basePrice", JNumber (basePrice p))].

Definition json_of_squadPlayer (p : SquadPlayer) : json :=
  JObject (json_of_player (player p) ++ [("soldPrice", JNumber (soldPrice p))]).

(** A team object; [playing11] is a property only once a lineup has
    been stored. *)
Definition json_of_team (t : Team) : json :=
  JObject
    ([("id", JString (team_id t));
      ("name", JString (team_name t));
      ("purse", JNumber (purse t));
      ("squad", JArray (map json_of_squadPlayer (squad t)));
      ("isEliminated", JBool (isEliminated t));
      ("isFinishedBidding", JBool (isFinishedBidding t));
      ("submitted11", JBool (submitted11 t));
      ("totalScore", JNumber (totalScore t))]
     ++ match playing11 t with
        | Some l => [("playing11", JArray (map json_of_squadPlayer l))]
        | None => []
        end).

Definition json_of_phase (p : Phase) : json :=
  JString match p with
          | LOBBY => "LOBBY"
          | AUCTION => "AUCTION"
          | SELECTION => "SELECTION"
          | RESULT => "RESULT"
          end.

Definition json_of_id (o : option string) : json :=
  match o with
  | Some u => JString u
  | None => JNull
  end.

(** The object [cleanRoom] that [saveGameData] builds for a room. *)
Definition cleanRoom (room : Room) : json :=
  JObject
    [("hostId", JString (hostId room));
     ("config", JObject [("startingPurse", JNumber (startingPurse room))]);
     ("teams",
      JObject (map (fun kt => (fst kt, json_of_team (snd kt))) (teams room)));
     ("auction",
      JObject
        [("playerPool",
          JArray (map (fun p => JObject (json_of_player p)) (playerPool (auction room))));
         ("currentPlayerIndex",
          JNumber (inject_Z (Z.of_nat (currentPlayerIndex (auction room)))));
         ("currentBid", JNumber (currentBid (auction room)));
         ("currentBidderId", json_of_id (currentBidderId (auction room)));
         ("biddingOpen", JBool (biddingOpen (auction room)));
         ("phase", json_of_phase (phase (auction room)));
         ("skippedBy", JArray (map JString (skippedBy (auction room))));
         ("timeLeft", JNumber (inject_Z (timeLeft (auction room))))]);
     ("lastActivity", JNumber (inject_Z (lastActivity room)))].

(** *** [loadGameData]: a room from its parsed snapshot *)

(** Reading a parsed object as a room: [None] when a property that the
    server relies on is missing or has another type. *)
Definition field (k : string) (fields : list (string * json)) : option json :=
  option_map snd (find (fun kv => (fst kv =? k)%string) fields).

Definition bind {A B : Type} (o : option A) (f : A -> option B) : option B :=
  match o with
  | Some a => f a
  | None => None
  end.

Notation "x <- e ;; k" := (bind e (fun x => k))
  (at level 61, e at next level, right associativity).

Definition getString (j : json) : option string :=
  match j with JString s => Some s | _ => None end.
Definition getNumber (j : json) : option Q :=
  match j with JNumber q => Some q | _ => None end.
Definition getBool (j : json) : option bool :=
  match j with JBool b => Some b | _ => None end.
Definition getArray (j : json) : option (list json) :=
  match j with JArray l => Some l | _ => None end.
Definition getObject (j : json) : option (list (string * json)) :=
  match j with JObject l => Some l | _ => None end.

Fixpoint traverse {A B : Type} (f : A -> option B) (l : list A) : option (list B) :=
  match l with
  | [] => Some []
  | x :: rest =>
      y <- f x ;;
      ys <- traverse f rest ;;
      Some (y :: ys)
  end.

Definition player_of_fields (fs : list (string * json)) : option Player :=
  i <- bind (field "id" fs) getString ;;
  n <- bind (field "name" fs) getString ;;
  ro <- bind (field "role" fs) getString ;;
  c <- bind (field "country" fs) getString ;;
  st <- bind (field "status" fs) getString ;;
  ra <- bind (field "rating" fs) getNumber ;;
  b <- bind (field "basePrice" fs) getNumber ;;
  Some (mkPlayer i n ro c st (Qfloor ra) b).

Definition squadPlayer_of_json (j : json) : option SquadPlayer :=
  fs <- getObject j ;;
  p <- player_of_fields fs ;;
  sp <- bind (field "soldPrice" fs) getNumber ;;
  Some (mkSquadPlayer p sp).

Definition team_of_json (j : json) : option Team :=
  fs <- getObject j ;;
  i <- bind (field "id" fs) getString ;;
  n <- bind (field "name" fs) getString ;;
  pu <- bind (field "purse" fs) getNumber ;;
  sq <- bind (bind (field "squad" fs) getArray) (traverse squadPlayer_of_json) ;;
  e <- bind (field "isEliminated" fs) getBool ;;
  f <- bind (field "isFinishedBidding" fs) getBool ;;
  su <- bind (field "submitted11" fs) getBool ;;
  ts <- bind (field "totalScore" fs) getNumber ;;
  p11 <- match field "playing11" fs with
         | Some j11 =>
             l <- bind (getArray j11) (traverse squadPlayer_of_json) ;;
             Some (Some l)
         | None => Some None
         end ;;
  Some (mkTeam i n pu sq e f su ts p11).

Definition phase_of_json (j : json) : option Phase :=
  s <- getString j ;;
  if (s =? "LOBBY")%string then Some LOBBY
  else if (s =? "AUCTION")%string then Some AUCTION
  else if (s =? "SELECTION")%string then Some SELECTION
  else if (s =? "RESULT")%string then Some RESULT
  else None.

Definition id_of_json (j : json) : option (option string) :=
  match j with
  | JNull => Some None
  | JString u => Some (Some u)
  | _ => None
  end.

(** [new Set(array)] *)
Definition setOfList (l : list string) : list string :=
  fold_left (fun s x => setAdd x s) l [].

(** What [loadGameData] makes of one entry of the file: the skip votes
    become a [Set] again, empty when the file holds no array, and both
    handles are [null]. No countdown is started. *)
Definition loadRoom (j : json) : option Room :=
  fs <- getObject j ;;
  h <- bind (field "hostId" fs) getString ;;
  cfg <- bind (field "config" fs) getObject ;;
  sp <- bind (field "startingPurse" cfg) getNumber ;;
  ts <- bind (bind (field "teams" fs) getObject)
             (traverse (fun kv => t <- team_of_json (snd kv) ;; Some (fst kv, t))) ;;
  afs <- bind (field "auction" fs) getObject ;;
  pool <- bind (bind (field "playerPool" afs) getArray)
               (traverse (fun j => bind (getObject j) player_of_fields)) ;;
  idx <- bind (field "currentPlayerIndex" afs) getNumber ;;
  bid <- bind (field "currentBid" afs) getNumber ;;
  bidder <- bind (field "currentBidderId" afs) id_of_json ;;
  bo <- bind (field "biddingOpen" afs) getBool ;;
  ph <- bind (field "phase" afs) phase_of_json ;;
  skipped <- match field "skippedBy" afs with
             | Some (JArray l) => bind (traverse getString l) (fun l => Some (setOfList l))
             | _ => Some []
             end ;;
  tl <- bind (field "timeLeft" afs) getNumber ;;
  la <- bind (field "lastActivity" fs) getNumber ;;
  Some (mkRoom h sp ts
          (mkAuction pool (Z.to_nat (Qfloor idx)) bid bidder bo ph skipped (Qfloor tl)
             false)
          (Qfloor la) false).

(** The clean-up at the end of [loadGameData] drops a room that has been
    idle for more than a day. *)
Definition expired (now : Z) (r : Room) : bool :=
  negb (lastActivity r =? 0)%Z && (86400000 <? now - lastActivity r)%Z.

(** A room after the server has saved it, stopped and started again. *)
Definition restart (now : Z) (r : Room) : option Room :=
  r' <- loadRoom (cleanRoom r) ;;
  if expired now r' then None else Some r'.

(** The names of the properties of an object. *)
Definition keysOf (j : json) : list string :=
  match j with
  | JObject fs => map fst fs
  | _ => []
  end.

(** * Vocabulary of the properties *)

(** A whole number of hundredths. *)
Definition isCents (x : Q) : Prop := exists k : Z, x == k # 100.

(** The conditions under which [place-bid] takes a bid of [amount] from
    [userId], whose team is [team], on the player [p]. *)
Definition bidAcceptable (r : Room) (userId : string) (team : Team) (amount : Q)
    (p : Player) : Prop :=
  biddingOpen (auction r) = true
  /\ getTeam userId (teams r) = Some team
  /\ isEliminated team = false
  /\ isFinishedBidding team = false
  /\ (List.length (squad team) < MAX_SQUAD_SIZE)%nat
  /\ currentBid (auction r) + BID_INCREMENT <= amount
  /\ amount <= purse team
  /\ currentPlayer r = Some p
  /\ (isOverseas p = true -> (overseasCount (squad team) < MAX_OVERSEAS_SQUAD)%nat).

(** The room after an accepted bid. *)
Definition bidTaken (now : Z) (r : Room) (userId : string) (amount : Q) : Room :=
  mkRoom (hostId r) (startingPurse r) (teams r)
    (mkAuction (playerPool (auction r)) (currentPlayerIndex (auction r))
       (toFixed2 amount) (Some userId) (biddingOpen (auction r)) (phase (auction r))
       [] 10 true)
    now (nextPlayerTimeout r).

(** Functions that leave the teams and the starting purse alone. *)
Definition sameTeams (f : St -> St) : Prop :=
  forall s, teams (fst (f s)) = teams (fst s)
            /\ startingPurse (fst (f s)) = startingPurse (fst s).

(** The team after a sale: [team.purse = ...; team.squad.push(...)]. *)
Definition soldTo (team : Team) (p : Player) (price : Q) : Team :=
  set_squad (squad team ++ [mkSquadPlayer p price])
            (set_purse (toFixed2 (purse team - price)) team).

Definition checkAll (ts : TeamMap) : TeamMap :=
  map (fun kt => (fst kt, checkTeam (snd kt))) ts.

(** Every way in which a handler other than [leave-room] changes the
    team map; only a handler that can close a round ([canSell]) sells. [sp] is the
    room's starting purse, [price] the current bid and [onBlock] the
    player on the block when the handler starts. *)
Inductive teamsChange (canSell : bool) (sp price : Q) (onBlock : option Player)
    (ts : TeamMap) :
    TeamMap -> Prop :=
  | tc_same : teamsChange canSell sp price onBlock ts ts
  | tc_check : teamsChange canSell sp price onBlock ts (checkAll ts)
  | tc_sale uid team p :
      getTeam uid ts = Some team ->
      onBlock = Some p ->
      price <= purse team ->
      (List.length (squad team) < MAX_SQUAD_SIZE)%nat ->
      canSell = true ->
      teamsChange canSell sp price onBlock ts
        (checkAll (putTeam uid (soldTo team p price) ts))
  | tc_join uid teamName :
      getTeam uid ts = None ->
      teamsChange canSell sp price onBlock ts
        (checkAll (putTeam uid (newTeam uid teamName sp) ts))
  | tc_finished uid team :
      getTeam uid ts = Some team ->
      isEliminated team = false ->
      (MIN_SQUAD_TO_PLAY <= List.length (squad team))%nat ->
      teamsChange canSell sp price onBlock ts
        (putTeam uid (set_isFinishedBidding true team) ts)
  | tc_submit uid team score selected :
      getTeam uid ts = Some team ->
      teamsChange canSell sp price onBlock ts
        (putTeam uid
           (set_playing11 (Some selected)
              (set_submitted11 true (set_totalScore score team))) ts).

(** The change between the room a function starts on and the room it
    leaves. *)
Definition teamsChanged (canSell : bool) (s s' : St) : Prop :=
  teamsChange canSell (startingPurse (fst s)) (currentBid (auction (fst s)))
    (currentPlayer (fst s)) (teams (fst s)) (teams (fst s'))
  /\ startingPurse (fst s') = startingPurse (fst s).

Definition purseOk (t : Team) : Prop := 0 <= purse t.

(** A team that the elimination rule catches carries the flag. *)
Definition flagged (t : Team) : Prop :=
  eliminationDue t = true -> isEliminated t = true.

(** The part of the invariant that concerns purses and flags. *)
Definition teamsInv (r : Room) : Prop :=
  50 <= startingPurse r
  /\ NoDup (teamKeys (teams r))
  /\ Forall purseOk (teamValues (teams r))
  /\ Forall flagged (teamValues (teams r)).

(** A running countdown belongs to an open round, and an open round has
    a player on the block. *)
Definition roundOk (a : Auction) : Prop :=
  (timer a = true -> biddingOpen a = true)
  /\ (biddingOpen a = true ->
      nth_error (playerPool a) (currentPlayerIndex a) <> None).

(** No round is open and no countdown runs. *)
Definition closed (a : Auction) : Prop :=
  biddingOpen a = false /\ timer a = false.

(** The phase stays, or the auction ends. *)
Definition phaseStep (p p' : Phase) : Prop :=
  p' = p \/ (p = AUCTION /\ p' = SELECTION).

(** Functions that leave the auction state alone. *)
Definition sameAuction (f : St -> St) : Prop :=
  forall s, auction (fst (f s)) = auction (fst s).

(** Every team still in the game has handed in a lineup. *)
Definition allSubmitted (r : Room) : bool :=
  forallb submitted11 (filter (fun t => negb (isEliminated t)) (teamValues (teams r))).

(** How the phase can move in one step: not at all, from the auction to
    the selection, out of the lobby when the host starts the auction, or
    to the results when a lineup comes in and nobody is left to wait for. *)
Definition phaseMove (ev : Event) (r r' : Room) : Prop :=
  phaseStep (phase (auction r)) (phase (auction r'))
  \/ (phase (auction r) = LOBBY
      /\ ev = StartAuction (Some (hostId r))
      /\ (phase (auction r') = AUCTION \/ phase (auction r') = SELECTION))
  \/ (phase (auction r') = RESULT
      /\ allSubmitted r' = true
      /\ exists playerIds cId vcId userId,
           ev = SubmitPlaying11 playerIds cId vcId userId).

(** ** Rooms used in examples *)

Definition demoPlayer (i country : string) (rating : Z) (basePrice : Q) : Player :=
  mkPlayer i i "Batsman" country "Capped" rating basePrice.

Definition demoPool : list Player :=
  [demoPlayer "p1" "India" 80 (1 # 5);
   demoPlayer "p2" "Overseas" 90 (1 # 5);
   demoPlayer "p3" "India" 85 (1 # 5)].

(** The room that [run] reaches, or the room it started from when an
    event closed or crashed the room. *)
Definition after (evs : list (Z * Event)) (r : Room) : Room :=
  match run evs r with
  | Some r' => r'
  | None => r
  end.

(** One team with a purse of 100, in the lobby. *)
Definition demoLobby : Room :=
  after [] (fst (createRoom 0 "A" (JNum 100) "u1" demoPool)).

(** One team with a purse of 100, the first round open at 0.2. *)
Definition demoOpen : Room :=
  after [(1%Z, StartAuction (Some "u1"))]
        (fst (createRoom 0 "A" (JNum 100) "u1" demoPool)).


(** A catalogue whose first base price is 0.204. *)
Definition oddPriceOpen : Room :=
  after [(1%Z, StartAuction (Some "u1"))]
        (fst (createRoom 0 "A" (JNum 100) "u1"
                [demoPlayer "p1" "India" 80 (204 # 1000)])).

(** The first player sold to the only team for 1.2. *)
Definition demoSold : Room :=
  after ([(1%Z, StartAuction (Some "u1")); (2%Z, PlaceBid (JNum (6 # 5)) "u1")]
         ++ repeat (3%Z, TimerTick) 10)
        (fst (createRoom 0 "A" (JNum 100) "u1" demoPool)).

(** The user who leaves the room in an event. *)
Definition leaver (ev : Event) : option string :=
  match ev with
  | LeaveRoom userId => Some userId
  | _ => None
  end.

(** The events whose handlers can close a round. *)
Definition sells (ev : Event) : bool :=
  match ev with
  | TimerTick | SkipForMe _ => true
  | _ => false
  end.

(** What one step does to the team map: [leave-room] deletes the team
    of the leaving user, every other event makes one [teamsChange]. *)
Definition teamsStep (ev : Event) (r r' : Room) : Prop :=
  match leaver ev with
  | Some userId => teams r' = deleteTeam userId (teams r)
  | None =>
      teamsChange (sells ev) (startingPurse r) (currentBid (auction r))
        (currentPlayer r) (teams r) (teams r')
  end.

(** A team that starts with 50 and pays 49.8 for its first player. *)
Definition demoEliminated : Room :=
  after ([(1%Z, StartAuction (Some "u1")); (2%Z, PlaceBid (JNum (498 # 10)) "u1")]
         ++ repeat (3%Z, TimerTick) 10)
        (fst (createRoom 0 "A" (JNum 50) "u1" demoPool)).

Definition phaseRank (p : Phase) : nat :=
  match p with
  | LOBBY => 0
  | AUCTION => 1
  | SELECTION => 2
  | RESULT => 3
  end.

(** The only team has bought the first two players for 1 each and the
    third round is open. *)
Definition demoTwoBought : Room :=
  after ([(1%Z, StartAuction (Some "u1")); (2%Z, PlaceBid (JNum 1) "u1")]
         ++ repeat (3%Z, TimerTick) 10
         ++ [(4%Z, NextPlayerTimeout); (5%Z, PlaceBid (JNum 1) "u1")]
         ++ repeat (6%Z, TimerTick) 10
         ++ [(7%Z, NextPlayerTimeout)])
        (fst (createRoom 0 "A" (JNum 100) "u1" demoPool)).

(** ** Lineups *)

(** [team.squad.filter(p => playerIds.includes(p.id))] *)
Definition selectedPlayers (team : Team) (playerIds : list string) : list SquadPlayer :=
  filter (fun p => includes (id (player p)) playerIds) (squad team).

(** The conditions under which [submit-playing-11] takes the lineup
    [playerIds] of [userId], whose team is [team]. *)
Definition lineupAcceptable (r : Room) (userId : string) (team : Team)
    (playerIds : list string) (cId vcId : string) (captain viceCaptain : SquadPlayer) :
    Prop :=
  getTeam userId (teams r) = Some team
  /\ List.length playerIds = Nat.min PLAYING_11_SIZE (List.length (squad team))
  /\ List.length (selectedPlayers team playerIds) = List.length playerIds
  /\ (overseasCount (selectedPlayers team playerIds) <= MAX_OVERSEAS_P11)%nat
  /\ findById cId (selectedPlayers team playerIds) = Some captain
  /\ findById vcId (selectedPlayers team playerIds) = Some viceCaptain
  /\ cId <> vcId.

(** The team after its lineup has been taken. *)
Definition lineupTaken (team : Team) (playerIds : list string) (cId vcId : string)
    (captain viceCaptain : SquadPlayer) : Team :=
  set_playing11 (Some (selectedPlayers team playerIds))
    (set_submitted11 true
       (set_totalScore
          (round100 (lineupScore (selectedPlayers team playerIds) cId vcId
                       captain viceCaptain))
          team)).

(** The score in the words of the specification: twice the captain,
    one and a half times the vice-captain, and for every other selected
    player the player's effective rating plus a leadership bonus of 0.10
    times the captain's and [k] times the vice-captain's. *)
Definition effective (p : SquadPlayer) : Q := inject_Z (getEffectiveRating p).

Definition leadershipBonus (k : Q) (captain viceCaptain : SquadPlayer) : Q :=
  (1 # 10) * effective captain + k * effective viceCaptain.

Definition remainingPlayers (selected : list SquadPlayer) (cId vcId : string) :
    list SquadPlayer :=
  filter (fun p => negb (id (player p) =? cId)%string
                   && negb (id (player p) =? vcId)%string) selected.

Definition sumQ (l : list Q) : Q := fold_right Qplus 0 l.

Definition specScore (k : Q) (selected : list SquadPlayer) (cId vcId : string)
    (captain viceCaptain : SquadPlayer) : Q :=
  2 * effective captain + (3 # 2) * effective viceCaptain
  + sumQ (map (fun p => effective p + leadershipBonus k captain viceCaptain)
              (remainingPlayers selected cId vcId)).

(** The placeholder player of an empty catalogue, bought for 0.25. *)
Definition errorPlayerSold : SquadPlayer :=
  mkSquadPlayer (mkPlayer "error_0" "Error: No Players" "N/A" "India" "Uncapped" 0 0)
                (1 # 4).

(** The only team has bought all three players for 1 each; the auction
    has ended and the room is in SELECTION. *)
Definition demoSelection : Room :=
  after ([(1%Z, StartAuction (Some "u1")); (2%Z, PlaceBid (JNum 1) "u1")]
         ++ repeat (3%Z, TimerTick) 10
         ++ [(4%Z, NextPlayerTimeout); (5%Z, PlaceBid (JNum 1) "u1")]
         ++ repeat (6%Z, TimerTick) 10
         ++ [(7%Z, NextPlayerTimeout); (8%Z, PlaceBid (JNum 1) "u1")]
         ++ repeat (9%Z, TimerTick) 10
         ++ [(10%Z, NextPlayerTimeout)])
        (fst (createRoom 0 "A" (JNum 100) "u1" demoPool)).

(** The team has handed in all three players, "p1" as captain and "p2"
    as vice-captain; the room is in RESULT. *)
Definition demoSubmitted : Room :=
  after [(11%Z, SubmitPlaying11 (Some ["p1"; "p2"; "p3"]) "p1" "p2" "u1")]
        demoSelection.

(** ** Closing a round *)

(** The steps that end a round, as both the countdown and the skip
    handler run them: sold when [currentBidderId] is truthy, unsold
    otherwise. *)
Definition closeRound (now : Z) (s : St) : outcome St :=
  if truthyId (currentBidderId (auction (fst s))) then finishBidding now s
  else Done (finishPlayerUnsold now s).

(** The room with the vote of [userId] recorded. *)
Definition voted (userId : string) (r : Room) : Room :=
  inAuction (fun a => set_skippedBy (setAdd userId (skippedBy a)) a) r.

(** The test that the skip handler makes once the vote is recorded. *)
Definition skipQuorum (r : Room) : bool :=
  (requiredSkips r <=? Z.of_nat (List.length (skippedBy (auction r))))%Z
  && (0 <? List.length (activeBidders r))%nat.

(** A user who may vote to skip: the round is open and the user's team
    is neither eliminated nor finished. *)
Definition mayVote (userId : string) (r : Room) : bool :=
  biddingOpen (auction r)
  && match getTeam userId (teams r) with
     | Some team => negb (isEliminated team || isFinishedBidding team)
     | None => false
     end.


(** A state with other seconds left and skip votes, and with [pre] sent
    before. *)
Definition reframe (v : Z) (l : list string) (pre : list Out) (s : St) : St :=
  (inAuction (fun a => set_timeLeft v (set_skippedBy l a)) (fst s), pre ++ snd s).


(** *** A room with a full squad *)

Definition playerNo (i : nat) : Player :=
  demoPlayer (String (Ascii.ascii_of_nat (65 + i)) "") "India" 80 (1 # 5).

(** One round: [userId] bids [bid], the countdown runs out, the pause
    ends. *)
Definition roundWonBy (userId : string) (bid : Q) : list (Z * Event) :=
  [(1%Z, PlaceBid (JNum bid) userId)] ++ repeat (2%Z, TimerTick) 10
  ++ [(3%Z, NextPlayerTimeout)].

(** Two teams; "u1" buys 25 players and "u2" two; while the 28th round is
    open both hand in a lineup, which ends the game, and "u2" leaves. *)
Definition fullSquadTrace : list (Z * Event) :=
  [(0%Z, JoinRoom "B" "u2"); (0%Z, StartAuction (Some "u1"))]
  ++ List.concat (repeat (roundWonBy "u1" (45 # 100)) 25)
  ++ List.concat (repeat (roundWonBy "u2" (45 # 100)) 2)
  ++ [(4%Z, SubmitPlaying11
              (Some (map (fun i => id (playerNo i)) (seq 0 11))) "A" "B" "u1");
      (5%Z, SubmitPlaying11 (Some [id (playerNo 25); id (playerNo 26)]) "Z" "[" "u2");
      (6%Z, LeaveRoom "u2")].

Definition fullSquadOpen : Room :=
  after fullSquadTrace
        (fst (createRoom 0 "A" (JNum 100) "u1" (map playerNo (seq 0 30)))).

(** Two teams, the first round open, and "u1" has voted to skip. *)
Definition demoOneVote : Room :=
  after [(0%Z, JoinRoom "B" "u2"); (1%Z, StartAuction (Some "u1"));
         (2%Z, SkipForMe "u1")]
        (fst (createRoom 0 "A" (JNum 100) "u1" demoPool)).

(** The first round has been open for three seconds. *)
Definition demoTicking : Room :=
  after ([(1%Z, StartAuction (Some "u1"))] ++ repeat (2%Z, TimerTick) 3)
        (fst (createRoom 0 "A" (JNum 100) "u1" demoPool)).

(** The properties of the [auction] object of a snapshot. *)
Definition auctionOf (j : json) : json :=
  match j with
  | JObject fs =>
      match field "auction" fs with
      | Some a => a
      | None => JNull
      end
  | _ => JNull
  end.

(** ** The invariant of a game *)

(** A team as [create-room] and [join-room] make it, whatever its
    purse. *)
Definition fresh (t : Team) : Prop :=
  squad t = [] /\ isEliminated t = false /\ isFinishedBidding t = false.

(** In the lobby no round has been opened and nothing has been bought. *)
Definition lobbyInv (r : Room) : Prop :=
  phase (auction r) = LOBBY ->
  closed (auction r) /\ Forall fresh (teamValues (teams r)).

(** During the auction a room that has teams has an active bidder. *)
Definition activeInv (r : Room) : Prop :=
  phase (auction r) = AUCTION -> teams r = [] \/ activeBidders r <> [].

Definition gameInv (r : Room) : Prop :=
  teamsInv r /\ lobbyInv r /\ activeInv r.

(** * The rest of the server *)

From Stdlib Require Import Ascii DecimalString DecimalNat Permutation Sorted Lqa.

(** ** Utilities *)

(** *** [sanitizeInput]

    A string is a sequence of code units; the model has the code units
    below 256, of which [trim] removes 9 to 13, 32 and 160. The argument
    is a value of the payload, [None] when the payload lacks the
    property. *)
Definition isWhiteSpace (c : ascii) : bool :=
  let n := nat_of_ascii c in
  ((9 <=? n) && (n <=? 13) || (n =? 32) || (n =? 160))%nat.

Fixpoint trimStart (l : list ascii) : list ascii :=
  match l with
  | c :: rest => if isWhiteSpace c then trimStart rest else l
  | [] => []
  end.

Definition trimEnd (l : list ascii) : list ascii := rev (trimStart (rev l)).

(** [str.trim()] *)
Definition trim (l : list ascii) : list ascii := trimEnd (trimStart l).

(** The class [[<>]] of the regular expression. *)
Definition isAngle (c : ascii) : bool := (c =? "<")%char || (c =? ">")%char.

Definition sanitizeInput (str : option json) (maxLength : nat) : string :=
  match str with
  | Some (JString s) =>
      if negb (truthy s) then ""
      else
        string_of_list_ascii
          (filter (fun c => negb (isAngle c))
                  (firstn maxLength (trim (list_ascii_of_string s))))
  | _ => ""
  end.

(** The strings that [sanitizeInput] returns as they are: no angle
    bracket, at most [maxLength] code units, no white space at either
    end. *)
Definition cleanInput (maxLength : nat) (s : string) : bool :=
  let l := list_ascii_of_string s in
  negb (existsb isAngle l)
  && (List.length l <=? maxLength)%nat
  && match l with c :: _ => negb (isWhiteSpace c) | [] => true end
  && match rev l with c :: _ => negb (isWhiteSpace c) | [] => true end.

(** *** [calculateWeightedRating]

    The skills are given as [parseInt] returns them, [None] for [NaN];
    [parseInt(x) || 0] turns [NaN] into 0. *)
Definition intOrZero (x : option Z) : Z :=
  match x with
  | Some z => z
  | None => 0%Z
  end.

Definition calculateWeightedRating (role : string) (bat bowl field : option Z) : Z :=
  let b := inject_Z (intOrZero bat) in
  let bo := inject_Z (intOrZero bowl) in
  let f := inject_Z (intOrZero field) in
  let rating :=
    if (role =? "Batsman")%string then b * (75 # 100) + f * (20 # 100) + bo * (5 # 100)
    else if (role =? "Bowler")%string then bo * (75 # 100) + f * (20 # 100) + b * (5 # 100)
    else if (role =? "All-Rounder")%string
    then b * (40 # 100) + bo * (40 # 100) + f * (20 # 100)
    else if (role =? "Wicketkeeper")%string
    then b * (30 # 100) + f * (50 # 100) + bo * (20 # 100)
    else (b + bo + f) / 3 in
  Qfloor (rating + (1 # 2)).

(** *** [loadPlayerDatabase]

    An entry of [players.json]: a property that the file may lack is an
    option. *)
Record RawPlayer : Type := mkRawPlayer {
  raw_id : option string;
  raw_name : string;
  raw_role : string;
  raw_country : option string;
  raw_status : option string;
  raw_bat : option Z;
  raw_bowl : option Z;
  raw_field : option Z;
  raw_basePrice : option Q
}.

(** [x || d] for a string property. *)
Definition stringOr (x : option string) (d : string) : string :=
  match x with
  | Some s => if truthy s then s else d
  | None => d
  end.

(** [x || d] for a number property. *)
Definition numberOr (x : option Q) (d : Q) : Q :=
  match x with
  | Some q => if Qeq_bool q 0 then d else q
  | None => d
  end.

(** The template literal [`player_${idx}`]. *)
Definition generatedId (idx : nat) : string :=
  "player_" ++ NilEmpty.string_of_uint (Nat.to_uint idx).

Definition playerOfRaw (idx : nat) (p : RawPlayer) : Player :=
  let weightedRating :=
    calculateWeightedRating (raw_role p) (raw_bat p) (raw_bowl p) (raw_field p) in
  mkPlayer (stringOr (raw_id p) (generatedId idx))
           (raw_name p)
           (raw_role p)
           (stringOr (raw_country p) "India")
           (stringOr (raw_status p) "Uncapped")
           weightedRating
           (numberOr (raw_basePrice p) (2 # 10)).

(** [players.map((p, idx) => ...)] *)
Fixpoint mapFrom {A B : Type} (f : nat -> A -> B) (idx : nat) (l : list A) : list B :=
  match l with
  | [] => []
  | x :: rest => f idx x :: mapFrom f (S idx) rest
  end.

(** [file] is the parsed content of [players.json], [None] when reading
    or parsing it throws. *)
Definition loadPlayerDatabase (file : option (list RawPlayer)) : list Player :=
  match file with
  | Some players => mapFrom playerOfRaw 0 players
  | None => []
  end.

(** *** [shuffleArray]

    [random k] is what the call number [k] of [Math.random()] returns, a
    number from 0 up to but not including 1. *)
Definition randomIndex (x : Q) (i : nat) : nat :=
  Z.to_nat (Qfloor (x * inject_Z (Z.of_nat (i + 1)))).

(** [arr[i] = v] on an index of the array. *)
Fixpoint setAt {A : Type} (i : nat) (v : A) (arr : list A) : list A :=
  match arr, i with
  | [], _ => []
  | _ :: rest, O => v :: rest
  | x :: rest, S i' => x :: setAt i' v rest
  end.

(** [[arr[i], arr[j]] = [arr[j], arr[i]]] on two indices of the array. *)
Definition swapAt {A : Type} (i j : nat) (arr : list A) : list A :=
  match nth_error arr i, nth_error arr j with
  | Some a, Some b => setAt j a (setAt i b arr)
  | _, _ => arr
  end.

(** The loop from [i] down to 1, [calls] draws having been made. *)
Fixpoint shuffleLoop {A : Type} (random : nat -> Q) (calls i : nat) (arr : list A) :
    list A :=
  match i with
  | O => arr
  | S i' =>
      let j := randomIndex (random calls) i in
      shuffleLoop random (S calls) i' (swapAt i j arr)
  end.

Definition shuffleArray {A : Type} (random : nat -> Q) (array : list A) : list A :=
  shuffleLoop random 0 (List.length array - 1) array.

(** The pool that [create-room] builds: the catalogue shuffled, or the
    placeholder when the catalogue is empty. *)
Definition initialPoolOf (random : nat -> Q) (file : option (list RawPlayer)) :
    list Player :=
  let initialPool := loadPlayerDatabase file in
  if (List.length initialPool =? 0)%nat then errorPool
  else shuffleArray random initialPool.

(** ** How a step changes the auction state *)

(** The auction after [endAuctionPhase]. *)
Definition ended (a : Auction) : Auction :=
  set_biddingOpen false (set_phase SELECTION (set_timer false a)).

(** The auction after [startNextPlayer] has put [p] on the block. *)
Definition opened (p : Player) (a : Auction) : Auction :=
  set_timer true
    (set_timer false
       (set_timeLeft 10
          (set_biddingOpen true
             (set_skippedBy []
                (set_currentBidderId None (set_currentBid (basePrice p) a)))))).

(** The auction after [startNextPlayer], in the auction phase. *)
Definition nextOf (a : Auction) : Auction :=
  match nth_error (playerPool a) (currentPlayerIndex a) with
  | Some p => opened p a
  | None => ended a
  end.

(** The auction after a bid of [amount] by [u] has been taken. *)
Definition bidOn (u : string) (amount : Q) (a : Auction) : Auction :=
  set_timer true
    (set_timer false
       (set_timeLeft 10
          (set_skippedBy []
             (set_currentBidderId (Some u) (set_currentBid (toFixed2 amount) a))))).

Definition votedBy (u : string) (a : Auction) : Auction :=
  set_skippedBy (setAdd u (skippedBy a)) a.

Definition ticked (a : Auction) : Auction := set_timeLeft (timeLeft a - 1)%Z a.

Definition advanced (a : Auction) : Auction :=
  set_currentPlayerIndex (S (currentPlayerIndex a)) a.

(** The auction after a round has been closed: outside the auction phase
    the round is only shut; in it the index moves on, unless the auction
    is [over] because no active bidder is left. *)
Definition closedOf (over : bool) (a : Auction) : Auction :=
  let a := set_biddingOpen false a in
  if Phase_eqb (phase a) AUCTION then
    if over then ended a else advanced a
  else a.

(** Every way in which a handler or a timer callback changes the
    auction state. *)
Inductive auctionChange (canBid : bool) (a : Auction) : Auction -> Prop :=
  | ac_same : auctionChange canBid a a
  | ac_ended : phase a = AUCTION -> auctionChange canBid a (ended a)
  | ac_started : phase a = LOBBY -> auctionChange canBid a (nextOf (set_phase AUCTION a))
  | ac_next : phase a = AUCTION -> auctionChange canBid a (nextOf a)
  | ac_bid u amount :
      biddingOpen a = true -> canBid = true -> auctionChange canBid a (bidOn u amount a)
  | ac_vote u : biddingOpen a = true -> auctionChange canBid a (votedBy u a)
  | ac_tick :
      timer a = true -> (0 < timeLeft a - 1)%Z -> auctionChange canBid a (ticked a)
  | ac_skipped u over :
      biddingOpen a = true ->
      auctionChange canBid a (closedOf over (set_timer false (votedBy u a)))
  | ac_expired over :
      timer a = true -> (timeLeft a - 1 <= 0)%Z ->
      auctionChange canBid a (closedOf over (set_timer false (ticked a)))
  | ac_result : auctionChange canBid a (set_phase RESULT a).

(** The events whose handler can take a bid. *)
Definition bids (ev : Event) : bool :=
  match ev with
  | PlaceBid _ _ => true
  | _ => false
  end.

(** A sale: the leader [u], whose team is [team], gets the player [p] on
    the block for the current bid. *)
Definition saleOf (r : Room) (u : string) (team : Team) (p : Player) : Prop :=
  currentBidderId (auction r) = Some u
  /\ getTeam u (teams r) = Some team
  /\ currentPlayer r = Some p
  /\ currentBid (auction r) <= purse team
  /\ (List.length (squad team) < MAX_SQUAD_SIZE)%nat.

Definition afterSale (r : Room) (u : string) (team : Team) (p : Player) : TeamMap :=
  checkAll (putTeam u (soldTo team p (currentBid (auction r))) (teams r)).

(** What one step does to the teams: a team leaves, or the team map
    changes without a sale, or a round is closed with a sale. *)
Definition teamsMove (ev : Event) (r r' : Room) : Prop :=
  teamsStep ev r r' /\ sells ev = false
  \/ (sells ev = true /\ (teams r' = teams r \/ teams r' = checkAll (teams r)))
  \/ (sells ev = true
      /\ biddingOpen (auction r) = true
      /\ exists u team p over a0,
           saleOf r u team p
           /\ teams r' = afterSale r u team p
           /\ auction r' = closedOf over a0
           /\ currentPlayerIndex a0 = currentPlayerIndex (auction r)
           /\ phase a0 = phase (auction r)
           /\ timer a0 = false).

(** ** The invariant of the auction state *)

(** The seconds left stay between 0 and 10, and a running countdown has
    at least one second left. *)
Definition clockOk (a : Auction) : Prop :=
  (0 <= timeLeft a <= 10)%Z /\ (timer a = true -> (1 <= timeLeft a)%Z).

(** A leading bid is a whole number of hundredths. *)
Definition bidOk (a : Auction) : Prop :=
  currentBidderId a <> None -> isCents (currentBid a).

(** The index never passes the end of the pool. *)
Definition indexOk (a : Auction) : Prop :=
  (currentPlayerIndex a <= List.length (playerPool a))%nat.

(** In the lobby and in the selection phase no round is open and no
    countdown runs. *)
Definition quiet (a : Auction) : Prop :=
  phase a = LOBBY \/ phase a = SELECTION -> closed a.

(** The skip votes hold no user twice. *)
Definition skipOk (a : Auction) : Prop := NoDup (skippedBy a).

(** In the lobby the first player of the pool is next. *)
Definition lobbyOk (a : Auction) : Prop :=
  phase a = LOBBY -> currentPlayerIndex a = 0%nat.

Definition auctionInv (a : Auction) : Prop :=
  roundOk a /\ clockOk a /\ bidOk a /\ indexOk a /\ quiet a /\ skipOk a /\ lobbyOk a.

(** ** The invariant of the squads *)

(** What a team has spent. *)
Definition spent (t : Team) : Q := sumQ (map soldPrice (squad t)).

(** The squad limits. *)
Definition squadOk (t : Team) : Prop :=
  (List.length (squad t) <= MAX_SQUAD_SIZE)%nat
  /\ (overseasCount (squad t) <= MAX_OVERSEAS_SQUAD)%nat.

(** The purse and the prices paid add up to the starting purse [sp]. *)
Definition moneyOk (sp : Q) (t : Team) : Prop :=
  isCents (purse t) /\ purse t + spent t == sp.

(** While a round is open on an overseas player, the leader's team has
    room for one. *)
Definition leaderOk (r : Room) : Prop :=
  biddingOpen (auction r) = true ->
  forall u team p,
    currentBidderId (auction r) = Some u ->
    getTeam u (teams r) = Some team ->
    currentPlayer r = Some p ->
    isOverseas p = true ->
    (overseasCount (squad team) < MAX_OVERSEAS_SQUAD)%nat.

(** The players that the teams of a room hold, team by team. *)
Definition boughtOf (ts : TeamMap) : list Player :=
  flat_map (fun t => map player (squad t)) (teamValues ts).

Definition bought (r : Room) : list Player := boughtOf (teams r).

(** Every player held was on the block in an earlier round, or in the
    last round of a game that is past its auction. *)
Definition soldOk (r : Room) : Prop :=
  forall p, In p (bought r) ->
    exists i,
      nth_error (playerPool (auction r)) i = Some p
      /\ ((i < currentPlayerIndex (auction r))%nat
          \/ (i = currentPlayerIndex (auction r)
              /\ closed (auction r)
              /\ (2 <= phaseRank (phase (auction r)))%nat)).

(** With distinct ids in the pool no id is held twice. *)
Definition distinctOk (r : Room) : Prop :=
  NoDup (map id (playerPool (auction r))) -> NoDup (map id (bought r)).

Definition marketInv (r : Room) : Prop :=
  teamsInv r
  /\ auctionInv (auction r)
  /\ Forall squadOk (teamValues (teams r))
  /\ leaderOk r
  /\ soldOk r
  /\ distinctOk r
  /\ (isCents (startingPurse r) ->
      Forall (moneyOk (startingPurse r)) (teamValues (teams r))).

(** ** The auction state machine, event by event *)

(** What the handler of [ev] does to the auction state. *)
Definition auctionStep (ev : Event) (a a' : Auction) : Prop :=
  match ev with
  | RejoinGame _ | JoinRoom _ _ => a' = a
  | LeaveRoom _ | FinishBiddingForMe _ =>
      a' = a \/ (phase a = AUCTION /\ a' = ended a)
  | StartAuction _ =>
      a' = a \/ (phase a = LOBBY /\ a' = nextOf (set_phase AUCTION a))
  | PlaceBid bidAmount u =>
      a' = a
      \/ exists amount,
           bidAmount = JNum amount /\ biddingOpen a = true /\ a' = bidOn u amount a
  | SkipForMe u =>
      a' = a
      \/ (biddingOpen a = true
          /\ (a' = votedBy u a
              \/ exists over, a' = closedOf over (set_timer false (votedBy u a))))
  | SubmitPlaying11 _ _ _ _ => a' = a \/ a' = set_phase RESULT a
  | TimerTick =>
      if (timeLeft a - 1 <=? 0)%Z
      then exists over, a' = closedOf over (set_timer false (ticked a))
      else a' = ticked a
  | NextPlayerTimeout =>
      a' = if Phase_eqb (phase a) AUCTION then nextOf a else a
  end.

(** What a function leaves of the room itself: the host, the activity
    stamp but for a refresh at [now], and the pause between two rounds,
    which only [pause] functions start. *)
Definition roomFrame (now : Z) (pause : bool) (s s' : St) : Prop :=
  hostId (fst s') = hostId (fst s)
  /\ (lastActivity (fst s') = lastActivity (fst s) \/ lastActivity (fst s') = now)
  /\ (nextPlayerTimeout (fst s') = nextPlayerTimeout (fst s)
      \/ (pause = true /\ nextPlayerTimeout (fst s') = true)).

(** The pause between two rounds is pending only while no round is open
    and no countdown runs. *)
Definition pauseOk (r : Room) : Prop :=
  nextPlayerTimeout r = true -> closed (auction r) /\ phase (auction r) <> LOBBY.

(** The host is one of the teams. *)
Definition hostOk (r : Room) : Prop := getTeam (hostId r) (teams r) <> None.

(** ** Rankings *)

(** Highest score first. *)
Definition scoreOrder (a b : Team) : Prop := totalScore b <= totalScore a.

(** During the auction exactly one of the two timers of the room is
    pending: the countdown of an open round, or the pause before the
    next round. *)
Definition progressOk (r : Room) : Prop :=
  phase (auction r) = AUCTION ->
  (biddingOpen (auction r) = true /\ timer (auction r) = true
   /\ nextPlayerTimeout r = false)
  \/ (biddingOpen (auction r) = false /\ timer (auction r) = false
      /\ nextPlayerTimeout r = true).

(** ** User ids as property names

    [room.teams] is an object, and a user id is one of its property
    names. Two kinds of names make the object differ from the
    association list of the model; the properties that depend on the
    difference exclude them by a hypothesis. *)

(** The properties that every object inherits from [Object.prototype]:
    [teams[k]] finds one of them, a truthy value without a squad, when
    the room has no team under [k]. *)
Definition inheritedKeys : list string :=
  ["constructor"; "__proto__"; "hasOwnProperty"; "isPrototypeOf";
   "propertyIsEnumerable"; "toLocaleString"; "toString"; "valueOf";
   "__defineGetter__"; "__defineSetter__"; "__lookupGetter__"; "__lookupSetter__"].

Definition inherited (k : string) : bool :=
  existsb (fun x => (x =? k)%string) inheritedKeys.

Definition isDigit (c : ascii) : bool :=
  let n := nat_of_ascii c in
  ((48 <=? n) && (n <=? 57))%nat.

(** A string of decimal digits. The array indices are among them, and
    [Object.keys] and [Object.values] list those in ascending order
    before every other key, whenever they were added. *)
Definition digitsOnly (k : string) : bool :=
  negb (k =? "")%string && forallb isDigit (list_ascii_of_string k).

(** A user id on which the object and the association list agree. *)
Definition plainId (u : string) : bool := negb (inherited u) && negb (digitsOnly u).




(** ** A room after a restart *)

(** The room that [loadGameData] makes of the snapshot of [r]: both
    handles are [null]. *)
Definition reloaded (r : Room) : Room :=
  set_nextPlayerTimeout false (inAuction (set_timer false) r).

(** No round is open, neither timer is pending and the lobby is past. *)
Definition halted (r : Room) : Prop :=
  closed (auction r) /\ nextPlayerTimeout r = false /\ phase (auction r) <> LOBBY.

(** ** Data used in examples *)

(** Three entries of a catalogue: the first with no id, no country, no
    status and no base price; the second complete; the third with the
    empty string as id and skills that are not numbers. *)
Definition demoRaw : list RawPlayer :=
  [mkRawPlayer None "Rohit" "Batsman" None None (Some 90%Z) (Some 20%Z) (Some 70%Z) None;
   mkRawPlayer (Some "p7") "Rashid" "Bowler" (Some "Overseas") (Some "Capped")
               (Some 30%Z) (Some 95%Z) (Some 80%Z) (Some (2 # 1));
   mkRawPlayer (Some "") "Nobody" "Umpire" (Some "") None None None None (Some 0)].

(** A catalogue without ids. *)
Definition demoAnonymous : list RawPlayer :=
  map (fun n => mkRawPlayer None n "Batsman" None None (Some 50%Z) None None None)
      ["a"; "b"; "c"; "d"].

(** Draws of [Math.random()]: 0.9, 0.1, 0.5, 0.5, ... *)
Definition demoRandom (k : nat) : Q :=
  match k with
  | O => 9 # 10
  | S O => 1 # 10
  | _ => 1 # 2
  end.

(** * Properties *)

(** ** Rational comparisons and rounding *)

Lemma Qlt_bool_true (x y : Q) : Qlt_bool x y = true <-> x < y.
Proof.
  unfold Qlt_bool. rewrite negb_true_iff. split; intro H.
  - apply Qnot_le_lt. intro C. apply Qle_bool_iff in C. congruence.
  - destruct (Qle_bool y x) eqn:E; trivial.
    apply Qle_bool_iff in E. exfalso. exact (Qlt_not_le _ _ H E).
Qed.

Lemma Qlt_bool_false (x y : Q) : Qlt_bool x y = false <-> y <= x.
Proof.
  unfold Qlt_bool. rewrite negb_false_iff. apply Qle_bool_iff.
Qed.

Lemma Qle_bool_false (x y : Q) : Qle_bool x y = false <-> y < x.
Proof.
  rewrite <- Qlt_bool_true. unfold Qlt_bool.
  destruct (Qle_bool x y); simpl; split; congruence.
Qed.

Lemma half_up_floor (k : Z) : Qfloor ((k # 100) * 100 + (1 # 2)) = k.
Proof.
  assert (E : (k # 100) * 100 + (1 # 2) == (2 * k + 1 # 2)).
  { unfold Qeq, Qmult, Qplus. cbn -[Z.mul Z.add]. lia. }
  rewrite E. unfold Qfloor.
  symmetry. apply (Z.div_unique_pos _ _ k 1); lia.
Qed.

Lemma Qmake_le_100 (a b : Z) : (a <= b)%Z -> a # 100 <= b # 100.
Proof. intro H. unfold Qle. simpl. lia. Qed.

Lemma Qmake_nonneg_100 (a : Z) : (0 <= a)%Z -> 0 <= a # 100.
Proof. intro H. unfold Qle. simpl. lia. Qed.

Lemma Qmake_nonpos_100 (a : Z) : (a <= 0)%Z -> a # 100 <= 0.
Proof. intro H. unfold Qle. simpl. lia. Qed.

Lemma Qmake_opp_100 (a : Z) : - (a # 100) == (- a) # 100.
Proof. reflexivity. Qed.

Lemma round_arg_le (x y : Q) : x <= y -> x * 100 + (1 # 2) <= y * 100 + (1 # 2).
Proof.
  intro H. apply Qplus_le_compat; [ | apply Qle_refl ].
  apply Qmult_le_compat_r; [ exact H | discriminate ].
Qed.

Lemma half_up_nonneg (x : Q) : 0 <= x -> (0 <= Qfloor (x * 100 + (1 # 2)))%Z.
Proof.
  intro H. change 0%Z with (Qfloor 0). apply Qfloor_resp_le.
  apply Qle_trans with (0 * 100 + (1 # 2)); [ discriminate | ].
  apply round_arg_le, H.
Qed.

Lemma toFixed2_nonneg (x : Q) : 0 <= x -> 0 <= toFixed2 x.
Proof.
  intro H. unfold toFixed2.
  destruct (Qle_bool 0 x) eqn:E.
  - apply Qmake_nonneg_100, half_up_nonneg, H.
  - apply Qle_bool_false in E. exfalso. exact (Qlt_not_le _ _ E H).
Qed.

Lemma toFixed2_nonpos (x : Q) : x < 0 -> toFixed2 x <= 0.
Proof.
  intro H. unfold toFixed2.
  destruct (Qle_bool 0 x) eqn:E.
  - apply Qle_bool_iff in E. exfalso. exact (Qlt_not_le _ _ H E).
  - rewrite Qmake_opp_100. apply Qmake_nonpos_100.
    assert (0 <= Qfloor (- x * 100 + (1 # 2)))%Z; [ | lia ].
    apply half_up_nonneg.
    apply (Qopp_le_compat x 0), Qlt_le_weak, H.
Qed.

Lemma toFixed2_mono (x y : Q) : x <= y -> toFixed2 x <= toFixed2 y.
Proof.
  intro H.
  destruct (Qlt_le_dec x 0) as [Hx | Hx]; destruct (Qlt_le_dec y 0) as [Hy | Hy].
  - unfold toFixed2.
    apply Qle_bool_false in Hx as Ex. apply Qle_bool_false in Hy as Ey.
    rewrite Ex, Ey. rewrite !Qmake_opp_100. apply Qmake_le_100.
    apply Z.opp_le_mono. rewrite !Z.opp_involutive.
    apply Qfloor_resp_le, round_arg_le, Qopp_le_compat, H.
  - apply Qle_trans with 0; [ apply toFixed2_nonpos, Hx | apply toFixed2_nonneg, Hy ].
  - exfalso. apply (Qlt_not_le _ _ Hy). apply Qle_trans with x; assumption.
  - unfold toFixed2.
    apply Qle_bool_iff in Hx as Ex. apply Qle_bool_iff in Hy as Ey.
    rewrite Ex, Ey. apply Qmake_le_100, Qfloor_resp_le, round_arg_le, H.
Qed.

Lemma toFixed2_comp (x y : Q) : x == y -> toFixed2 x = toFixed2 y.
Proof.
  intro H. unfold toFixed2.
  assert (Qle_bool 0 x = Qle_bool 0 y) as ->.
  { destruct (Qle_bool 0 x) eqn:E1, (Qle_bool 0 y) eqn:E2; trivial.
    - apply Qle_bool_iff in E1. rewrite H in E1. apply Qle_bool_iff in E1. congruence.
    - apply Qle_bool_iff in E2. rewrite <- H in E2. apply Qle_bool_iff in E2. congruence. }
  assert (E : Qfloor (x * 100 + (1 # 2)) = Qfloor (y * 100 + (1 # 2))).
  { apply Qfloor_comp. rewrite H. reflexivity. }
  assert (E' : Qfloor (- x * 100 + (1 # 2)) = Qfloor (- y * 100 + (1 # 2))).
  { apply Qfloor_comp. rewrite H. reflexivity. }
  rewrite E, E'. reflexivity.
Qed.

Lemma toFixed2_cents (k : Z) : toFixed2 (k # 100) == k # 100.
Proof.
  unfold toFixed2. destruct (Qle_bool 0 (k # 100)) eqn:E.
  - rewrite half_up_floor. reflexivity.
  - assert (Ek : - (k # 100) = (- k) # 100) by reflexivity.
    rewrite Ek, half_up_floor. rewrite Qmake_opp_100, Z.opp_involutive. reflexivity.
Qed.

Lemma toFixed2_isCents (x : Q) : isCents (toFixed2 x).
Proof.
  unfold toFixed2. destruct (Qle_bool 0 x).
  - eexists. reflexivity.
  - eexists. apply Qmake_opp_100.
Qed.

(** Rounding to hundredths cannot cross a whole number of hundredths. *)
Lemma toFixed2_ge_cents (c x : Q) : isCents c -> c <= x -> c <= toFixed2 x.
Proof.
  intros [k Hk] H. rewrite Hk, <- (toFixed2_cents k).
  rewrite <- (toFixed2_comp c (k # 100) Hk). apply toFixed2_mono, H.
Qed.


Lemma isCents_plus_increment (x : Q) : isCents x -> isCents (x + BID_INCREMENT).
Proof.
  intros [k Hk]. exists (k + 25)%Z. rewrite Hk. unfold BID_INCREMENT, Qeq, Qplus. cbn -[Z.mul Z.add]. lia.
Qed.

(** ** The team map *)

Lemma getTeam_putTeam (uid uid' : string) (t : Team) (ts : TeamMap) :
  getTeam uid' (putTeam uid t ts)
  = if (uid =? uid')%string then Some t else getTeam uid' ts.
Proof.
  induction ts as [ | [k t0] rest IH ]; simpl.
  - destruct (uid =? uid')%string; reflexivity.
  - destruct (k =? uid)%string eqn:Ek; simpl.
    + apply String.eqb_eq in Ek. subst k.
      destruct (uid =? uid')%string; reflexivity.
    + destruct (k =? uid')%string eqn:Ek'; [ | exact IH ].
      apply String.eqb_eq in Ek'. subst k.
      rewrite String.eqb_sym, Ek. reflexivity.
Qed.

Lemma getTeam_deleteTeam (uid uid' : string) (ts : TeamMap) :
  getTeam uid' (deleteTeam uid ts)
  = if (uid =? uid')%string then None else getTeam uid' ts.
Proof.
  unfold deleteTeam.
  induction ts as [ | [k t0] rest IH ]; simpl.
  - destruct (uid =? uid')%string; reflexivity.
  - destruct (k =? uid)%string eqn:Ek; simpl.
    + apply String.eqb_eq in Ek. subst k. rewrite IH.
      destruct (uid =? uid')%string; reflexivity.
    + rewrite IH. destruct (k =? uid')%string eqn:Ek'; [ | reflexivity ].
      apply String.eqb_eq in Ek'. subst k.
      rewrite String.eqb_sym, Ek. reflexivity.
Qed.

Lemma getTeam_map (f : Team -> Team) (uid : string) (ts : TeamMap) :
  getTeam uid (map (fun kt => (fst kt, f (snd kt))) ts)
  = option_map f (getTeam uid ts).
Proof.
  induction ts as [ | [k t0] rest IH ]; simpl; [ reflexivity | ].
  destruct (k =? uid)%string; [ reflexivity | exact IH ].
Qed.

Lemma getTeam_In (uid : string) (t : Team) (ts : TeamMap) :
  getTeam uid ts = Some t -> In t (teamValues ts).
Proof.
  induction ts as [ | [k t0] rest IH ]; simpl; [ discriminate | ].
  destruct (k =? uid)%string.
  - intros [= ->]. left. reflexivity.
  - intro H. right. exact (IH H).
Qed.

Lemma In_getTeam (t : Team) (ts : TeamMap) :
  NoDup (teamKeys ts) -> In t (teamValues ts) ->
  exists uid, getTeam uid ts = Some t.
Proof.
  induction ts as [ | [k t0] rest IH ]; simpl; [ intros _ [] | ].
  intros Hnd [-> | Hin].
  - exists k. rewrite String.eqb_refl. reflexivity.
  - inversion Hnd as [ | ? ? Hk Hrest ]; subst.
    destruct (IH Hrest Hin) as [uid Hu]. exists uid.
    destruct (k =? uid)%string eqn:Ek; [ | exact Hu ].
    apply String.eqb_eq in Ek. subst uid. exfalso. apply Hk.
    clear - Hu. induction rest as [ | [k' t'] rest IH ]; simpl in *; [ discriminate | ].
    destruct (k' =? k)%string eqn:E.
    + left. apply String.eqb_eq, E.
    + right. exact (IH Hu).
Qed.

Section TeamProperty.
Variable P : Team -> Prop.

Lemma Forall_putTeam (uid : string) (t : Team) (ts : TeamMap) :
  P t -> Forall P (teamValues ts) -> Forall P (teamValues (putTeam uid t ts)).
Proof.
  intros Ht. induction ts as [ | [k t0] rest IH ]; simpl; intro H.
  - constructor; [ exact Ht | constructor ].
  - inversion H; subst. destruct (k =? uid)%string; simpl.
    + constructor; assumption.
    + constructor; [ assumption | apply IH; assumption ].
Qed.

Lemma Forall_deleteTeam (uid : string) (ts : TeamMap) :
  Forall P (teamValues ts) -> Forall P (teamValues (deleteTeam uid ts)).
Proof.
  unfold deleteTeam. induction ts as [ | [k t0] rest IH ]; simpl; intro H.
  - constructor.
  - inversion H; subst. destruct (negb (k =? uid)%string); simpl.
    + constructor; [ assumption | apply IH; assumption ].
    + apply IH; assumption.
Qed.

Lemma Forall_mapTeams (f : Team -> Team) (ts : TeamMap) :
  (forall t, P t -> P (f t)) ->
  Forall P (teamValues ts) ->
  Forall P (teamValues (map (fun kt => (fst kt, f (snd kt))) ts)).
Proof.
  intro Hf. induction ts as [ | [k t0] rest IH ]; simpl; intro H.
  - constructor.
  - inversion H; subst. constructor; [ apply Hf; assumption | apply IH; assumption ].
Qed.

Lemma Forall_getTeam (uid : string) (t : Team) (ts : TeamMap) :
  Forall P (teamValues ts) -> getTeam uid ts = Some t -> P t.
Proof.
  intros H Hg. rewrite Forall_forall in H. apply H. exact (getTeam_In _ _ _ Hg).
Qed.
End TeamProperty.

Lemma teamKeys_putTeam_NoDup (uid : string) (t : Team) (ts : TeamMap) :
  NoDup (teamKeys ts) -> NoDup (teamKeys (putTeam uid t ts)).
Proof.
  induction ts as [ | [k t0] rest IH ]; simpl; intro H.
  - constructor; [ intros [] | constructor ].
  - inversion H as [ | ? ? Hk Hrest ]; subst.
    destruct (k =? uid)%string eqn:Ek; simpl.
    + constructor; assumption.
    + constructor; [ | apply IH; assumption ].
      intro Hin. apply Hk. clear - Hin Ek.
      induction rest as [ | [k' t'] rest IH ]; simpl in *.
      * destruct Hin as [-> | []]. rewrite String.eqb_refl in Ek. discriminate.
      * destruct (k' =? uid)%string; simpl in Hin.
        -- exact Hin.
        -- destruct Hin as [-> | Hin]; [ left; reflexivity | right; exact (IH Hin) ].
Qed.

(** ** Bidding *)

Ltac case_guard H :=
  match type of H with
  | context [match ?x with _ => _ end] =>
      match x with
      | context [match _ with _ => _ end] => fail 1
      | _ => destruct x eqn:?
      end
  end.

Lemma placeBid_inv (now : Z) (bidAmount : jsnum) (userId : string) (r r' : Room)
    (out : list Out) :
  handle now (PlaceBid bidAmount userId) r = Live r' out ->
  (r' = r /\ out = [])
  \/ exists team amount p,
       bidAmount = JNum amount
       /\ bidAcceptable r userId team amount p
       /\ r' = bidTaken now r userId amount
       /\ out = [ToRoom (BidUpdated (toFixed2 amount) userId (team_name team))].
Proof.
  unfold handle, placeBid. cbn [fst snd]. intro H.
  repeat case_guard H; cbn in H; try discriminate;
    try (injection H as <- <-; left; split; reflexivity).
  right. injection H as <- <-.
  match goal with
  | Ht : getTeam _ _ = Some ?t, Hp : currentPlayer _ = Some ?p |- _ =>
      exists t, q, p
  end.
  repeat match goal with
         | E : negb _ = false |- _ => apply negb_false_iff in E
         | E : (_ || _)%bool = false |- _ => apply orb_false_iff in E; destruct E
         | E : (_ && _)%bool = false |- _ => apply andb_false_iff in E
         end.
  unfold jlt, jgt in *.
  repeat match goal with
         | E : Qlt_bool _ _ = false |- _ => apply Qlt_bool_false in E
         | E : (_ <=? _)%nat = false |- _ => apply Nat.leb_gt in E
         end.
  split; [ reflexivity | ].
  split; [ | split; reflexivity ].
  unfold bidAcceptable. repeat split; try assumption.
  intro Ho.
  match goal with
  | E : _ \/ _ |- _ => destruct E as [E | E]; [ congruence | apply Nat.leb_gt in E; exact E ]
  end.
Qed.


(** A bid that is not a finite number is never taken. *)
Lemma placeBid_not_finite (now : Z) (bidAmount : jsnum) (userId : string) (r : Room) :
  (forall q, bidAmount <> JNum q) ->
  handle now (PlaceBid bidAmount userId) r = Live r [].
Proof.
  intro Hn. unfold handle, placeBid. cbn [fst snd].
  destruct (negb (biddingOpen (auction r))); [ reflexivity | ].
  destruct (getTeam userId (teams r)); [ | reflexivity ].
  destruct (isEliminated t || isFinishedBidding t)%bool; [ reflexivity | ].
  destruct (MAX_SQUAD_SIZE <=? List.length (squad t))%nat; [ reflexivity | ].
  destruct bidAmount; [ exfalso; exact (Hn q eq_refl) | | | ];
    cbn; reflexivity.
Qed.

(** ** How the handlers change the team map *)

(** Destructs the guards met in the goal, outermost first. *)
Ltac case_goal :=
  match goal with
  | |- context [if ?b then _ else _] =>
      match b with
      | context [if _ then _ else _] => fail 1
      | context [match _ with _ => _ end] => fail 1
      | _ => destruct b eqn:?
      end
  | |- context [match ?x with _ => _ end] =>
      match x with
      | context [if _ then _ else _] => fail 1
      | context [match _ with _ => _ end] => fail 1
      | _ => destruct x eqn:?
      end
  end.

Ltac frame_step :=
  first [ split; reflexivity | case_goal; cbn [fst snd] ].

Lemma updateRoomActivity_sameTeams now : sameTeams (updateRoomActivity now).
Proof. intro s. split; reflexivity. Qed.

Lemma endAuctionPhase_sameTeams now : sameTeams (endAuctionPhase now).
Proof. intro s. split; reflexivity. Qed.

Lemma checkAuctionCompletion_sameTeams now : sameTeams (checkAuctionCompletion now).
Proof. intro s. unfold checkAuctionCompletion. repeat frame_step. Qed.

Lemma calculateWinner_sameTeams now : sameTeams (calculateWinner now).
Proof. intro s. split; reflexivity. Qed.

Lemma emitResults_sameTeams : sameTeams emitResults.
Proof. intro s. unfold emitResults. repeat frame_step. Qed.

Lemma startAuctionTimer_sameTeams : sameTeams startAuctionTimer.
Proof. intro s. split; reflexivity. Qed.

Lemma startNextPlayer_sameTeams now : sameTeams (startNextPlayer now).
Proof. intro s. unfold startNextPlayer. repeat frame_step. Qed.

Lemma nextPlayerTimeoutFired_sameTeams now : sameTeams (nextPlayerTimeoutFired now).
Proof.
  intro s. unfold nextPlayerTimeoutFired. case_goal; [ | split; reflexivity ].
  apply (startNextPlayer_sameTeams now (upd (set_nextPlayerTimeout false) s)).
Qed.

Lemma replayState_sameTeams b : sameTeams (replayState b).
Proof.
  intro s. unfold replayState.
  repeat first [ split; reflexivity | apply emitResults_sameTeams
               | case_goal; cbn [fst snd] ].
Qed.

Lemma rejoinGame_sameTeams now userId : sameTeams (rejoinGame now userId).
Proof.
  intro s. unfold rejoinGame. case_goal; [ | split; reflexivity ].
  unfold updateRoomActivity. cbn [upd fst snd set_lastActivity teams startingPurse].
  match goal with
  | |- context [replayState true ?x] =>
      destruct (replayState_sameTeams true x) as [-> ->]
  end.
  split; reflexivity.
Qed.

Lemma startAuction_sameTeams now caller : sameTeams (startAuction now caller).
Proof.
  intro s. unfold startAuction.
  repeat first [ split; reflexivity | case_goal; cbn [fst snd] ].
  match goal with
  | |- context [startNextPlayer now ?x] =>
      destruct (startNextPlayer_sameTeams now x) as [-> ->]
  end.
  split; reflexivity.
Qed.

Lemma checkTeam_purse (t : Team) : purse (checkTeam t) = purse t.
Proof. unfold checkTeam. destruct (eliminationDue t); reflexivity. Qed.

Lemma checkTeam_squad (t : Team) : squad (checkTeam t) = squad t.
Proof. unfold checkTeam. destruct (eliminationDue t); reflexivity. Qed.

Lemma checkTeam_due (t : Team) : eliminationDue (checkTeam t) = eliminationDue t.
Proof. unfold checkTeam. destruct (eliminationDue t) eqn:E; exact E. Qed.

Lemma checkTeam_isEliminated (t : Team) :
  isEliminated (checkTeam t) = (isEliminated t || eliminationDue t)%bool.
Proof.
  unfold checkTeam. destruct (eliminationDue t); cbn.
  - rewrite orb_true_r. reflexivity.
  - rewrite orb_false_r. reflexivity.
Qed.

Lemma checkTeam_idem (t : Team) : checkTeam (checkTeam t) = checkTeam t.
Proof.
  unfold checkTeam at 1. rewrite checkTeam_due.
  destruct (eliminationDue t) eqn:E; [ | reflexivity ].
  unfold checkTeam. rewrite E. reflexivity.
Qed.

Lemma checkAll_idem (ts : TeamMap) : checkAll (checkAll ts) = checkAll ts.
Proof.
  unfold checkAll. rewrite map_map. apply map_ext. intros [k t]. cbn.
  rewrite checkTeam_idem. reflexivity.
Qed.

Lemma sameTeams_changed (canSell : bool) (f : St -> St) (s : St) :
  sameTeams f -> teamsChanged canSell s (f s).
Proof.
  intro H. unfold teamsChanged. destruct (H s) as [-> ->].
  split; [ apply tc_same | reflexivity ].
Qed.

Lemma prepareNext_teams now s :
  teams (fst (prepareNext now s)) = teams (fst s)
  \/ teams (fst (prepareNext now s)) = checkAll (teams (fst s)).
Proof.
  unfold prepareNext. case_goal; [ left | right ]; reflexivity.
Qed.

Lemma prepareNext_startingPurse now s :
  startingPurse (fst (prepareNext now s)) = startingPurse (fst s).
Proof. unfold prepareNext. case_goal; reflexivity. Qed.

Lemma finishPlayerUnsold_changed canSell now s s0 :
  teams (fst s) = teams (fst s0) ->
  startingPurse (fst s) = startingPurse (fst s0) ->
  teamsChanged canSell s0 (finishPlayerUnsold now s).
Proof.
  intros Et Es. unfold teamsChanged, finishPlayerUnsold.
  rewrite prepareNext_startingPurse. cbn [emit upd fst snd inAuction set_auction startingPurse].
  split; [ | exact Es ].
  match goal with
  | |- context [prepareNext now ?x] => destruct (prepareNext_teams now x) as [-> | ->]
  end; cbn [emit upd fst snd inAuction set_auction teams]; rewrite Et;
    [ apply tc_same | apply tc_check ].
Qed.

Lemma finishBidding_changed now s s' s0 :
  finishBidding now s = Done s' ->
  teams (fst s) = teams (fst s0) ->
  startingPurse (fst s) = startingPurse (fst s0) ->
  currentBid (auction (fst s)) = currentBid (auction (fst s0)) ->
  currentPlayer (fst s) = currentPlayer (fst s0) ->
  teamsChanged true s0 s'.
Proof.
  intros H Et Es Eb Ep.
  assert (Hu : teamsChanged true s0
                 (finishPlayerUnsold now (upd (inAuction (set_biddingOpen false)) s))).
  { apply finishPlayerUnsold_changed; assumption. }
  unfold finishBidding in H. cbn [fst snd upd] in H.
  change (teams (inAuction (set_biddingOpen false) (fst s))) with (teams (fst s)) in H.
  change (currentPlayer (inAuction (set_biddingOpen false) (fst s)))
    with (currentPlayer (fst s)) in H.
  change (currentBid (auction (inAuction (set_biddingOpen false) (fst s))))
    with (currentBid (auction (fst s))) in H.
  destruct (getTeam _ (teams (fst s))) as [team | ] eqn:Eg.
  - destruct (Qlt_bool (purse team) _) eqn:Eq; [ injection H as <-; exact Hu | ].
    destruct (MAX_SQUAD_SIZE <=? List.length (squad team))%nat eqn:El;
      [ injection H as <-; exact Hu | ].
    destruct (currentPlayer (fst s)) as [p | ] eqn:Ec; [ | discriminate ].
    injection H as <-.
    apply Qlt_bool_false in Eq. apply Nat.leb_gt in El.
    unfold teamsChanged. rewrite prepareNext_startingPurse.
    match goal with
    | |- context [prepareNext now (checkAuctionCompletion now ?x)] =>
        destruct (checkAuctionCompletion_sameTeams now x) as [H1 H2];
        destruct (prepareNext_teams now (checkAuctionCompletion now x)) as [H3 | H3];
        rewrite H3, H1, H2
    end;
      cbn [emit checkEliminations upd fst snd inAuction set_auction set_teams teams
           startingPurse];
      fold (checkAll (putTeam (propertyKey (currentBidderId (auction (fst s))))
                        (soldTo team p (currentBid (auction (fst s)))) (teams (fst s))));
      rewrite ?checkAll_idem;
      (split; [ | exact Es ]);
      rewrite <- Et, <- Eb, <- Ep;
      apply (tc_sale _ _ _ _ _ _ team p); auto.
  - injection H as <-.
    unfold teamsChanged. rewrite prepareNext_startingPurse.
    match goal with
    | |- context [prepareNext now (checkAuctionCompletion now ?x)] =>
        destruct (checkAuctionCompletion_sameTeams now x) as [H1 H2];
        destruct (prepareNext_teams now (checkAuctionCompletion now x)) as [H3 | H3];
        rewrite H3, H1, H2
    end;
      cbn [emit upd fst snd inAuction set_auction teams startingPurse];
      (split; [ | exact Es ]); rewrite Et;
      [ apply tc_same | apply tc_check ].
Qed.

Lemma timerTick_changed now s s' :
  timerTick now s = Done s' -> teamsChanged true s s'.
Proof.
  unfold timerTick.
  destruct (_ <=? 0)%Z.
  - destruct (truthyId _).
    + intro H. apply finishBidding_changed with (s0 := s) in H; auto.
    + intros [= <-]. apply finishPlayerUnsold_changed; reflexivity.
  - intros [= <-]. split; [ apply tc_same | reflexivity ].
Qed.

Lemma skipForMe_changed now userId s s' :
  skipForMe now userId s = Done s' -> teamsChanged true s s'.
Proof.
  unfold skipForMe.
  destruct (negb _); [ intros [= <-]; split; [ apply tc_same | reflexivity ] | ].
  destruct (getTeam _ _); [ | intros [= <-]; split; [ apply tc_same | reflexivity ] ].
  destruct (_ || _)%bool; [ intros [= <-]; split; [ apply tc_same | reflexivity ] | ].
  destruct (_ && _)%bool; [ | intros [= <-]; split; [ apply tc_same | reflexivity ] ].
  destruct (truthyId _).
  - intro H. apply finishBidding_changed with (s0 := s) in H; auto.
  - intros [= <-]. apply finishPlayerUnsold_changed; reflexivity.
Qed.

Lemma placeBid_sameTeams now bidAmount userId s s' :
  placeBid now bidAmount userId s = Done s' ->
  teams (fst s') = teams (fst s) /\ startingPurse (fst s') = startingPurse (fst s).
Proof.
  intro H. unfold placeBid in H. cbn [fst snd] in H.
  repeat case_guard H; try discriminate H; injection H as <-; split; reflexivity.
Qed.

Lemma placeBid_changed canSell now bidAmount userId s s' :
  placeBid now bidAmount userId s = Done s' -> teamsChanged canSell s s'.
Proof.
  intro H. apply placeBid_sameTeams in H. destruct H as [H1 H2].
  unfold teamsChanged. rewrite H1, H2. split; [ apply tc_same | reflexivity ].
Qed.

Lemma joinRoom_changed canSell now teamName userId s :
  teamsChanged canSell s (joinRoom now teamName userId s).
Proof.
  unfold teamsChanged, joinRoom.
  destruct (getTeam userId (teams (fst s))) as [team | ] eqn:E;
    cbn [updateRoomActivity upd emit fst snd set_teams set_lastActivity teams
         startingPurse hostId].
  - rewrite E.
    cbn [checkEliminations upd emit fst snd set_teams teams startingPurse].
    match goal with
    | |- context [replayState false ?x] =>
        destruct (replayState_sameTeams false x) as [-> ->]
    end.
    split; [ apply tc_check | reflexivity ].
  - rewrite getTeam_putTeam, String.eqb_refl.
    cbn [checkEliminations upd emit fst snd set_teams teams startingPurse].
    match goal with
    | |- context [replayState false ?x] =>
        destruct (replayState_sameTeams false x) as [-> ->]
    end.
    cbn [emit fst snd set_teams set_lastActivity teams startingPurse].
    split; [ | reflexivity ].
    apply tc_join, E.
Qed.

Lemma finishBiddingForMe_changed canSell now userId s :
  teamsChanged canSell s (finishBiddingForMe now userId s).
Proof.
  unfold teamsChanged, finishBiddingForMe.
  destruct (getTeam userId (teams (fst s))) as [team | ] eqn:Et;
    [ | split; [ apply tc_same | reflexivity ] ].
  destruct (_ && _)%bool eqn:Eg; [ | split; [ apply tc_same | reflexivity ] ].
  apply andb_true_iff in Eg. destruct Eg as [Es Ee].
  apply negb_true_iff in Ee. apply Nat.leb_le in Es.
  match goal with
  | |- context [checkAuctionCompletion now ?x] =>
      destruct (checkAuctionCompletion_sameTeams now x) as [-> ->]
  end.
  cbn [updateRoomActivity upd emit fst snd set_teams set_lastActivity teams startingPurse].
  split; [ apply tc_finished; assumption | reflexivity ].
Qed.

Lemma submitPlaying11_changed canSell now playerIds cId vcId userId s :
  teamsChanged canSell s (submitPlaying11 now playerIds cId vcId userId s).
Proof.
  unfold teamsChanged, submitPlaying11.
  destruct (getTeam userId (teams (fst s))) as [team | ] eqn:Et;
    [ | split; [ apply tc_same | reflexivity ] ].
  destruct playerIds as [ids | ]; [ | split; [ apply tc_same | reflexivity ] ].
  repeat (case_goal; try (split; [ apply tc_same | reflexivity ])).
  - split; [ | reflexivity ].
    cbn [calculateWinner updateRoomActivity upd emit fst snd inAuction set_auction
         set_teams set_lastActivity teams startingPurse].
    apply (tc_submit _ _ _ _ _ _ team _ _ Et).
  - split; [ | reflexivity ].
    cbn [updateRoomActivity upd emit fst snd set_teams set_lastActivity teams
         startingPurse].
    apply (tc_submit _ _ _ _ _ _ team _ _ Et).
Qed.

Lemma leaveRoom_teams now userId s s' :
  leaveRoom now userId s = Some s' ->
  teams (fst s') = deleteTeam userId (teams (fst s))
  /\ startingPurse (fst s') = startingPurse (fst s).
Proof.
  unfold leaveRoom. cbn [fst snd upd].
  destruct (_ =? userId)%string.
  - destruct (teamKeys _); [ discriminate | ].
    intros [= <-].
    match goal with
    | |- context [checkAuctionCompletion now ?x] =>
        destruct (checkAuctionCompletion_sameTeams now x) as [-> ->]
    end.
    split; reflexivity.
  - intros [= <-].
    match goal with
    | |- context [checkAuctionCompletion now ?x] =>
        destruct (checkAuctionCompletion_sameTeams now x) as [-> ->]
    end.
    split; reflexivity.
Qed.

Lemma Live_inj (r r' : Room) (out out' : list Out) :
  Live r out = Live r' out' -> r = r' /\ out = out'.
Proof. intros [= -> ->]. split; reflexivity. Qed.

Lemma handle_teams (now : Z) (ev : Event) (r r' : Room) (out : list Out) :
  handle now ev r = Live r' out ->
  teamsStep ev r r' /\ startingPurse r' = startingPurse r.
Proof.
  destruct ev; unfold handle, live, teamsStep, leaver, sells; cbv zeta; intro H.
  - apply Live_inj in H. destruct H as [<- _].
    apply (sameTeams_changed _ _ (r, []) (rejoinGame_sameTeams now userId)).
  - apply Live_inj in H. destruct H as [<- _].
    apply (joinRoom_changed _ now teamName userId (r, [])).
  - destruct (leaveRoom now userId (r, [])) as [s' | ] eqn:E; [ | discriminate ].
    apply Live_inj in H. destruct H as [<- _]. exact (leaveRoom_teams _ _ _ _ E).
  - apply Live_inj in H. destruct H as [<- _].
    apply (finishBiddingForMe_changed _ now userId (r, [])).
  - apply Live_inj in H. destruct H as [<- _].
    apply (sameTeams_changed _ _ (r, []) (startAuction_sameTeams now caller)).
  - destruct (placeBid now bidAmount userId (r, [])) as [s' | ] eqn:E; [ | discriminate ].
    apply Live_inj in H. destruct H as [<- _]. exact (placeBid_changed _ _ _ _ _ _ E).
  - destruct (skipForMe now userId (r, [])) as [s' | ] eqn:E; [ | discriminate ].
    apply Live_inj in H. destruct H as [<- _]. exact (skipForMe_changed _ _ _ _ E).
  - apply Live_inj in H. destruct H as [<- _].
    apply (submitPlaying11_changed _ now playerIds cId vcId userId (r, [])).
  - destruct (timerTick now (r, [])) as [s' | ] eqn:E; [ | discriminate ].
    apply Live_inj in H. destruct H as [<- _]. exact (timerTick_changed _ _ _ E).
  - apply Live_inj in H. destruct H as [<- _].
    apply (sameTeams_changed _ _ (r, []) (nextPlayerTimeoutFired_sameTeams now)).
Qed.

(** ** Invariants carried by every change of the team map *)

Lemma flagged_checkTeam (t : Team) : flagged (checkTeam t).
Proof.
  unfold flagged. rewrite checkTeam_due, checkTeam_isEliminated.
  intros ->. apply orb_true_r.
Qed.

Lemma Forall_checkAll (P : Team -> Prop) (ts : TeamMap) :
  (forall t, P (checkTeam t)) -> Forall P (teamValues (checkAll ts)).
Proof.
  intro H. unfold checkAll, teamValues. rewrite map_map. cbn [snd].
  apply Forall_forall. intros t Hin. apply in_map_iff in Hin.
  destruct Hin as [kt [<- _]]. apply H.
Qed.

Lemma purseOk_checkAll (ts : TeamMap) :
  Forall purseOk (teamValues ts) -> Forall purseOk (teamValues (checkAll ts)).
Proof.
  apply Forall_mapTeams. intros t Ht. unfold purseOk. rewrite checkTeam_purse. exact Ht.
Qed.

Lemma purseOk_soldTo (team : Team) (p : Player) (price : Q) :
  price <= purse team -> purseOk (soldTo team p price).
Proof.
  intro H. unfold purseOk, soldTo. cbn. apply toFixed2_nonneg.
  apply (Qplus_le_l _ _ price). ring_simplify. exact H.
Qed.

Lemma teamsChange_purseOk (canSell : bool) (sp price : Q) (onBlock : option Player)
    (ts ts' : TeamMap) :
  teamsChange canSell sp price onBlock ts ts' -> 0 <= sp ->
  Forall purseOk (teamValues ts) -> Forall purseOk (teamValues ts').
Proof.
  intros H Hsp Hts. destruct H.
  - exact Hts.
  - apply purseOk_checkAll, Hts.
  - apply purseOk_checkAll, Forall_putTeam; [ | exact Hts ].
    apply purseOk_soldTo. assumption.
  - apply purseOk_checkAll, Forall_putTeam; [ exact Hsp | exact Hts ].
  - apply Forall_putTeam; [ | exact Hts ].
    exact (Forall_getTeam purseOk _ _ _ Hts H).
  - apply Forall_putTeam; [ | exact Hts ].
    exact (Forall_getTeam purseOk _ _ _ Hts H).
Qed.

Lemma teamsChange_flagged (canSell : bool) (sp price : Q) (onBlock : option Player)
    (ts ts' : TeamMap) :
  teamsChange canSell sp price onBlock ts ts' ->
  Forall flagged (teamValues ts) -> Forall flagged (teamValues ts').
Proof.
  intros H Hts. destruct H.
  - exact Hts.
  - apply Forall_checkAll, flagged_checkTeam.
  - apply Forall_checkAll, flagged_checkTeam.
  - apply Forall_checkAll, flagged_checkTeam.
  - apply Forall_putTeam; [ | exact Hts ].
    exact (Forall_getTeam flagged _ _ _ Hts H).
  - apply Forall_putTeam; [ | exact Hts ].
    exact (Forall_getTeam flagged _ _ _ Hts H).
Qed.

Lemma teamKeys_checkAll (ts : TeamMap) : teamKeys (checkAll ts) = teamKeys ts.
Proof. unfold teamKeys, checkAll. rewrite map_map. reflexivity. Qed.

Lemma teamKeys_deleteTeam_NoDup (uid : string) (ts : TeamMap) :
  NoDup (teamKeys ts) -> NoDup (teamKeys (deleteTeam uid ts)).
Proof.
  unfold deleteTeam, teamKeys.
  induction ts as [ | [k t] rest IH ]; simpl; intro Hnd; [ constructor | ].
  inversion Hnd as [ | ? ? Hk Hrest ]; subst.
  destruct (negb (k =? uid)%string); simpl; [ | exact (IH Hrest) ].
  constructor; [ | exact (IH Hrest) ].
  intro Hin. apply Hk. clear - Hin.
  induction rest as [ | [k' t'] rest IH ]; simpl in *; [ exact Hin | ].
  destruct (negb (k' =? uid)%string); simpl in Hin.
  - destruct Hin as [-> | Hin]; [ left; reflexivity | right; exact (IH Hin) ].
  - right. exact (IH Hin).
Qed.

Lemma teamsChange_NoDup (canSell : bool) (sp price : Q) (onBlock : option Player)
    (ts ts' : TeamMap) :
  teamsChange canSell sp price onBlock ts ts' ->
  NoDup (teamKeys ts) -> NoDup (teamKeys ts').
Proof.
  intros H Hts. destruct H; rewrite ?teamKeys_checkAll;
    auto using teamKeys_putTeam_NoDup.
Qed.

(** What one change does to the elimination flag of a team that is in
    the room before and after: the flag is kept, or it is raised by the
    elimination rule. *)
Lemma teamsChange_flag (canSell : bool) (sp price : Q) (onBlock : option Player)
    (ts ts' : TeamMap)
    (uid : string) (t t' : Team) :
  teamsChange canSell sp price onBlock ts ts' ->
  getTeam uid ts = Some t -> getTeam uid ts' = Some t' ->
  isEliminated t' = isEliminated t
  \/ (isEliminated t = false /\ isEliminated t' = true /\ eliminationDue t' = true).
Proof.
  assert (Hc : forall x, isEliminated (checkTeam x) = isEliminated x
                         \/ (isEliminated x = false /\ isEliminated (checkTeam x) = true
                             /\ eliminationDue (checkTeam x) = true)).
  { intro x. rewrite checkTeam_due, checkTeam_isEliminated.
    destruct (isEliminated x), (eliminationDue x); cbn; auto. }
  intros H Ht Ht'. destruct H.
  - rewrite Ht in Ht'. injection Ht' as <-. left. reflexivity.
  - unfold checkAll in Ht'. rewrite getTeam_map, Ht in Ht'. injection Ht' as <-.
    apply Hc.
  - unfold checkAll in Ht'. rewrite getTeam_map, getTeam_putTeam in Ht'.
    destruct (uid0 =? uid)%string eqn:E.
    + apply String.eqb_eq in E. subst uid0. injection Ht' as <-.
      rewrite H in Ht. injection Ht as <-.
      apply (Hc (soldTo team p price)).
    + rewrite Ht in Ht'. injection Ht' as <-. apply Hc.
  - unfold checkAll in Ht'. rewrite getTeam_map, getTeam_putTeam in Ht'.
    destruct (uid0 =? uid)%string eqn:E.
    + apply String.eqb_eq in E. subst uid0. congruence.
    + rewrite Ht in Ht'. injection Ht' as <-. apply Hc.
  - rewrite getTeam_putTeam in Ht'.
    destruct (uid0 =? uid)%string eqn:E.
    + apply String.eqb_eq in E. subst uid0. injection Ht' as <-.
      rewrite H in Ht. injection Ht as <-. left. reflexivity.
    + rewrite Ht in Ht'. injection Ht' as <-. left. reflexivity.
  - rewrite getTeam_putTeam in Ht'.
    destruct (uid0 =? uid)%string eqn:E.
    + apply String.eqb_eq in E. subst uid0. injection Ht' as <-.
      rewrite H in Ht. injection Ht as <-. left. reflexivity.
    + rewrite Ht in Ht'. injection Ht' as <-. left. reflexivity.
Qed.

(** ** Reachable rooms *)

Lemma run_invariant (I : Room -> Prop) :
  (forall now ev r r' out,
      I r -> enabled ev r = true -> handle now ev r = Live r' out -> I r') ->
  forall evs r r', I r -> run evs r = Some r' -> I r'.
Proof.
  intros Hstep evs. induction evs as [ | [now ev] rest IH ]; intros r r' Hr; simpl.
  - intros [= <-]. exact Hr.
  - destruct (enabled ev r) eqn:En; [ | discriminate ].
    destruct (handle now ev r) as [r1 out | | ] eqn:Eh; try discriminate.
    apply IH. exact (Hstep _ _ _ _ _ Hr En Eh).
Qed.

Lemma hostPurse_bounds (p : jsnum) : 50 <= hostPurse p /\ hostPurse p <= 500.
Proof.
  destruct p as [q | | | ]; cbn; try (split; discriminate).
  destruct (Qeq_bool q 0).
  - cbn. split; discriminate.
  - destruct (Qlt_bool 500 q) eqn:E1.
    + cbn. split; discriminate.
    + destruct (Qlt_bool q 50) eqn:E2.
      * split; discriminate.
      * apply Qlt_bool_false in E1, E2. split; assumption.
Qed.

Lemma createRoom_teamsInv now teamName purse userId initialPool :
  teamsInv (fst (createRoom now teamName purse userId initialPool)).
Proof.
  destruct (hostPurse_bounds purse) as [Hlo Hhi].
  unfold createRoom, teamsInv.
  cbn [getTeam teams fst]. rewrite String.eqb_refl.
  cbn [emit fst snd startingPurse teams teamKeys teamValues map].
  split; [ exact Hlo | ].
  split; [ constructor; [ intros [] | constructor ] | ].
  split; constructor; try constructor.
  - unfold purseOk. cbn. apply Qle_trans with 50; [ discriminate | exact Hlo ].
  - unfold flagged, eliminationDue. cbn.
    assert (E : Qlt_bool (hostPurse purse) BID_INCREMENT = false).
    { apply Qlt_bool_false. apply Qle_trans with 50; [ discriminate | exact Hlo ]. }
    rewrite E. discriminate.
Qed.

Lemma handle_teamsInv now ev r r' out :
  teamsInv r -> handle now ev r = Live r' out -> teamsInv r'.
Proof.
  intros (Hsp & Hnd & Hp & Hf) H.
  apply handle_teams in H. destruct H as [Hc Es].
  unfold teamsInv. rewrite Es. split; [ exact Hsp | ].
  unfold teamsStep in Hc. destruct (leaver ev) as [userId | ].
  - rewrite Hc. split; [ apply teamKeys_deleteTeam_NoDup, Hnd | ].
    split; apply Forall_deleteTeam; assumption.
  - split; [ exact (teamsChange_NoDup _ _ _ _ _ _ Hc Hnd) | ].
    split.
    + apply (teamsChange_purseOk _ _ _ _ _ _ Hc); [ | exact Hp ].
      apply Qle_trans with 50; [ discriminate | exact Hsp ].
    + exact (teamsChange_flagged _ _ _ _ _ _ Hc Hf).
Qed.

Lemma reachable_teamsInv (r : Room) : reachable r -> teamsInv r.
Proof.
  intros (now & teamName & purse & userId & initialPool & evs & H).
  apply (run_invariant teamsInv) with (3 := H).
  - intros. eapply handle_teamsInv; eassumption.
  - apply createRoom_teamsInv.
Qed.


Lemma getTeam_deleteTeam_Some (userId uid : string) (ts : TeamMap) (t : Team) :
  getTeam uid (deleteTeam userId ts) = Some t -> getTeam uid ts = Some t.
Proof.
  rewrite getTeam_deleteTeam. destruct (userId =? uid)%string; [ discriminate | trivial ].
Qed.

(** A team that is not leaving is still in the room after the step. *)
Lemma teamsChange_stays (canSell : bool) (sp price : Q) (onBlock : option Player)
    (ts ts' : TeamMap)
    (uid : string) (t : Team) :
  teamsChange canSell sp price onBlock ts ts' ->
  getTeam uid ts = Some t -> exists t', getTeam uid ts' = Some t'.
Proof.
  intros H Ht. destruct H; unfold checkAll;
    rewrite ?getTeam_map, ?getTeam_putTeam;
    try match goal with
        | |- context [(?u =? uid)%string] => destruct (u =? uid)%string
        end;
    rewrite ?Ht; cbn; eauto.
Qed.

Lemma handle_stays (now : Z) (ev : Event) (r r' : Room) (out : list Out)
    (uid : string) (t : Team) :
  handle now ev r = Live r' out ->
  leaver ev <> Some uid ->
  getTeam uid (teams r) = Some t -> exists t', getTeam uid (teams r') = Some t'.
Proof.
  intros H Hl Ht. apply handle_teams in H. destruct H as [Hc _].
  unfold teamsStep in Hc. destruct (leaver ev) as [userId | ].
  - rewrite Hc, getTeam_deleteTeam.
    destruct (userId =? uid)%string eqn:E; [ | eauto ].
    apply String.eqb_eq in E. congruence.
  - eapply teamsChange_stays; eassumption.
Qed.

Lemma handle_flag (now : Z) (ev : Event) (r r' : Room) (out : list Out)
    (uid : string) (t t' : Team) :
  handle now ev r = Live r' out ->
  getTeam uid (teams r) = Some t -> getTeam uid (teams r') = Some t' ->
  isEliminated t' = isEliminated t
  \/ (isEliminated t = false /\ isEliminated t' = true /\ eliminationDue t' = true).
Proof.
  intros H Ht Ht'. apply handle_teams in H. destruct H as [Hc _].
  unfold teamsStep in Hc. destruct (leaver ev) as [userId | ].
  - rewrite Hc in Ht'. apply getTeam_deleteTeam_Some in Ht'.
    rewrite Ht in Ht'. injection Ht' as <-. left. reflexivity.
  - eapply teamsChange_flag; eassumption.
Qed.


Lemma eliminationDue_true (t : Team) :
  eliminationDue t = true
  <-> purse t < BID_INCREMENT /\ (List.length (squad t) < MIN_SQUAD_TO_PLAY)%nat.
Proof.
  unfold eliminationDue. rewrite andb_true_iff, Qlt_bool_true, Nat.ltb_lt. tauto.
Qed.

(** A flag that is set stays set while the team does not leave. *)
Lemma run_keeps_flag (evs : list (Z * Event)) (r r' : Room) (uid : string) (t : Team) :
  run evs r = Some r' ->
  (forall now, ~ In (now, LeaveRoom uid) evs) ->
  getTeam uid (teams r) = Some t ->
  isEliminated t = true ->
  exists t', getTeam uid (teams r') = Some t' /\ isEliminated t' = true.
Proof.
  revert r t. induction evs as [ | [now ev] rest IH ]; intros r t H Hn Ht He; simpl in H.
  - injection H as <-. exists t. split; assumption.
  - destruct (enabled ev r); [ | discriminate ].
    destruct (handle now ev r) as [r1 out | | ] eqn:Eh; try discriminate.
    assert (Hl : leaver ev <> Some uid).
    { intro C. destruct ev; try discriminate C. injection C as ->.
      apply (Hn now). left. reflexivity. }
    destruct (handle_stays _ _ _ _ _ _ _ Eh Hl Ht) as [t1 Ht1].
    destruct (handle_flag _ _ _ _ _ _ _ _ Eh Ht Ht1) as [E | (E & _)]; [ | congruence ].
    apply (IH r1 t1 H); [ | exact Ht1 | congruence ].
    intros n C. apply (Hn n). right. exact C.
Qed.

(** ** How the handlers change the auction state *)

Lemma closed_roundOk (a : Auction) : closed a -> roundOk a.
Proof. intros [Hb Ht]. split; intro H; congruence. Qed.

Lemma phaseStep_refl (p : Phase) : phaseStep p p.
Proof. left. reflexivity. Qed.

Lemma phaseStep_trans (p1 p2 p3 : Phase) :
  phaseStep p1 p2 -> phaseStep p2 p3 -> phaseStep p1 p3.
Proof.
  intros [-> | [-> ->]] [-> | [E ->]]; try discriminate;
    try (left; reflexivity); auto; right; auto.
Qed.

Lemma Phase_eqb_eq (p q : Phase) : Phase_eqb p q = true <-> p = q.
Proof. destruct p, q; cbn; split; congruence. Qed.

Lemma Phase_eqb_neq (p q : Phase) : Phase_eqb p q = false <-> p <> q.
Proof. destruct p, q; cbn; split; congruence. Qed.

Lemma updateRoomActivity_sameAuction now : sameAuction (updateRoomActivity now).
Proof. intro s. reflexivity. Qed.

Lemma checkEliminations_sameAuction : sameAuction checkEliminations.
Proof. intro s. reflexivity. Qed.

Lemma emitResults_sameAuction : sameAuction emitResults.
Proof. intro s. unfold emitResults. case_goal; reflexivity. Qed.

Lemma replayState_sameAuction b : sameAuction (replayState b).
Proof.
  intro s. unfold replayState.
  repeat first [ reflexivity | apply emitResults_sameAuction
               | case_goal; cbn [fst snd emit] ].
Qed.

Lemma rejoinGame_sameAuction now userId : sameAuction (rejoinGame now userId).
Proof.
  intro s. unfold rejoinGame. case_goal; [ | reflexivity ].
  unfold updateRoomActivity. cbn [upd fst snd set_lastActivity auction].
  match goal with
  | |- context [replayState true ?x] => rewrite (replayState_sameAuction true x)
  end.
  reflexivity.
Qed.

Lemma joinRoom_sameAuction now teamName userId :
  sameAuction (joinRoom now teamName userId).
Proof.
  intro s. unfold joinRoom.
  cbn [checkEliminations upd emit fst snd set_teams auction].
  match goal with
  | |- context [replayState false ?x] => rewrite (replayState_sameAuction false x)
  end.
  repeat (case_goal; cbn [updateRoomActivity upd emit fst snd set_teams
                          set_lastActivity auction]);
    reflexivity.
Qed.

(** *** Closing a round *)

Lemma checkAuctionCompletion_flow now s :
  let a := auction (fst s) in
  let a' := auction (fst (checkAuctionCompletion now s)) in
  playerPool a' = playerPool a
  /\ currentPlayerIndex a' = currentPlayerIndex a
  /\ phaseStep (phase a) (phase a')
  /\ (roundOk a -> roundOk a')
  /\ (closed a -> closed a').
Proof.
  unfold checkAuctionCompletion.
  destruct (negb (Phase_eqb (phase (auction (fst s))) AUCTION)) eqn:Ep.
  { cbn zeta. split; [ reflexivity | ]. split; [ reflexivity | ].
    split; [ apply phaseStep_refl | ]. split; intro H; exact H. }
  destruct (_ =? 0)%nat.
  - apply negb_false_iff, Phase_eqb_eq in Ep. cbn.
    split; [ reflexivity | ]. split; [ reflexivity | ].
    split; [ right; split; [ exact Ep | reflexivity ] | ].
    split; intros _; [ apply closed_roundOk | ]; split; reflexivity.
  - cbn zeta. split; [ reflexivity | ]. split; [ reflexivity | ].
    split; [ apply phaseStep_refl | ]. split; intro H; exact H.
Qed.

Lemma prepareNext_closed now s :
  let a := auction (fst s) in
  let a' := auction (fst (prepareNext now s)) in
  closed a -> closed a' /\ phase a' = phase a /\ playerPool a' = playerPool a.
Proof.
  unfold prepareNext. case_goal; cbn; intros [H1 H2]; repeat split; assumption.
Qed.

Lemma finishPlayerUnsold_closed now s :
  let a := auction (fst s) in
  let a' := auction (fst (finishPlayerUnsold now s)) in
  timer a = false -> closed a' /\ phase a' = phase a /\ playerPool a' = playerPool a.
Proof.
  cbn zeta. intro Ht. unfold finishPlayerUnsold.
  match goal with
  | |- context [prepareNext now ?x] =>
      pose proof (prepareNext_closed now x) as H
  end.
  cbn [emit upd fst snd inAuction set_auction auction set_biddingOpen biddingOpen
       timer phase playerPool] in H.
  apply H. split; [ reflexivity | exact Ht ].
Qed.

Lemma finishBidding_closed now s s' :
  finishBidding now s = Done s' ->
  let a := auction (fst s) in
  let a' := auction (fst s') in
  timer a = false ->
  closed a' /\ phaseStep (phase a) (phase a') /\ playerPool a' = playerPool a.
Proof.
  cbn zeta. intros H Ht.
  assert (Hu : forall x,
             x = finishPlayerUnsold now (upd (inAuction (set_biddingOpen false)) s) ->
             closed (auction (fst x))
             /\ phaseStep (phase (auction (fst s))) (phase (auction (fst x)))
             /\ playerPool (auction (fst x)) = playerPool (auction (fst s))).
  { intros x ->.
    destruct (finishPlayerUnsold_closed now
                (upd (inAuction (set_biddingOpen false)) s) Ht) as (C & P & L).
    split; [ exact C | split; [ left; exact P | exact L ] ]. }
  assert (Hn : forall y,
             auction (fst y) = set_biddingOpen false (auction (fst s)) ->
             let x := prepareNext now (checkAuctionCompletion now y) in
             closed (auction (fst x))
             /\ phaseStep (phase (auction (fst s))) (phase (auction (fst x)))
             /\ playerPool (auction (fst x)) = playerPool (auction (fst s))).
  { intros y Hy. cbn zeta.
    destruct (checkAuctionCompletion_flow now y) as (L1 & _ & P1 & _ & C1).
    rewrite Hy in L1, P1, C1. cbn in L1, P1.
    destruct (prepareNext_closed now (checkAuctionCompletion now y)) as (C2 & P2 & L2).
    { apply C1. split; [ reflexivity | exact Ht ]. }
    split; [ exact C2 | ]. split; [ rewrite P2; exact P1 | congruence ]. }
  unfold finishBidding in H. cbn [fst snd] in H.
  destruct (getTeam _ _) as [team | ].
  - destruct (Qlt_bool _ _).
    { injection H as <-. apply Hu. reflexivity. }
    destruct (_ <=? _)%nat.
    { injection H as <-. apply Hu. reflexivity. }
    destruct (currentPlayer _) as [p | ]; [ | discriminate ].
    injection H as <-. apply Hn. reflexivity.
  - injection H as <-. apply Hn. reflexivity.
Qed.


(** *** Opening a round *)

Lemma startNextPlayer_flow now s :
  let a := auction (fst s) in
  let a' := auction (fst (startNextPlayer now s)) in
  playerPool a' = playerPool a
  /\ phaseStep (phase a) (phase a')
  /\ (roundOk a -> roundOk a').
Proof.
  unfold startNextPlayer.
  destruct (negb (Phase_eqb (phase (auction (fst s))) AUCTION)) eqn:Ep.
  { cbn zeta. split; [ reflexivity | ]. split; [ apply phaseStep_refl | auto ]. }
  apply negb_false_iff, Phase_eqb_eq in Ep.
  destruct (currentPlayer (fst s)) as [p | ] eqn:Ec.
  - cbn. split; [ reflexivity | ]. split; [ apply phaseStep_refl | ].
    intros _. split; intros _; [ reflexivity | ].
    unfold currentPlayer in Ec. cbn. rewrite Ec. discriminate.
  - cbn. split; [ reflexivity | ].
    split; [ right; split; [ exact Ep | reflexivity ] | ].
    intros _. apply closed_roundOk. split; reflexivity.
Qed.

Lemma nextPlayerTimeoutFired_flow now s :
  let a := auction (fst s) in
  let a' := auction (fst (nextPlayerTimeoutFired now s)) in
  playerPool a' = playerPool a
  /\ phaseStep (phase a) (phase a')
  /\ (roundOk a -> roundOk a').
Proof.
  unfold nextPlayerTimeoutFired. case_goal.
  - apply (startNextPlayer_flow now (upd (set_nextPlayerTimeout false) s)).
  - cbn. split; [ reflexivity | ]. split; [ apply phaseStep_refl | auto ].
Qed.

Lemma startAuction_flow now caller s :
  let a := auction (fst s) in
  let a' := auction (fst (startAuction now caller s)) in
  playerPool a' = playerPool a
  /\ (phase a' = phase a
      \/ (phase a = LOBBY /\ caller = Some (hostId (fst s))
          /\ (phase a' = AUCTION \/ phase a' = SELECTION)))
  /\ (roundOk a -> roundOk a').
Proof.
  unfold startAuction.
  destruct caller as [userId | ]; [ | cbn; auto ].
  destruct (negb (hostId (fst s) =? userId)%string) eqn:Eh; [ cbn; auto | ].
  destruct (negb (Phase_eqb (phase (auction (fst s))) LOBBY)) eqn:El; [ cbn; auto | ].
  apply negb_false_iff, String.eqb_eq in Eh.
  apply negb_false_iff, Phase_eqb_eq in El.
  match goal with
  | |- context [startNextPlayer now ?x] =>
      destruct (startNextPlayer_flow now x) as (L & P & R)
  end.
  cbn [updateRoomActivity emit upd fst snd inAuction set_auction set_lastActivity
       auction set_phase phase playerPool] in L, P, R.
  cbn zeta. split; [ exact L | ]. split.
  - right. split; [ exact El | ]. split; [ congruence | ].
    destruct P as [-> | [_ ->]]; auto.
  - intro H. apply R. exact H.
Qed.

(** *** Bids, skips and the countdown *)

Lemma placeBid_step now bidAmount userId s s' :
  placeBid now bidAmount userId s = Done s' ->
  let a := auction (fst s) in
  playerPool (auction (fst s')) = playerPool a
  /\ phase (auction (fst s')) = phase a
  /\ (roundOk a -> roundOk (auction (fst s'))).
Proof.
  cbn zeta. unfold placeBid. intro H.
  destruct (negb (biddingOpen (auction (fst s)))) eqn:Eo.
  { injection H as <-. auto. }
  apply negb_false_iff in Eo.
  destruct (getTeam _ _); [ | injection H as <-; auto ].
  destruct (_ || _)%bool; [ injection H as <-; auto | ].
  destruct (_ <=? _)%nat; [ injection H as <-; auto | ].
  destruct (_ || _)%bool; [ injection H as <-; auto | ].
  destruct bidAmount; try (injection H as <-; auto; fail).
  destruct (currentPlayer (fst s)) as [p | ] eqn:Ep; [ | discriminate ].
  destruct (_ && _)%bool; [ injection H as <-; auto | ].
  injection H as <-.
  split; [ reflexivity | ]. split; [ reflexivity | ].
  intros _. split; intros _; [ exact Eo | ].
  unfold currentPlayer in Ep. cbn. rewrite Ep. discriminate.
Qed.


Lemma closing_flow now s s' :
  (if truthyId (currentBidderId (auction (fst s))) then finishBidding now s
   else Done (finishPlayerUnsold now s)) = Done s' ->
  let a := auction (fst s) in
  timer a = false ->
  closed (auction (fst s'))
  /\ phaseStep (phase a) (phase (auction (fst s')))
  /\ playerPool (auction (fst s')) = playerPool a.
Proof.
  cbn zeta. intros H Ht. destruct (truthyId _).
  - exact (finishBidding_closed now s s' H Ht).
  - injection H as <-.
    destruct (finishPlayerUnsold_closed now s Ht) as (C & P & L).
    split; [ exact C | split; [ left; exact P | exact L ] ].
Qed.


Lemma closing_roundOk now s s' :
  (if truthyId (currentBidderId (auction (fst s))) then finishBidding now s
   else Done (finishPlayerUnsold now s)) = Done s' ->
  timer (auction (fst s)) = false ->
  playerPool (auction (fst s')) = playerPool (auction (fst s))
  /\ phaseStep (phase (auction (fst s))) (phase (auction (fst s')))
  /\ roundOk (auction (fst s')).
Proof.
  intros H Ht. destruct (closing_flow now s s' H Ht) as (C & P & L).
  split; [ exact L | ]. split; [ exact P | apply closed_roundOk, C ].
Qed.

Lemma skipForMe_step now userId s s' :
  skipForMe now userId s = Done s' ->
  let a := auction (fst s) in
  playerPool (auction (fst s')) = playerPool a
  /\ phaseStep (phase a) (phase (auction (fst s')))
  /\ (roundOk a -> roundOk (auction (fst s'))).
Proof.
  cbn zeta. unfold skipForMe. intro H.
  destruct (negb (biddingOpen (auction (fst s)))) eqn:Eo.
  { injection H as <-. auto using phaseStep_refl. }
  destruct (getTeam _ _); [ | injection H as <-; auto using phaseStep_refl ].
  destruct (_ || _)%bool; [ injection H as <-; auto using phaseStep_refl | ].
  destruct (_ && _)%bool.
  - apply closing_roundOk in H; [ | reflexivity ].
    destruct H as (L & P & R). cbn in L, P.
    split; [ exact L | ]. split; [ exact P | intros _; exact R ].
  - injection H as <-. cbn.
    split; [ reflexivity | ]. split; [ apply phaseStep_refl | auto ].
Qed.


Lemma timerTick_step now s s' :
  timerTick now s = Done s' ->
  let a := auction (fst s) in
  playerPool (auction (fst s')) = playerPool a
  /\ phaseStep (phase a) (phase (auction (fst s')))
  /\ (roundOk a -> roundOk (auction (fst s'))).
Proof.
  cbn zeta. unfold timerTick. intro H.
  destruct (_ <=? 0)%Z.
  - apply closing_roundOk in H; [ | reflexivity ].
    destruct H as (L & P & R). cbn in L, P.
    split; [ exact L | ]. split; [ exact P | intros _; exact R ].
  - injection H as <-. cbn.
    split; [ reflexivity | ]. split; [ apply phaseStep_refl | auto ].
Qed.


(** *** The remaining handlers *)

Lemma finishBiddingForMe_flow now userId s :
  let a := auction (fst s) in
  let a' := auction (fst (finishBiddingForMe now userId s)) in
  playerPool a' = playerPool a
  /\ phaseStep (phase a) (phase a')
  /\ (roundOk a -> roundOk a').
Proof.
  unfold finishBiddingForMe.
  destruct (getTeam _ _);
    [ | cbn zeta; split; [ reflexivity | split; [ apply phaseStep_refl | auto ] ] ].
  destruct (_ && _)%bool;
    [ | cbn zeta; split; [ reflexivity | split; [ apply phaseStep_refl | auto ] ] ].
  match goal with
  | |- context [checkAuctionCompletion now ?x] =>
      destruct (checkAuctionCompletion_flow now x) as (L & _ & P & R & _)
  end.
  cbn zeta. split; [ exact L | ]. split; [ exact P | exact R ].
Qed.

Lemma leaveRoom_flow now userId s s' :
  leaveRoom now userId s = Some s' ->
  let a := auction (fst s) in
  let a' := auction (fst s') in
  playerPool a' = playerPool a
  /\ phaseStep (phase a) (phase a')
  /\ (roundOk a -> roundOk a').
Proof.
  unfold leaveRoom. cbn [fst snd upd]. intro H.
  assert (Hx : exists x, s' = checkAuctionCompletion now x
                         /\ auction (fst x) = auction (fst s)).
  { destruct (_ =? userId)%string.
    - destruct (teamKeys _); [ discriminate | ].
      injection H as <-. eexists. split; reflexivity.
    - injection H as <-. eexists. split; reflexivity. }
  destruct Hx as (x & -> & Ex).
  destruct (checkAuctionCompletion_flow now x) as (L & _ & P & R & _).
  rewrite Ex in L, P, R. cbn zeta. split; [ exact L | ]. split; [ exact P | exact R ].
Qed.

Lemma submitPlaying11_flow now playerIds cId vcId userId s :
  let r' := fst (submitPlaying11 now playerIds cId vcId userId s) in
  let a := auction (fst s) in
  playerPool (auction r') = playerPool a
  /\ (phase (auction r') = phase a
      \/ (phase (auction r') = RESULT /\ allSubmitted r' = true))
  /\ (roundOk a -> roundOk (auction r')).
Proof.
  unfold submitPlaying11.
  destruct (getTeam _ _); [ | cbn; auto ].
  destruct playerIds; [ | cbn; auto ].
  repeat (case_goal; try (cbn; auto; fail)).
Qed.

(** *** One step of the room *)

Lemma handle_auction (now : Z) (ev : Event) (r r' : Room) (out : list Out) :
  handle now ev r = Live r' out ->
  playerPool (auction r') = playerPool (auction r)
  /\ phaseMove ev r r'
  /\ (roundOk (auction r) -> roundOk (auction r')).
Proof.
  destruct ev; unfold handle, live, phaseMove; cbv zeta; intro H.
  - apply Live_inj in H; destruct H as [<- _]. rewrite (rejoinGame_sameAuction now userId (r, [])).
    cbn. auto using phaseStep_refl.
  - apply Live_inj in H; destruct H as [<- _]. rewrite (joinRoom_sameAuction now teamName userId (r, [])).
    cbn. auto using phaseStep_refl.
  - destruct (leaveRoom now userId (r, [])) as [s' | ] eqn:E; [ | discriminate ].
    apply Live_inj in H; destruct H as [<- _]. destruct (leaveRoom_flow _ _ _ _ E) as (L & P & R). auto.
  - apply Live_inj in H; destruct H as [<- _].
    destruct (finishBiddingForMe_flow now userId (r, [])) as (L & P & R). auto.
  - apply Live_inj in H; destruct H as [<- _].
    destruct (startAuction_flow now caller (r, [])) as (L & P & R).
    split; [ exact L | ]. split; [ | exact R ].
    destruct P as [P | (P1 & P2 & P3)].
    + left. left. exact P.
    + right. left. subst caller. auto.
  - destruct (placeBid now bidAmount userId (r, [])) as [s' | ] eqn:E; [ | discriminate ].
    apply Live_inj in H; destruct H as [<- _]. destruct (placeBid_step _ _ _ _ _ E) as (L & P & R).
    split; [ exact L | ]. split; [ left; left; exact P | exact R ].
  - destruct (skipForMe now userId (r, [])) as [s' | ] eqn:E; [ | discriminate ].
    apply Live_inj in H; destruct H as [<- _]. destruct (skipForMe_step _ _ _ _ E) as (L & P & R). auto.
  - apply Live_inj in H; destruct H as [<- _].
    destruct (submitPlaying11_flow now playerIds cId vcId userId (r, [])) as (L & P & R).
    split; [ exact L | ]. split; [ | exact R ].
    destruct P as [P | [P1 P2]].
    + left. left. exact P.
    + right. right. split; [ exact P1 | ]. split; [ exact P2 | ].
      exists playerIds, cId, vcId, userId. reflexivity.
  - destruct (timerTick now (r, [])) as [s' | ] eqn:E; [ | discriminate ].
    apply Live_inj in H; destruct H as [<- _]. destruct (timerTick_step _ _ _ E) as (L & P & R). auto.
  - apply Live_inj in H; destruct H as [<- _].
    destruct (nextPlayerTimeoutFired_flow now (r, [])) as (L & P & R). auto.
Qed.


Lemma createRoom_roundOk now teamName purse userId initialPool :
  roundOk (auction (fst (createRoom now teamName purse userId initialPool))).
Proof.
  unfold createRoom. cbn [getTeam teams fst]. rewrite String.eqb_refl.
  apply closed_roundOk. split; reflexivity.
Qed.




Lemma phaseRank_inj (p q : Phase) : phaseRank p = phaseRank q -> p = q.
Proof. destruct p, q; cbn; congruence. Qed.

Lemma phaseMove_rank (ev : Event) (r r' : Room) :
  phaseMove ev r r' ->
  (phaseRank (phase (auction r)) <= phaseRank (phase (auction r')))%nat.
Proof.
  intros [[-> | [-> ->]] | [(-> & _ & [-> | ->]) | (-> & _)]]; cbn; try lia.
  destruct (phase (auction r)); cbn; lia.
Qed.

Lemma run_rank (evs : list (Z * Event)) (r r' : Room) :
  run evs r = Some r' ->
  (phaseRank (phase (auction r)) <= phaseRank (phase (auction r')))%nat.
Proof.
  revert r. induction evs as [ | [now ev] rest IH ]; intros r H; simpl in H.
  - injection H as <-. lia.
  - destruct (enabled ev r); [ | discriminate ].
    destruct (handle now ev r) as [r1 out | | ] eqn:Eh; try discriminate.
    destruct (handle_auction _ _ _ _ _ Eh) as (_ & Hm & _).
    apply phaseMove_rank in Hm. specialize (IH _ H). lia.
Qed.

(** ** Lineups and scores *)

Lemma submit_inv (now : Z) (playerIds : option (list string)) (cId vcId userId : string)
    (r r' : Room) (out : list Out) :
  handle now (SubmitPlaying11 playerIds cId vcId userId) r = Live r' out ->
  (r' = r /\ out = [])
  \/ exists team ids captain viceCaptain,
       playerIds = Some ids
       /\ lineupAcceptable r userId team ids cId vcId captain viceCaptain
       /\ teams r'
          = putTeam userId (lineupTaken team ids cId vcId captain viceCaptain) (teams r)
       /\ out <> [].
Proof.
  unfold handle, live, submitPlaying11. cbv zeta. cbn [fst snd].
  destruct (getTeam userId (teams r)) as [team | ] eqn:Et;
    [ | intros [= <- <-]; left; split; reflexivity ].
  destruct playerIds as [ids | ]; [ | intros [= <- <-]; left; split; reflexivity ].
  fold (selectedPlayers team ids).
  destruct (negb (List.length ids =? _)%nat) eqn:E1;
    [ intros [= <- <-]; left; split; reflexivity | ].
  destruct (negb (List.length (selectedPlayers team ids) =? _)%nat) eqn:E2;
    [ intros [= <- <-]; left; split; reflexivity | ].
  destruct (MAX_OVERSEAS_P11 <? _)%nat eqn:E3;
    [ intros [= <- <-]; left; split; reflexivity | ].
  destruct (findById cId _) as [captain | ] eqn:E4;
    [ | intros [= <- <-]; left; split; reflexivity ].
  destruct (findById vcId _) as [viceCaptain | ] eqn:E5;
    [ | intros [= <- <-]; left; split; reflexivity ].
  destruct (cId =? vcId)%string eqn:E6;
    [ intros [= <- <-]; left; split; reflexivity | ].
  apply negb_false_iff, Nat.eqb_eq in E1. apply negb_false_iff, Nat.eqb_eq in E2.
  apply Nat.ltb_ge in E3. apply String.eqb_neq in E6.
  intro H. right. exists team, ids, captain, viceCaptain.
  split; [ reflexivity | ].
  split; [ unfold lineupAcceptable; repeat split; try assumption; congruence | ].
  destruct (forallb _ _); apply Live_inj in H; destruct H as [<- <-];
    cbn; split; try reflexivity; discriminate.
Qed.

Lemma submit_accepts (now : Z) (ids : list string) (cId vcId userId : string)
    (r : Room) (team : Team) (captain viceCaptain : SquadPlayer) :
  lineupAcceptable r userId team ids cId vcId captain viceCaptain ->
  exists r' out,
    handle now (SubmitPlaying11 (Some ids) cId vcId userId) r = Live r' out
    /\ teams r'
       = putTeam userId (lineupTaken team ids cId vcId captain viceCaptain) (teams r).
Proof.
  intros (Ht & H1 & H2 & H3 & H4 & H5 & H6).
  unfold handle, live, submitPlaying11. cbv zeta. cbn [fst snd].
  rewrite Ht. fold (selectedPlayers team ids).
  rewrite H2, H1, Nat.eqb_refl. cbn [negb].
  apply Nat.ltb_ge in H3. rewrite H3, H4, H5.
  apply String.eqb_neq in H6. rewrite H6.
  destruct (forallb _ _); eexists; eexists; split; reflexivity.
Qed.

(** *** Selected ids and the squad *)

Lemma includes_In (x : string) (l : list string) : includes x l = true <-> In x l.
Proof.
  unfold includes. rewrite existsb_exists. split.
  - intros [y [Hy E]]. apply String.eqb_eq in E. subst y. exact Hy.
  - intro H. exists x. split; [ exact H | apply String.eqb_refl ].
Qed.

Lemma selected_ids (team : Team) (ids : list string) :
  map (fun p => id (player p)) (selectedPlayers team ids)
  = filter (fun x => includes x ids) (map (fun p => id (player p)) (squad team)).
Proof.
  unfold selectedPlayers. induction (squad team) as [ | p rest IH ]; simpl.
  - reflexivity.
  - destruct (includes (id (player p)) ids); simpl; rewrite IH; reflexivity.
Qed.

(** With distinct ids in the squad, as many squad members are selected
    as ids were sent exactly when the ids are distinct and all belong to
    the squad. *)
Lemma selected_all_iff (team : Team) (ids : list string) :
  NoDup (map (fun p => id (player p)) (squad team)) ->
  List.length (selectedPlayers team ids) = List.length ids
  <-> NoDup ids /\ forall x, In x ids -> In x (map (fun p => id (player p)) (squad team)).
Proof.
  intro Hnd.
  set (S := map (fun p => id (player p)) (squad team)) in *.
  set (F := filter (fun x => includes x ids) S).
  assert (HF : NoDup F) by (apply NoDup_filter, Hnd).
  assert (HFi : incl F ids).
  { intros x Hx. apply filter_In in Hx. apply includes_In, Hx. }
  assert (HL : List.length (selectedPlayers team ids) = List.length F).
  { rewrite <- (length_map (fun p => id (player p))), selected_ids. reflexivity. }
  rewrite HL. split.
  - intro E.
    assert (Hi : incl ids F).
    { apply (NoDup_length_incl HF); [ lia | exact HFi ]. }
    split.
    + apply (NoDup_incl_NoDup HF); [ lia | exact HFi ].
    + intros x Hx. apply Hi in Hx. apply filter_In in Hx. apply Hx.
  - intros [Hn Hin].
    assert (Hi : incl ids F).
    { intros x Hx. apply filter_In. split; [ apply Hin, Hx | apply includes_In, Hx ]. }
    apply Nat.le_antisymm.
    + apply NoDup_incl_length; assumption.
    + apply NoDup_incl_length; assumption.
Qed.

Lemma findById_Some (x : string) (l : list SquadPlayer) (p : SquadPlayer) :
  findById x l = Some p -> In p l /\ id (player p) = x.
Proof.
  unfold findById. intro H. apply find_some in H. destruct H as [Hin E].
  split; [ exact Hin | apply String.eqb_eq, E ].
Qed.

(** *** The score *)

Lemma getEffectiveRating_nonneg (p : SquadPlayer) : (0 <= getEffectiveRating p)%Z.
Proof. unfold getEffectiveRating. apply Z.le_max_l. Qed.

Lemma getEffectiveRating_cases (p : SquadPlayer) :
  exists d : Z,
    (d = -5 \/ d = 0 \/ d = 5)%Z
    /\ getEffectiveRating p = Z.max 0 (rating (player p) + d).
Proof.
  unfold getEffectiveRating.
  repeat match goal with
         | |- context [if ?b then _ else _] => destruct b
         end;
    [ exists (-5)%Z | exists 5%Z | exists (-5)%Z | exists 5%Z | exists 0%Z ];
    (split; [ auto | f_equal; lia ]).
Qed.

Lemma fold_score (f : SquadPlayer -> bool) (g : SquadPlayer -> Q)
    (l : list SquadPlayer) (acc : Q) :
  fold_left (fun score p => if f p then score + g p else score) l acc
  == acc + sumQ (map g (filter f l)).
Proof.
  revert acc. induction l as [ | p rest IH ]; intro acc; simpl.
  - ring.
  - rewrite IH. destruct (f p); simpl; ring.
Qed.

Lemma lineupScore_spec (selected : list SquadPlayer) (cId vcId : string)
    (captain viceCaptain : SquadPlayer) :
  lineupScore selected cId vcId captain viceCaptain
  == specScore (1 # 10) selected cId vcId captain viceCaptain.
Proof.
  unfold lineupScore, specScore, remainingPlayers, leadershipBonus, effective.
  rewrite (fold_score
             (fun p => negb (id (player p) =? cId)%string
                       && negb (id (player p) =? vcId)%string)
             (fun p => inject_Z (getEffectiveRating p)
                       + (inject_Z (getEffectiveRating captain) * (1 # 10)
                          + inject_Z (getEffectiveRating viceCaptain) * (1 # 10)))).
  assert (E : forall l,
             sumQ (map (fun p => inject_Z (getEffectiveRating p)
                                 + (inject_Z (getEffectiveRating captain) * (1 # 10)
                                    + inject_Z (getEffectiveRating viceCaptain) * (1 # 10))) l)
             == sumQ (map (fun p => inject_Z (getEffectiveRating p)
                                    + ((1 # 10) * inject_Z (getEffectiveRating captain)
                                       + (1 # 10) * inject_Z (getEffectiveRating viceCaptain))) l)).
  { induction l as [ | p rest IH ]; simpl; [ reflexivity | rewrite IH; ring ]. }
  rewrite E. ring.
Qed.

Lemma round100_comp (x y : Q) : x == y -> round100 x = round100 y.
Proof.
  intro H. unfold round100. f_equal. apply Qfloor_comp. rewrite H. reflexivity.
Qed.

Lemma round100_isCents (x : Q) : isCents (round100 x).
Proof. eexists. reflexivity. Qed.

(** [round100 x] is the multiple of 1/100 nearest to [x]. *)
Lemma round100_near (x : Q) :
  round100 x <= x + (1 # 200) /\ x - (1 # 200) < round100 x.
Proof.
  unfold round100.
  set (y := x * 100 + (1 # 2)).
  assert (E : forall n : Z, n # 100 == inject_Z n / 100).
  { intro n. unfold Qeq, Qdiv, Qmult, Qinv, inject_Z. cbn -[Z.mul]. lia. }
  assert (Ex1 : x + (1 # 200) == y / 100) by (unfold y; field).
  assert (Ex2 : x - (1 # 200) == (y - 1) / 100) by (unfold y; field).
  rewrite E, Ex1, Ex2. split.
  - apply Qmult_le_compat_r; [ apply Qfloor_le | discriminate ].
  - apply Qmult_lt_compat_r; [ reflexivity | ].
    apply (Qplus_lt_l _ _ 1). ring_simplify.
    pose proof (Qlt_floor y) as H.
    rewrite inject_Z_plus in H. cbn in H.
    setoid_replace (inject_Z (Qfloor y) + 1) with (inject_Z (Qfloor y) + inject_Z 1)
      by reflexivity.
    exact H.
Qed.

Lemma sumQ_nonneg (l : list Q) : Forall (fun x => 0 <= x) l -> 0 <= sumQ l.
Proof.
  induction 1 as [ | x rest Hx _ IH ]; simpl; [ apply Qle_refl | ].
  apply (Qplus_le_compat 0 x 0 (sumQ rest)); assumption.
Qed.

Lemma effective_nonneg (p : SquadPlayer) : 0 <= effective p.
Proof.
  unfold effective. change 0 with (inject_Z 0). rewrite <- Zle_Qle.
  apply getEffectiveRating_nonneg.
Qed.

Lemma lineupScore_nonneg (selected : list SquadPlayer) (cId vcId : string)
    (captain viceCaptain : SquadPlayer) :
  0 <= lineupScore selected cId vcId captain viceCaptain.
Proof.
  rewrite lineupScore_spec. unfold specScore.
  pose proof (effective_nonneg captain) as Hc.
  pose proof (effective_nonneg viceCaptain) as Hv.
  assert (Hb : 0 <= leadershipBonus (1 # 10) captain viceCaptain).
  { unfold leadershipBonus.
    apply (Qplus_le_compat 0 _ 0 _); apply Qmult_le_0_compat;
      try assumption; discriminate. }
  apply (Qplus_le_compat 0 _ 0 _).
  - apply (Qplus_le_compat 0 _ 0 _); apply Qmult_le_0_compat;
      try assumption; discriminate.
  - apply sumQ_nonneg. apply Forall_forall. intros x Hx.
    apply in_map_iff in Hx. destruct Hx as [p [<- _]].
    apply (Qplus_le_compat 0 _ 0 _); [ apply effective_nonneg | exact Hb ].
Qed.

(** ** Skip votes and the end of a round *)

Ltac open_state s :=
  let r := fresh "r" in
  let o := fresh "o" in
  let a := fresh "a" in
  destruct s as [r o]; destruct r as [? ? ? a ? ?]; destruct a.


Lemma endAuctionPhase_reframe now v l pre s :
  endAuctionPhase now (reframe v l pre s) = reframe v l pre (endAuctionPhase now s).
Proof.
  open_state s. unfold endAuctionPhase, reframe. cbn. rewrite app_assoc. reflexivity.
Qed.








(** The skip handler in one equation. *)
Lemma skip_eq (now : Z) (userId : string) (r : Room) :
  handle now (SkipForMe userId) r
  = if mayVote userId r then
      if skipQuorum (voted userId r) then
        live (closeRound now (inAuction (set_timer false) (voted userId r), []))
      else Live (voted userId r) []
    else Live r [].
Proof.
  unfold handle, live, skipForMe, mayVote. cbv zeta. cbn [fst snd].
  destruct (biddingOpen (auction r)); [ | reflexivity ]. cbn [negb andb].
  destruct (getTeam userId (teams r)) as [team | ]; [ | reflexivity ].
  destruct (isEliminated team || isFinishedBidding team)%bool; [ reflexivity | ].
  cbn [negb upd fst snd].
  fold (voted userId r). fold (skipQuorum (voted userId r)).
  destruct (skipQuorum (voted userId r)); reflexivity.
Qed.

(** The countdown callback in one equation. *)
Lemma tick_eq (now : Z) (r : Room) :
  handle now TimerTick r
  = if (timeLeft (auction r) - 1 <=? 0)%Z then
      live (closeRound now
              (inAuction (set_timer false)
                 (inAuction (fun a => set_timeLeft (timeLeft a - 1)%Z a) r),
               [ToRoom (TimerUpdate (timeLeft (auction r) - 1)%Z)]))
    else Live (inAuction (fun a => set_timeLeft (timeLeft a - 1)%Z a) r)
              [ToRoom (TimerUpdate (timeLeft (auction r) - 1)%Z)].
Proof.
  unfold handle, live, timerTick. cbv zeta. cbn [fst snd upd emit].
  change (timeLeft (auction (inAuction (fun a => set_timeLeft (timeLeft a - 1)%Z a) r)))
    with (timeLeft (auction r) - 1)%Z.
  destruct (timeLeft (auction r) - 1 <=? 0)%Z; reflexivity.
Qed.




(** *** What closing a round does *)









(** ** Saving and loading *)

Lemma traverse_map {A B : Type} (f : A -> B) (g : B -> option A) (l : list A) :
  (forall x, g (f x) = Some x) -> traverse g (map f l) = Some l.
Proof.
  intro H. induction l as [ | x rest IH ]; simpl; [ reflexivity | ].
  rewrite H. cbn. rewrite IH. reflexivity.
Qed.

Lemma player_roundtrip (p : Player) : player_of_fields (json_of_player p) = Some p.
Proof.
  unfold player_of_fields, json_of_player. cbn -[Qfloor inject_Z].
  rewrite Qfloor_Z. destruct p. reflexivity.
Qed.

Lemma squadPlayer_roundtrip (p : SquadPlayer) :
  squadPlayer_of_json (json_of_squadPlayer p) = Some p.
Proof.
  unfold squadPlayer_of_json, json_of_squadPlayer, player_of_fields, json_of_player.
  cbn -[Qfloor inject_Z]. rewrite Qfloor_Z. destruct p as [[] ?]. reflexivity.
Qed.

Lemma team_roundtrip (t : Team) : team_of_json (json_of_team t) = Some t.
Proof.
  unfold team_of_json, json_of_team.
  destruct t as [i n pu sq e f su ts p11]. cbn [team_id team_name purse squad
    isEliminated isFinishedBidding submitted11 totalScore playing11].
  destruct p11 as [l | ]; cbn;
    rewrite ?(traverse_map json_of_squadPlayer squadPlayer_of_json _
                squadPlayer_roundtrip);
    cbn;
    rewrite ?(traverse_map json_of_squadPlayer squadPlayer_of_json _
                squadPlayer_roundtrip);
    reflexivity.
Qed.

Lemma phase_roundtrip (p : Phase) : phase_of_json (json_of_phase p) = Some p.
Proof. destruct p; reflexivity. Qed.

Lemma id_roundtrip (o : option string) : id_of_json (json_of_id o) = Some o.
Proof. destruct o; reflexivity. Qed.

Lemma setHas_In (x : string) (l : list string) : setHas x l = true <-> In x l.
Proof.
  unfold setHas. rewrite existsb_exists. split.
  - intros [y [Hy E]]. apply String.eqb_eq in E. subst y. exact Hy.
  - intro H. exists x. split; [ exact H | apply String.eqb_refl ].
Qed.

Lemma setOfList_NoDup (l : list string) : NoDup l -> setOfList l = l.
Proof.
  unfold setOfList.
  assert (H : forall acc, NoDup (acc ++ l) ->
                          fold_left (fun s x => setAdd x s) l acc = acc ++ l).
  { induction l as [ | x rest IH ]; intros acc Hn; simpl.
    - rewrite app_nil_r. reflexivity.
    - assert (Hx : setHas x acc = false).
      { destruct (setHas x acc) eqn:E; [ | reflexivity ].
        apply setHas_In in E. apply NoDup_remove_2 in Hn.
        exfalso. apply Hn. apply in_or_app. left. exact E. }
      unfold setAdd at 2. rewrite Hx.
      rewrite IH; rewrite <- app_assoc; [ reflexivity | exact Hn ]. }
  intro Hn. apply (H [] Hn).
Qed.

Lemma load_clean (r : Room) :
  NoDup (skippedBy (auction r)) ->
  loadRoom (cleanRoom r)
  = Some (set_nextPlayerTimeout false (inAuction (set_timer false) r)).
Proof.
  intro Hn. destruct r as [h sp ts a la npt].
  destruct a as [pool idx bid bidder bo ph sk tl tm]. cbn in Hn.
  unfold loadRoom, cleanRoom. cbn -[Qfloor inject_Z].
  rewrite (traverse_map (fun kt => (fst kt, json_of_team (snd kt)))
             (fun kv => t <- team_of_json (snd kv) ;; Some (fst kv, t))).
  2: { intros [k t]. cbn [fst snd]. rewrite team_roundtrip. reflexivity. }
  cbn -[Qfloor inject_Z].
  rewrite (traverse_map (fun p => JObject (json_of_player p))
             (fun j => bind (getObject j) player_of_fields)).
  2: { intro p. cbn [getObject bind]. apply player_roundtrip. }
  destruct bidder, ph; cbn -[Qfloor inject_Z];
    (rewrite (traverse_map JString getString); [ | reflexivity ]);
    cbn -[Qfloor inject_Z];
    rewrite !Qfloor_Z, Nat2Z.id, (setOfList_NoDup sk Hn); reflexivity.
Qed.

(** ** The lobby and the active bidders *)

Lemma flagged_checkTeam_id (t : Team) : flagged t -> checkTeam t = t.
Proof.
  unfold flagged, checkTeam. intro H.
  destruct (eliminationDue t); [ | reflexivity ].
  specialize (H eq_refl). destruct t. cbn in H. subst. reflexivity.
Qed.

Lemma checkAll_flagged (ts : TeamMap) :
  Forall flagged (teamValues ts) -> checkAll ts = ts.
Proof.
  unfold checkAll, teamValues.
  induction ts as [ | [k t] rest IH ]; simpl; intro H; [ reflexivity | ].
  inversion H; subst. rewrite flagged_checkTeam_id, IH; auto.
Qed.

Lemma checkAuctionCompletion_idle now s :
  phase (auction (fst s)) <> AUCTION -> checkAuctionCompletion now s = s.
Proof.
  intro H. unfold checkAuctionCompletion.
  apply Phase_eqb_neq in H. rewrite H. reflexivity.
Qed.

Lemma checkAuctionCompletion_settled now s :
  phase (auction (fst (checkAuctionCompletion now s))) = AUCTION ->
  activeBidders (fst (checkAuctionCompletion now s)) <> [].
Proof.
  unfold checkAuctionCompletion.
  destruct (negb (Phase_eqb (phase (auction (fst s))) AUCTION)) eqn:Ep.
  { apply negb_true_iff, Phase_eqb_neq in Ep. intro H. congruence. }
  destruct (List.length (activeBidders (fst s)) =? 0)%nat eqn:Ea.
  - cbn. discriminate.
  - intros _ C. rewrite C in Ea. discriminate.
Qed.

Lemma prepareNext_phase now s :
  phase (auction (fst (prepareNext now s))) = phase (auction (fst s)).
Proof. unfold prepareNext. case_goal; reflexivity. Qed.

Lemma teamValues_putTeam_new (uid : string) (t : Team) (ts : TeamMap) :
  getTeam uid ts = None -> teamValues (putTeam uid t ts) = teamValues ts ++ [t].
Proof.
  induction ts as [ | [k t0] rest IH ]; simpl; intro H; [ reflexivity | ].
  destruct (k =? uid)%string; [ discriminate | ].
  simpl. rewrite IH; [ reflexivity | exact H ].
Qed.

Lemma active_putTeam_same (uid : string) (t t1 : Team) (ts : TeamMap) :
  getTeam uid ts = Some t ->
  isActiveBidder t1 = isActiveBidder t ->
  List.length (filter isActiveBidder (teamValues (putTeam uid t1 ts)))
  = List.length (filter isActiveBidder (teamValues ts)).
Proof.
  intros Hg Ha. induction ts as [ | [k t0] rest IH ]; simpl in *; [ discriminate | ].
  destruct (k =? uid)%string.
  - injection Hg as ->. simpl. rewrite Ha. destruct (isActiveBidder t); reflexivity.
  - simpl. destruct (isActiveBidder t0); simpl; rewrite (IH Hg); reflexivity.
Qed.

Lemma fresh_active (ts : TeamMap) :
  Forall fresh (teamValues ts) -> filter isActiveBidder (teamValues ts) = teamValues ts.
Proof.
  induction 1 as [ | t rest (Hs & He & Hf) _ IH ]; simpl; [ reflexivity | ].
  unfold isActiveBidder at 1. rewrite Hs, He, Hf. cbn. rewrite IH. reflexivity.
Qed.

(** Closing a round keeps an active bidder in the auction. *)
Lemma finishPlayerUnsold_active now s :
  Forall flagged (teamValues (teams (fst s))) ->
  teams (fst (finishPlayerUnsold now s)) = teams (fst s)
  /\ phase (auction (fst (finishPlayerUnsold now s))) = phase (auction (fst s)).
Proof.
  intro Hf. unfold finishPlayerUnsold. rewrite prepareNext_phase. split; [ | reflexivity ].
  match goal with
  | |- context [prepareNext now ?x] => destruct (prepareNext_teams now x) as [-> | ->]
  end; cbn [emit upd fst snd inAuction set_auction teams];
    [ reflexivity | apply checkAll_flagged, Hf ].
Qed.

Lemma closing_settles now x :
  Forall flagged (teamValues (teams (fst x))) ->
  phase (auction (fst (prepareNext now (checkAuctionCompletion now x)))) = AUCTION ->
  activeBidders (fst (prepareNext now (checkAuctionCompletion now x))) <> [].
Proof.
  intros Hf Hp.
  rewrite prepareNext_phase in Hp.
  pose proof (checkAuctionCompletion_settled now x Hp) as Ha.
  destruct (checkAuctionCompletion_sameTeams now x) as [Et _].
  unfold activeBidders in *.
  destruct (prepareNext_teams now (checkAuctionCompletion now x)) as [-> | ->].
  - exact Ha.
  - rewrite checkAll_flagged; [ exact Ha | rewrite Et; exact Hf ].
Qed.

Lemma finishBidding_active now s s' :
  finishBidding now s = Done s' ->
  Forall flagged (teamValues (teams (fst s))) ->
  phase (auction (fst s')) = AUCTION ->
  phase (auction (fst s)) = AUCTION
  /\ (teams (fst s') = teams (fst s) \/ activeBidders (fst s') <> []).
Proof.
  intros H Hf Hp.
  assert (Hph : phase (auction (fst s)) = AUCTION).
  { destruct (Phase_eqb (phase (auction (fst s))) AUCTION) eqn:E;
      [ apply Phase_eqb_eq, E | ].
    apply Phase_eqb_neq in E. exfalso.
    assert (Hc : phaseStep (phase (auction (fst s))) (phase (auction (fst s')))).
    { unfold finishBidding in H. cbn [fst snd] in H.
      destruct (getTeam _ _).
      - destruct (Qlt_bool _ _).
        { injection H as <-. left. unfold finishPlayerUnsold.
          rewrite prepareNext_phase. reflexivity. }
        destruct (_ <=? _)%nat.
        { injection H as <-. left. unfold finishPlayerUnsold.
          rewrite prepareNext_phase. reflexivity. }
        destruct (currentPlayer _); [ | discriminate ].
        injection H as <-. rewrite prepareNext_phase.
        match goal with
        | |- context [checkAuctionCompletion now ?x] =>
            destruct (checkAuctionCompletion_flow now x) as (_ & _ & P & _)
        end.
        exact P.
      - injection H as <-. rewrite prepareNext_phase.
        match goal with
        | |- context [checkAuctionCompletion now ?x] =>
            destruct (checkAuctionCompletion_flow now x) as (_ & _ & P & _)
        end.
        exact P. }
    destruct Hc as [Hc | [Hc _]]; congruence. }
  split; [ exact Hph | ].
  unfold finishBidding in H. cbn [fst snd] in H.
  destruct (getTeam _ _) as [team | ].
  - destruct (Qlt_bool _ _).
    { injection H as <-. left.
      apply (finishPlayerUnsold_active now (upd (inAuction (set_biddingOpen false)) s)).
      exact Hf. }
    destruct (_ <=? _)%nat.
    { injection H as <-. left.
      apply (finishPlayerUnsold_active now (upd (inAuction (set_biddingOpen false)) s)).
      exact Hf. }
    destruct (currentPlayer _) as [p | ]; [ | discriminate ].
    injection H as <-. right.
    match goal with
    | |- context [prepareNext now (checkAuctionCompletion now ?x)] =>
        apply (closing_settles now x); [ | exact Hp ]
    end.
    cbn [emit checkEliminations upd fst snd set_teams teams].
    apply Forall_checkAll, flagged_checkTeam.
  - injection H as <-. right.
    match goal with
    | |- context [prepareNext now (checkAuctionCompletion now ?x)] =>
        apply (closing_settles now x); [ | exact Hp ]
    end.
    exact Hf.
Qed.

Lemma closeRound_active now s s' :
  closeRound now s = Done s' ->
  Forall flagged (teamValues (teams (fst s))) ->
  phase (auction (fst s')) = AUCTION ->
  phase (auction (fst s)) = AUCTION
  /\ (teams (fst s') = teams (fst s) \/ activeBidders (fst s') <> []).
Proof.
  unfold closeRound. destruct (truthyId _).
  - apply finishBidding_active.
  - intros [= <-] Hf Hp.
    destruct (finishPlayerUnsold_active now s Hf) as [Et Ep].
    split; [ congruence | left; exact Et ].
Qed.

(** *** The shape of the handlers that change the teams *)

Lemma joinRoom_shape now teamName userId s :
  (teams (fst (joinRoom now teamName userId s)) = checkAll (teams (fst s))
   \/ (getTeam userId (teams (fst s)) = None
       /\ teams (fst (joinRoom now teamName userId s))
          = checkAll (putTeam userId
                        (newTeam userId (teamNameOr teamName) (startingPurse (fst s)))
                        (teams (fst s))))).
Proof.
  unfold joinRoom.
  destruct (getTeam userId (teams (fst s))) as [team | ] eqn:E;
    cbn [updateRoomActivity upd emit fst snd set_teams set_lastActivity teams
         startingPurse hostId].
  - rewrite E.
    cbn [checkEliminations upd emit fst snd set_teams teams startingPurse].
    match goal with
    | |- context [replayState false ?x] =>
        destruct (replayState_sameTeams false x) as [-> _]
    end.
    left. reflexivity.
  - rewrite getTeam_putTeam, String.eqb_refl.
    cbn [checkEliminations upd emit fst snd set_teams teams startingPurse].
    match goal with
    | |- context [replayState false ?x] =>
        destruct (replayState_sameTeams false x) as [-> _]
    end.
    right. split; reflexivity.
Qed.

Lemma leaveRoom_shape now userId s s' :
  leaveRoom now userId s = Some s' ->
  exists x, s' = checkAuctionCompletion now x
            /\ auction (fst x) = auction (fst s)
            /\ teams (fst x) = deleteTeam userId (teams (fst s)).
Proof.
  unfold leaveRoom. cbn [fst snd upd]. intro H.
  destruct (_ =? userId)%string.
  - destruct (teamKeys _); [ discriminate | ].
    injection H as <-. eexists. split; [ reflexivity | ]. split; reflexivity.
  - injection H as <-. eexists. split; [ reflexivity | ]. split; reflexivity.
Qed.

Lemma finishBiddingForMe_shape now userId s :
  finishBiddingForMe now userId s = s
  \/ exists x, finishBiddingForMe now userId s = checkAuctionCompletion now x
               /\ auction (fst x) = auction (fst s).
Proof.
  unfold finishBiddingForMe.
  destruct (getTeam _ _); [ | left; reflexivity ].
  destruct (_ && _)%bool; [ | left; reflexivity ].
  right. eexists. split; reflexivity.
Qed.

Lemma submit_shape now playerIds cId vcId userId s :
  let s' := submitPlaying11 now playerIds cId vcId userId s in
  s' = s
  \/ exists team t1,
       getTeam userId (teams (fst s)) = Some team
       /\ teams (fst s') = putTeam userId t1 (teams (fst s))
       /\ isActiveBidder t1 = isActiveBidder team
       /\ squad t1 = squad team
       /\ isEliminated t1 = isEliminated team
       /\ isFinishedBidding t1 = isFinishedBidding team
       /\ (auction (fst s') = auction (fst s)
           \/ auction (fst s') = set_phase RESULT (auction (fst s))).
Proof.
  cbv zeta. unfold submitPlaying11.
  destruct (getTeam userId (teams (fst s))) as [team | ] eqn:Et; [ | left; reflexivity ].
  destruct playerIds as [ids | ]; [ | left; reflexivity ].
  repeat (case_goal; try (left; reflexivity));
    right; eexists; eexists; (split; [ reflexivity | ]);
    cbn; (split; [ reflexivity | ]);
    repeat split; first [ left; reflexivity | right; reflexivity ].
Qed.

Lemma startAuction_shape now caller s :
  startAuction now caller s = s
  \/ (phase (auction (fst s)) = LOBBY
      /\ teams (fst (startAuction now caller s)) = teams (fst s)
      /\ (phase (auction (fst (startAuction now caller s))) = AUCTION
          \/ phase (auction (fst (startAuction now caller s))) = SELECTION)).
Proof.
  unfold startAuction.
  destruct caller as [userId | ]; [ | left; reflexivity ].
  destruct (negb (hostId (fst s) =? userId)%string); [ left; reflexivity | ].
  destruct (negb (Phase_eqb (phase (auction (fst s))) LOBBY)) eqn:El;
    [ left; reflexivity | ].
  apply negb_false_iff, Phase_eqb_eq in El. right. split; [ exact El | ].
  match goal with
  | |- context [startNextPlayer now ?x] =>
      destruct (startNextPlayer_flow now x) as (_ & P & _);
      destruct (startNextPlayer_sameTeams now x) as [-> _]
  end.
  split; [ reflexivity | ].
  cbn [updateRoomActivity emit upd fst snd inAuction set_auction set_lastActivity
       auction set_phase phase] in P.
  destruct P as [-> | [_ ->]]; auto.
Qed.

Lemma placeBid_closed now bidAmount userId s :
  biddingOpen (auction (fst s)) = false -> placeBid now bidAmount userId s = Done s.
Proof. intro H. unfold placeBid. rewrite H. reflexivity. Qed.

Lemma skip_closed now userId r :
  biddingOpen (auction r) = false -> handle now (SkipForMe userId) r = Live r [].
Proof. intro H. rewrite skip_eq. unfold mayVote. rewrite H. reflexivity. Qed.

Lemma nextPlayerTimeoutFired_idle now s :
  phase (auction (fst s)) <> AUCTION ->
  nextPlayerTimeoutFired now s = upd (set_nextPlayerTimeout false) s.
Proof.
  intro H. unfold nextPlayerTimeoutFired.
  change (phase (auction (fst (upd (set_nextPlayerTimeout false) s))))
    with (phase (auction (fst s))).
  apply Phase_eqb_neq in H. rewrite H. reflexivity.
Qed.

(** *** The lobby *)

Lemma handle_lobby (now : Z) (ev : Event) (r r' : Room) (out : list Out) :
  phase (auction r) = LOBBY -> closed (auction r) ->
  enabled ev r = true ->
  handle now ev r = Live r' out ->
  phase (auction r') = LOBBY ->
  closed (auction r')
  /\ (teams r' = teams r
      \/ teamsStep ev r r' /\ sells ev = false).
Proof.
  intros Hp Hc He H Hp'.
  assert (Hn : phase (auction r) <> AUCTION) by congruence.
  destruct ev; cbn [enabled] in He;
    try (rewrite skip_closed in H by apply Hc);
    unfold handle, live in H; cbv zeta in H.
  - apply Live_inj in H. destruct H as [<- _].
    rewrite (rejoinGame_sameAuction now userId (r, [])).
    destruct (rejoinGame_sameTeams now userId (r, [])) as [-> _]. auto.
  - pose proof H as H0. apply Live_inj in H. destruct H as [<- _].
    rewrite (joinRoom_sameAuction now teamName userId (r, [])).
    split; [ exact Hc | right ]. split; [ | reflexivity ].
    exact (proj1 (handle_teams now (JoinRoom teamName userId) r _ out H0)).
  - destruct (leaveRoom now userId (r, [])) as [s' | ] eqn:E; [ | discriminate ].
    pose proof (leaveRoom_teams _ _ _ _ E) as [Et _].
    apply leaveRoom_shape in E. destruct E as (x & -> & Ea & _).
    apply Live_inj in H. destruct H as [<- _].
    rewrite checkAuctionCompletion_idle in * by (rewrite Ea; exact Hn).
    rewrite Ea. split; [ exact Hc | right ]. split; [ exact Et | reflexivity ].
  - pose proof H as H0. apply Live_inj in H. destruct H as [<- _].
    split; [ | right; split;
               [ exact (proj1 (handle_teams now (FinishBiddingForMe userId) r _ out H0))
               | reflexivity ] ].
    destruct (finishBiddingForMe_shape now userId (r, [])) as [-> | (x & -> & Ea)].
    + exact Hc.
    + rewrite checkAuctionCompletion_idle by (rewrite Ea; exact Hn).
      rewrite Ea. exact Hc.
  - apply Live_inj in H. destruct H as [<- _].
    destruct (startAuction_shape now caller (r, [])) as [E | (_ & _ & [E | E])].
    + rewrite E. auto.
    + congruence.
    + congruence.
  - rewrite placeBid_closed in H by apply Hc.
    apply Live_inj in H. destruct H as [<- _]. auto.
  - apply Live_inj in H. destruct H as [<- _]. auto.
  - pose proof H as H0. apply Live_inj in H. destruct H as [<- _].
    split; [ | right; split;
               [ exact (proj1 (handle_teams now
                                 (SubmitPlaying11 playerIds cId vcId userId) r _ out H0))
               | reflexivity ] ].
    destruct (submit_shape now playerIds cId vcId userId (r, []))
      as [-> | (team & t1 & _ & _ & _ & _ & _ & _ & [-> | E])].
    + exact Hc.
    + exact Hc.
    + rewrite E in Hp'. discriminate.
  - destruct Hc as [_ Ht]. congruence.
  - apply Live_inj in H. destruct H as [<- _].
    rewrite nextPlayerTimeoutFired_idle by exact Hn. auto.
Qed.

Lemma fresh_checkTeam (t : Team) : flagged t -> fresh t -> fresh (checkTeam t).
Proof. intros Hf H. rewrite flagged_checkTeam_id; assumption. Qed.

Lemma teamsChange_fresh (sp price : Q) (onBlock : option Player) (ts ts' : TeamMap) :
  teamsChange false sp price onBlock ts ts' ->
  BID_INCREMENT <= sp ->
  Forall flagged (teamValues ts) ->
  Forall fresh (teamValues ts) -> Forall fresh (teamValues ts').
Proof.
  intros H Hsp Hf Hts. destruct H.
  - exact Hts.
  - rewrite checkAll_flagged; assumption.
  - discriminate.
  - assert (Hn : flagged (newTeam uid teamName sp)).
    { unfold flagged, eliminationDue. cbn.
      apply Qlt_bool_false in Hsp. rewrite Hsp. discriminate. }
    rewrite checkAll_flagged.
    + apply Forall_putTeam; [ | exact Hts ]. repeat split.
    + apply Forall_putTeam; assumption.
  - pose proof (Forall_getTeam fresh _ _ _ Hts H) as (Hs & _).
    rewrite Hs in H1. cbn in H1. unfold MIN_SQUAD_TO_PLAY in H1. lia.
  - apply Forall_putTeam; [ | exact Hts ].
    exact (Forall_getTeam fresh _ _ _ Hts H).
Qed.

Lemma handle_lobbyInv (now : Z) (ev : Event) (r r' : Room) (out : list Out) :
  teamsInv r -> lobbyInv r ->
  enabled ev r = true ->
  handle now ev r = Live r' out ->
  lobbyInv r'.
Proof.
  intros (Hsp & _ & _ & Hf) Hl He H Hp'.
  assert (Hp : phase (auction r) = LOBBY).
  { destruct (handle_auction _ _ _ _ _ H) as (_ & Hm & _).
    apply phaseMove_rank in Hm. rewrite Hp' in Hm.
    destruct (phase (auction r)); cbn in Hm; try lia. reflexivity. }
  destruct (Hl Hp) as [Hc Hfr].
  destruct (handle_lobby now ev r r' out Hp Hc He H Hp') as [Hc' [Et | [Hs Hse]]].
  - split; [ exact Hc' | rewrite Et; exact Hfr ].
  - split; [ exact Hc' | ].
    unfold teamsStep in Hs. rewrite Hse in Hs.
    destruct (leaver ev).
    + rewrite Hs. apply Forall_deleteTeam, Hfr.
    + apply (teamsChange_fresh _ _ _ _ _ Hs); try assumption.
      apply Qle_trans with 50; [ discriminate | exact Hsp ].
Qed.

(** *** An active bidder during the auction *)

Lemma handle_activeInv (now : Z) (ev : Event) (r r' : Room) (out : list Out) :
  teamsInv r -> lobbyInv r -> activeInv r ->
  enabled ev r = true ->
  handle now ev r = Live r' out ->
  activeInv r'.
Proof.
  intros (Hsp & _ & _ & Hf) Hl Ha He H Hp'.
  unfold activeBidders in *.
  destruct ev.
  - unfold handle, live in H. cbv zeta in H.
    apply Live_inj in H. destruct H as [<- _].
    rewrite (rejoinGame_sameAuction now userId (r, [])) in Hp'.
    destruct (rejoinGame_sameTeams now userId (r, [])) as [-> _]. exact (Ha Hp').
  - unfold handle, live in H. cbv zeta in H.
    apply Live_inj in H. destruct H as [<- _].
    rewrite (joinRoom_sameAuction now teamName userId (r, [])) in Hp'.
    destruct (joinRoom_shape now teamName userId (r, [])) as [-> | [Hn ->]];
      cbn [fst] in *.
    + rewrite checkAll_flagged by exact Hf. exact (Ha Hp').
    + assert (Hnew : flagged (newTeam userId (teamNameOr teamName) (startingPurse r))).
      { unfold flagged, eliminationDue. cbn.
        assert (E : Qlt_bool (startingPurse r) BID_INCREMENT = false).
        { apply Qlt_bool_false. apply Qle_trans with 50; [ discriminate | exact Hsp ]. }
        rewrite E. discriminate. }
      rewrite checkAll_flagged by (apply Forall_putTeam; assumption).
      right. rewrite teamValues_putTeam_new by exact Hn.
      rewrite filter_app. cbn. intro C. apply app_eq_nil in C. destruct C as [_ C].
      discriminate C.
  - unfold handle, live in H. cbv zeta in H.
    destruct (leaveRoom now userId (r, [])) as [s' | ] eqn:E; [ | discriminate ].
    apply leaveRoom_shape in E. destruct E as (x & -> & _ & _).
    apply Live_inj in H. destruct H as [<- _].
    right. exact (checkAuctionCompletion_settled now x Hp').
  - unfold handle, live in H. cbv zeta in H.
    apply Live_inj in H. destruct H as [<- _].
    destruct (finishBiddingForMe_shape now userId (r, [])) as [E | (x & E & _)];
      rewrite E in *.
    + exact (Ha Hp').
    + right. exact (checkAuctionCompletion_settled now x Hp').
  - unfold handle, live in H. cbv zeta in H.
    apply Live_inj in H. destruct H as [<- _].
    destruct (startAuction_shape now caller (r, [])) as [E | (Hp & Et & _)].
    + rewrite E in *. exact (Ha Hp').
    + rewrite Et. cbn [fst] in *. destruct (Hl Hp) as [_ Hfr].
      rewrite (fresh_active _ Hfr).
      destruct (teams r); [ left; reflexivity | right; discriminate ].
  - unfold handle, live in H. cbv zeta in H.
    destruct (placeBid now bidAmount userId (r, [])) as [s' | ] eqn:E; [ | discriminate ].
    apply Live_inj in H. destruct H as [<- _].
    destruct (placeBid_sameTeams _ _ _ _ _ E) as [-> _].
    destruct (placeBid_step _ _ _ _ _ E) as (_ & Ep & _).
    rewrite Ep in Hp'. exact (Ha Hp').
  - rewrite skip_eq in H.
    destruct (mayVote userId r).
    + destruct (skipQuorum (voted userId r)).
      * unfold live in H.
        destruct (closeRound now _) as [s' | ] eqn:E; [ | discriminate ].
        apply Live_inj in H. destruct H as [<- _].
        destruct (closeRound_active now _ _ E Hf Hp') as [Hp [Et | Hact]].
        -- rewrite Et. exact (Ha Hp).
        -- right. exact Hact.
      * apply Live_inj in H. destruct H as [<- _]. exact (Ha Hp').
    + apply Live_inj in H. destruct H as [<- _]. exact (Ha Hp').
  - unfold handle, live in H. cbv zeta in H.
    apply Live_inj in H. destruct H as [<- _].
    destruct (submit_shape now playerIds cId vcId userId (r, []))
      as [E | (team & t1 & Hg & Et & Hact & _ & _ & _ & [Ea | Ea])].
    + rewrite E in *. exact (Ha Hp').
    + rewrite Ea in Hp'. rewrite Et. cbn [fst] in *. right.
      destruct (Ha Hp') as [C | C]; [ rewrite C in Hg; discriminate | ].
      intro D. apply C. apply length_zero_iff_nil.
      pose proof (active_putTeam_same userId team t1 (teams r) Hg Hact) as L.
      rewrite D in L. symmetry. exact L.
    + rewrite Ea in Hp'. discriminate.
  - rewrite tick_eq in H.
    destruct (timeLeft (auction r) - 1 <=? 0)%Z.
    + unfold live in H.
      destruct (closeRound now _) as [s' | ] eqn:E; [ | discriminate ].
      apply Live_inj in H. destruct H as [<- _].
      destruct (closeRound_active now _ _ E Hf Hp') as [Hp [Et | Hact]].
      * rewrite Et. exact (Ha Hp).
      * right. exact Hact.
    + apply Live_inj in H. destruct H as [<- _]. exact (Ha Hp').
  - unfold handle, live in H. cbv zeta in H.
    apply Live_inj in H. destruct H as [<- _].
    destruct (nextPlayerTimeoutFired_sameTeams now (r, [])) as [-> _].
    destruct (nextPlayerTimeoutFired_flow now (r, [])) as (_ & [E | [E _]] & _).
    + rewrite E in Hp'. exact (Ha Hp').
    + exact (Ha E).
Qed.

Lemma createRoom_gameInv now teamName purse userId initialPool :
  gameInv (fst (createRoom now teamName purse userId initialPool)).
Proof.
  split; [ apply createRoom_teamsInv | ].
  unfold createRoom. cbn [getTeam teams fst]. rewrite String.eqb_refl.
  cbn [emit fst snd]. split.
  - intros _. split; [ split; reflexivity | ].
    constructor; [ repeat split | constructor ].
  - intro C. discriminate C.
Qed.

Lemma handle_gameInv now ev r r' out :
  gameInv r -> enabled ev r = true -> handle now ev r = Live r' out -> gameInv r'.
Proof.
  intros (Ht & Hl & Ha) He H.
  split; [ exact (handle_teamsInv _ _ _ _ _ Ht H) | ].
  split.
  - exact (handle_lobbyInv _ _ _ _ _ Ht Hl He H).
  - exact (handle_activeInv _ _ _ _ _ Ht Hl Ha He H).
Qed.

Lemma reachable_gameInv (r : Room) : reachable r -> gameInv r.
Proof.
  intros (now & teamName & purse & userId & initialPool & evs & H).
  apply (run_invariant gameInv) with (3 := H).
  - intros. eapply handle_gameInv; eassumption.
  - apply createRoom_gameInv.
Qed.


(** In the lobby no lineup is taken: the squads are empty. *)
Lemma lobby_no_result (now : Z) (ev : Event) (r r' : Room) (out : list Out) :
  reachable r -> phase (auction r) = LOBBY ->
  handle now ev r = Live r' out ->
  phase (auction r') <> RESULT.
Proof.
  intros Hr Hp H Hp'.
  destruct (handle_auction _ _ _ _ _ H) as (_ & Hm & _).
  destruct Hm as [[E | [E _]] | [(_ & _ & [E | E]) | (_ & _ & ids & cId & vcId & uid & ->)]];
    try congruence.
  apply reachable_gameInv in Hr. destruct Hr as (_ & Hl & _).
  destruct (Hl Hp) as [_ Hfr].
  apply submit_inv in H.
  destruct H as [[-> _] | (team & l & captain & vc & _ & Hacc & _)]; [ congruence | ].
  destruct Hacc as (Hg & _ & _ & _ & Hc & _).
  pose proof (Forall_getTeam fresh _ _ _ Hfr Hg) as (Hs & _).
  unfold selectedPlayers in Hc. rewrite Hs in Hc. discriminate Hc.
Qed.

Lemma run_app (l1 l2 : list (Z * Event)) (r : Room) :
  run (l1 ++ l2) r = match run l1 r with Some r1 => run l2 r1 | None => None end.
Proof.
  revert r. induction l1 as [ | [now ev] rest IH ]; intro r; cbn; [ reflexivity | ].
  destruct (enabled ev r); [ | reflexivity ].
  destruct (handle now ev r); try reflexivity. apply IH.
Qed.

Lemma reachable_run (evs : list (Z * Event)) (r r' : Room) :
  reachable r -> run evs r = Some r' -> reachable r'.
Proof.
  intros (now & teamName & purse & userId & initialPool & evs0 & H0) H.
  exists now, teamName, purse, userId, initialPool, (evs0 ++ evs).
  rewrite run_app, H0. exact H.
Qed.

(** A user who leaves and joins again has a new team. *)
Lemma leave_join_fresh (now now' : Z) (teamName uid : string) (r r1 : Room)
    (out1 : list Out) :
  50 <= startingPurse r ->
  handle now (LeaveRoom uid) r = Live r1 out1 ->
  exists r2 out2,
    handle now' (JoinRoom teamName uid) r1 = Live r2 out2
    /\ getTeam uid (teams r2)
       = Some (newTeam uid (teamNameOr teamName) (startingPurse r)).
Proof.
  intros Hsp H. unfold handle, live in H. cbv zeta in H.
  destruct (leaveRoom now uid (r, [])) as [s1 | ] eqn:E; [ | discriminate ].
  apply Live_inj in H. destruct H as [<- _].
  destruct (leaveRoom_teams _ _ _ _ E) as [Et Es]. cbn [fst] in Et, Es.
  assert (Hg : getTeam uid (teams (fst s1)) = None).
  { rewrite Et, getTeam_deleteTeam, String.eqb_refl. reflexivity. }
  exists (fst (joinRoom now' teamName uid (fst s1, []))),
         (snd (joinRoom now' teamName uid (fst s1, []))).
  split; [ reflexivity | ].
  unfold joinRoom, checkEliminations. cbn [fst snd upd emit updateRoomActivity].
  rewrite Hg. cbn [fst snd upd emit teams set_lastActivity set_teams].
  rewrite getTeam_putTeam, String.eqb_refl.
  assert (Hr : forall b s, teams (fst (replayState b s)) = teams (fst s)).
  { intros b s. apply (replayState_sameTeams b s). }
  rewrite Hr. cbn [fst snd emit upd updateRoomActivity teams set_teams set_lastActivity].
  rewrite getTeam_map, getTeam_putTeam, String.eqb_refl. cbn [option_map].
  rewrite Es. f_equal. unfold checkTeam, eliminationDue. cbn [purse newTeam].
  assert (Ef : Qlt_bool (startingPurse r) BID_INCREMENT = false).
  { apply Qlt_bool_false. apply Qle_trans with 50; [ discriminate | exact Hsp ]. }
  rewrite Ef. reflexivity.
Qed.

(** * The claims *)

Lemma reachable_after (evs : list (Z * Event)) now teamName purse userId initialPool :
  run evs (fst (createRoom now teamName purse userId initialPool)) <> None ->
  reachable (after evs (fst (createRoom now teamName purse userId initialPool))).
Proof.
  intro H. exists now, teamName, purse, userId, initialPool, evs.
  unfold after. destruct (run evs _); [ reflexivity | congruence ].
Qed.

(** ** C1: validation of bids *)




(** ** C8: what an accepted bid changes *)

(** C8, counterexample. A bid of 1.234 is taken, and the current bid
    becomes 1.23, not the bid amount. *)
Lemma placeBid_amount_counterexample :
  handle 2 (PlaceBid (JNum (1234 # 1000)) "u1") demoOpen
  = Live (bidTaken 2 demoOpen "u1" (1234 # 1000))
         [ToRoom (BidUpdated (123 # 100) "u1" "A")]
  /\ currentBid (auction (bidTaken 2 demoOpen "u1" (1234 # 1000))) = 123 # 100
  /\ ~ (123 # 100) == (1234 # 1000).
Proof.
  split; [ vm_compute; reflexivity | ].
  split; [ vm_compute; reflexivity | ].
  intro H. vm_compute in H. discriminate H.
Qed.

(** C8, as amended. An accepted bid (one that is broadcast) sets the
    current bid to the amount rounded to two decimals, which is the
    amount itself when that is a whole number of hundredths; it makes
    the bidder the leader, empties the skip set and restarts the
    countdown at 10 seconds; nothing else in the room changes but the
    activity stamp. *)
Theorem placeBid_effect (now : Z) (bidAmount : jsnum) (userId : string)
    (r r' : Room) (out : list Out) :
  handle now (PlaceBid bidAmount userId) r = Live r' out ->
  out <> [] ->
  exists amount,
    bidAmount = JNum amount
    /\ currentBid (auction r') = toFixed2 amount
    /\ (isCents amount -> currentBid (auction r') == amount)
    /\ currentBidderId (auction r') = Some userId
    /\ skippedBy (auction r') = []
    /\ timeLeft (auction r') = 10%Z
    /\ timer (auction r') = true
    /\ r' = bidTaken now r userId amount.
Proof.
  intros H Hout. apply placeBid_inv in H.
  destruct H as [[_ ->] | (team & amount & p & -> & _ & -> & _)]; [ congruence | ].
  exists amount. cbn. repeat split.
  intros [k Hk]. rewrite (toFixed2_comp _ _ Hk), Hk. apply toFixed2_cents.
Qed.

Lemma placeBid_effect_witness :
  exists amount,
    JNum (6 # 5) = JNum amount
    /\ currentBid (auction (bidTaken 2 demoOpen "u1" (6 # 5))) = toFixed2 amount
    /\ (isCents amount ->
        currentBid (auction (bidTaken 2 demoOpen "u1" (6 # 5))) == amount)
    /\ currentBidderId (auction (bidTaken 2 demoOpen "u1" (6 # 5))) = Some "u1"
    /\ skippedBy (auction (bidTaken 2 demoOpen "u1" (6 # 5))) = []
    /\ timeLeft (auction (bidTaken 2 demoOpen "u1" (6 # 5))) = 10%Z
    /\ timer (auction (bidTaken 2 demoOpen "u1" (6 # 5))) = true
    /\ bidTaken 2 demoOpen "u1" (6 # 5) = bidTaken 2 demoOpen "u1" amount.
Proof.
  apply (placeBid_effect 2 (JNum (6 # 5)) "u1" demoOpen _
           [ToRoom (BidUpdated (120 # 100) "u1" "A")]).
  - vm_compute. reflexivity.
  - discriminate.
Defined.

(** ** C4: purses stay non-negative *)



(** ** C3: elimination *)

(** C3, counterexample. "u1" is eliminated. A second user joins, "u1"
    leaves the room and joins it again: [leave-room] has deleted the
    team and [join-room] makes a new one, with the starting purse of 50,
    no player and no flag. *)
Lemma elimination_reset_counterexample :
  reachable demoEliminated
  /\ option_map (fun t => (purse t, List.length (squad t), isEliminated t))
                (getTeam "u1" (teams demoEliminated))
     = Some (20 # 100, 1%nat, true)
  /\ exists r',
       run [(5%Z, JoinRoom "B" "u2"); (6%Z, LeaveRoom "u1"); (7%Z, JoinRoom "A" "u1")]
           demoEliminated = Some r'
       /\ reachable r'
       /\ getTeam "u1" (teams r') = Some (newTeam "u1" "A" 50)
       /\ isEliminated (newTeam "u1" "A" 50) = false.
Proof.
  assert (Hr : reachable demoEliminated).
  { apply reachable_after. vm_compute. discriminate. }
  split; [ exact Hr | ].
  split; [ vm_compute; reflexivity | ].
  destruct (run [(5%Z, JoinRoom "B" "u2"); (6%Z, LeaveRoom "u1"); (7%Z, JoinRoom "A" "u1")]
                demoEliminated) as [ r' | ] eqn:E; [ | vm_compute in E; discriminate E ].
  exists r'. split; [ reflexivity | ].
  split; [ exact (reachable_run _ _ _ Hr E) | ].
  split; [ | reflexivity ].
  vm_compute in E. injection E as <-. reflexivity.
Qed.

(** C3, as amended. [checkEliminations] visits every team and raises
    the flag of a team whose purse is below the increment while its
    squad is below the minimum size, and touches no other flag. In one
    step the flag of a team goes from unset to set only when the team
    then meets that condition, and a set flag is never unset; over any
    run a team whose user does not leave the room keeps a set flag. In
    a reachable room every team that meets the condition carries the
    flag. A user who leaves a reachable room and joins it again, under
    an id that is not the name of an inherited property, has a new team
    with the starting purse and without the flag. *)
Theorem elimination_rule :
  (forall s uid,
      getTeam uid (teams (fst (checkEliminations s)))
      = option_map checkTeam (getTeam uid (teams (fst s))))
  /\ (forall t,
         isEliminated (checkTeam t)
         = (isEliminated t
            || (Qlt_bool (purse t) BID_INCREMENT
                && (List.length (squad t) <? MIN_SQUAD_TO_PLAY)%nat))%bool)
  /\ (forall now ev r r' out uid t t',
         handle now ev r = Live r' out ->
         getTeam uid (teams r) = Some t ->
         getTeam uid (teams r') = Some t' ->
         (isEliminated t = true -> isEliminated t' = true)
         /\ (isEliminated t = false -> isEliminated t' = true ->
             purse t' < BID_INCREMENT
             /\ (List.length (squad t') < MIN_SQUAD_TO_PLAY)%nat))
  /\ (forall evs r r' uid t,
         run evs r = Some r' ->
         (forall now, ~ In (now, LeaveRoom uid) evs) ->
         getTeam uid (teams r) = Some t ->
         isEliminated t = true ->
         exists t', getTeam uid (teams r') = Some t' /\ isEliminated t' = true)
  /\ (forall r t,
         reachable r ->
         In t (teamValues (teams r)) ->
         purse t < BID_INCREMENT ->
         (List.length (squad t) < MIN_SQUAD_TO_PLAY)%nat ->
         isEliminated t = true)
  /\ (forall now now' teamName r r1 out1 uid,
         reachable r ->
         inherited uid = false ->
         handle now (LeaveRoom uid) r = Live r1 out1 ->
         exists r2 out2,
           handle now' (JoinRoom teamName uid) r1 = Live r2 out2
           /\ getTeam uid (teams r2)
              = Some (newTeam uid (teamNameOr teamName) (startingPurse r))
           /\ isEliminated (newTeam uid (teamNameOr teamName) (startingPurse r)) = false).
Proof.
  split; [ | split; [ | split; [ | split; [ | split ] ] ] ].
  - intros s uid. unfold checkEliminations. cbn [upd fst set_teams teams].
    apply getTeam_map.
  - intro t. apply checkTeam_isEliminated.
  - intros now ev r r' out uid t t' H Ht Ht'.
    destruct (handle_flag _ _ _ _ _ _ _ _ H Ht Ht') as [E | (E1 & E2 & E3)].
    + split; [ congruence | ]. intros. congruence.
    + split; [ congruence | ]. intros _ _. apply eliminationDue_true, E3.
  - apply run_keeps_flag.
  - intros r t Hr Hin Hp Hs. apply reachable_teamsInv in Hr.
    destruct Hr as (_ & _ & _ & Hf). rewrite Forall_forall in Hf.
    apply (Hf t Hin). apply eliminationDue_true. split; assumption.
  - intros now now' teamName r r1 out1 uid Hr _ H.
    apply reachable_teamsInv in Hr. destruct Hr as (Hsp & _).
    destruct (leave_join_fresh now now' teamName uid r r1 out1 Hsp H)
      as (r2 & out2 & H2 & Hg).
    exists r2, out2. split; [ exact H2 | ]. split; [ exact Hg | reflexivity ].
Qed.

Lemma elimination_rule_witness :
  reachable demoEliminated
  /\ option_map (fun t => (purse t, List.length (squad t), isEliminated t))
                (getTeam "u1" (teams demoEliminated))
     = Some (20 # 100, 1%nat, true)
  /\ exists t',
       getTeam "u1" (teams (after [(5%Z, JoinRoom "B" "u2"); (6%Z, RejoinGame "u1")]
                                  demoEliminated)) = Some t'
       /\ isEliminated t' = true.
Proof.
  split; [ apply reachable_after; vm_compute; discriminate | ].
  split; [ vm_compute; reflexivity | ].
  destruct elimination_rule as (_ & _ & _ & Hkeep & _).
  refine (Hkeep [(5%Z, JoinRoom "B" "u2"); (6%Z, RejoinGame "u1")] demoEliminated _ "u1"
            (mkTeam "u1" "A" (20 # 100)
               [mkSquadPlayer (demoPlayer "p1" "India" 80 (1 # 5)) (4980 # 100)]
               true false false 0 None) _ _ _ _).
  - vm_compute. reflexivity.
  - intros now [C | [C | []]]; discriminate C.
  - vm_compute. reflexivity.
  - reflexivity.
Defined.

(** ** C7: the phases *)

(** C7, counterexample. A team that has bought two players hands in a
    lineup while the third round is open: being the only team, it takes
    the room from AUCTION straight to RESULT. *)
Lemma result_from_auction_counterexample :
  reachable demoTwoBought
  /\ phase (auction demoTwoBought) = AUCTION
  /\ biddingOpen (auction demoTwoBought) = true
  /\ exists r' out,
       handle 8 (SubmitPlaying11 (Some ["p1"; "p2"]) "p1" "p2" "u1") demoTwoBought
       = Live r' out
       /\ phase (auction r') = RESULT.
Proof.
  split; [ apply reachable_after; vm_compute; discriminate | ].
  split; [ vm_compute; reflexivity | ].
  split; [ vm_compute; reflexivity | ].
  eexists. eexists. split; [ vm_compute; reflexivity | reflexivity ].
Qed.

(** C7, as amended. The phase never moves backward along LOBBY, AUCTION,
    SELECTION, RESULT, so no phase is entered again once it has been
    left. In one step the phase stays, or goes from AUCTION to SELECTION,
    or leaves LOBBY when the host starts the auction, or becomes RESULT.
    It becomes RESULT only by a lineup submission after which every team
    that is not eliminated has submitted; the handler does not look at
    the phase, so this happens from SELECTION and also from AUCTION. It
    does not happen from LOBBY in a room reached from its creation: the
    squads are empty there, and no lineup is taken. *)
Theorem phase_forward :
  (forall now ev r r' out,
      handle now ev r = Live r' out ->
      (phaseRank (phase (auction r)) <= phaseRank (phase (auction r')))%nat
      /\ phaseMove ev r r'
      /\ (phase (auction r) <> RESULT -> phase (auction r') = RESULT ->
          allSubmitted r' = true
          /\ exists playerIds cId vcId userId,
               ev = SubmitPlaying11 playerIds cId vcId userId))
  /\ (forall evs1 evs2 r r1 r2,
         run evs1 r = Some r1 -> run evs2 r1 = Some r2 ->
         phase (auction r2) = phase (auction r) ->
         phase (auction r1) = phase (auction r))
  /\ (forall now ev r r' out,
         reachable r -> phase (auction r) = LOBBY ->
         handle now ev r = Live r' out ->
         phase (auction r') <> RESULT).
Proof.
  split; [ | split ].
  - intros now ev r r' out H.
    destruct (handle_auction _ _ _ _ _ H) as (_ & Hm & _).
    split; [ apply (phaseMove_rank ev), Hm | ]. split; [ exact Hm | ].
    intros Hn Hr.
    destruct Hm as [[E | [_ E]] | [(_ & _ & [E | E]) | (_ & Ha & He)]];
      try congruence.
    split; assumption.
  - intros evs1 evs2 r r1 r2 H1 H2 E.
    apply run_rank in H1. apply run_rank in H2. rewrite E in H2.
    apply phaseRank_inj. lia.
  - intros now ev r r' out Hr Hp H. exact (lobby_no_result now ev r r' out Hr Hp H).
Qed.

Lemma phase_forward_witness :
  handle 8 (SubmitPlaying11 (Some ["p1"; "p2"]) "p1" "p2" "u1") demoTwoBought
  = Live (after [(8%Z, SubmitPlaying11 (Some ["p1"; "p2"]) "p1" "p2" "u1")] demoTwoBought)
         [ToRoom (GameOverResults
                    (hd_error (rankings (after [(8%Z, SubmitPlaying11 (Some ["p1"; "p2"])
                                                        "p1" "p2" "u1")] demoTwoBought)))
                    (rankings (after [(8%Z, SubmitPlaying11 (Some ["p1"; "p2"])
                                              "p1" "p2" "u1")] demoTwoBought)))]
  /\ (phaseRank AUCTION <= phaseRank RESULT)%nat
  /\ allSubmitted (after [(8%Z, SubmitPlaying11 (Some ["p1"; "p2"]) "p1" "p2" "u1")]
                         demoTwoBought) = true
  /\ phase (auction demoLobby) = LOBBY
  /\ handle 1 (SubmitPlaying11 (Some []) "p1" "p2" "u1") demoLobby = Live demoLobby []
  /\ phase (auction demoLobby) <> RESULT.
Proof.
  assert (H : handle 8 (SubmitPlaying11 (Some ["p1"; "p2"]) "p1" "p2" "u1") demoTwoBought
              = Live (after [(8%Z, SubmitPlaying11 (Some ["p1"; "p2"]) "p1" "p2" "u1")]
                            demoTwoBought)
                     [ToRoom (GameOverResults
                                (hd_error (rankings (after [(8%Z, SubmitPlaying11
                                    (Some ["p1"; "p2"]) "p1" "p2" "u1")] demoTwoBought)))
                                (rankings (after [(8%Z, SubmitPlaying11
                                    (Some ["p1"; "p2"]) "p1" "p2" "u1")] demoTwoBought)))]).
  { vm_compute. reflexivity. }
  split; [ exact H | ].
  destruct (proj1 phase_forward _ _ _ _ _ H) as (Hr & _ & Hs).
  split; [ exact Hr | ].
  split; [ apply Hs; [ vm_compute; discriminate | vm_compute; reflexivity ] | ].
  assert (Hl : handle 1 (SubmitPlaying11 (Some []) "p1" "p2" "u1") demoLobby
               = Live demoLobby []).
  { vm_compute. reflexivity. }
  split; [ vm_compute; reflexivity | ].
  split; [ exact Hl | ].
  apply (proj2 (proj2 phase_forward) 1%Z (SubmitPlaying11 (Some []) "p1" "p2" "u1")
               demoLobby demoLobby [] );
    [ apply reachable_after; vm_compute; discriminate
    | vm_compute; reflexivity
    | exact Hl ].
Defined.

(** ** C10: the effective rating is clamped at zero *)

(** C10. The effective rating of a player is the base rating moved by
    -5, 0 or +5 according to the value factor and then clamped below at
    zero, so it is never negative, and the score built from effective
    ratings is never negative. *)
Theorem effective_rating_clamped (p : SquadPlayer) :
  (0 <= getEffectiveRating p)%Z
  /\ (exists d : Z,
         (d = -5 \/ d = 0 \/ d = 5)%Z
         /\ getEffectiveRating p = Z.max 0 (rating (player p) + d))
  /\ (forall selected cId vcId captain viceCaptain,
         0 <= lineupScore selected cId vcId captain viceCaptain).
Proof.
  split; [ apply getEffectiveRating_nonneg | ].
  split; [ apply getEffectiveRating_cases | ].
  intros. apply lineupScore_nonneg.
Qed.

(** The placeholder player has rating 0 and base price 0: the factor is
    infinite, the adjustment is -5 and the clamp gives 0. *)
Lemma effective_rating_clamped_witness :
  getEffectiveRating errorPlayerSold = 0%Z
  /\ (0 <= getEffectiveRating errorPlayerSold)%Z.
Proof.
  split; [ vm_compute; reflexivity | ].
  exact (proj1 (effective_rating_clamped errorPlayerSold)).
Defined.

(** ** C6: the stored score *)

(** C6. An accepted lineup stores on the team the score of the
    specification with k = 0.10, rounded to the nearest hundredth, and
    marks the team as submitted. *)
Theorem lineup_score_stored (now : Z) (playerIds : option (list string))
    (cId vcId userId : string) (r r' : Room) (out : list Out) :
  handle now (SubmitPlaying11 playerIds cId vcId userId) r = Live r' out ->
  out <> [] ->
  exists team ids captain viceCaptain team',
    playerIds = Some ids
    /\ getTeam userId (teams r) = Some team
    /\ findById cId (selectedPlayers team ids) = Some captain
    /\ findById vcId (selectedPlayers team ids) = Some viceCaptain
    /\ getTeam userId (teams r') = Some team'
    /\ totalScore team'
       = round100 (specScore (1 # 10) (selectedPlayers team ids) cId vcId
                     captain viceCaptain)
    /\ isCents (totalScore team')
    /\ totalScore team'
       <= specScore (1 # 10) (selectedPlayers team ids) cId vcId captain viceCaptain
          + (1 # 200)
    /\ specScore (1 # 10) (selectedPlayers team ids) cId vcId captain viceCaptain
       - (1 # 200) < totalScore team'
    /\ submitted11 team' = true
    /\ playing11 team' = Some (selectedPlayers team ids).
Proof.
  intros H Hout. apply submit_inv in H.
  destruct H as [[_ ->] | (team & ids & captain & viceCaptain & -> & Ha & Ht & _)];
    [ congruence | ].
  destruct Ha as (Hg & _ & _ & _ & Hc & Hv & _).
  exists team, ids, captain, viceCaptain,
    (lineupTaken team ids cId vcId captain viceCaptain).
  split; [ reflexivity | ]. split; [ exact Hg | ].
  split; [ exact Hc | ]. split; [ exact Hv | ].
  split; [ rewrite Ht, getTeam_putTeam, String.eqb_refl; reflexivity | ].
  assert (E : totalScore (lineupTaken team ids cId vcId captain viceCaptain)
              = round100 (specScore (1 # 10) (selectedPlayers team ids) cId vcId
                            captain viceCaptain)).
  { cbn. apply round100_comp, lineupScore_spec. }
  rewrite E.
  split; [ reflexivity | ]. split; [ apply round100_isCents | ].
  split; [ apply round100_near | ]. split; [ apply round100_near | ].
  split; reflexivity.
Qed.

Lemma lineup_score_stored_witness :
  option_map totalScore (getTeam "u1" (teams demoSubmitted)) = Some (40500 # 100)
  /\ exists team ids captain viceCaptain team',
       Some ["p1"; "p2"; "p3"] = Some ids
       /\ getTeam "u1" (teams demoSelection) = Some team
       /\ findById "p1" (selectedPlayers team ids) = Some captain
       /\ findById "p2" (selectedPlayers team ids) = Some viceCaptain
       /\ getTeam "u1" (teams demoSubmitted) = Some team'
       /\ totalScore team'
          = round100 (specScore (1 # 10) (selectedPlayers team ids) "p1" "p2"
                        captain viceCaptain)
       /\ isCents (totalScore team')
       /\ totalScore team'
          <= specScore (1 # 10) (selectedPlayers team ids) "p1" "p2" captain viceCaptain
             + (1 # 200)
       /\ specScore (1 # 10) (selectedPlayers team ids) "p1" "p2" captain viceCaptain
          - (1 # 200) < totalScore team'
       /\ submitted11 team' = true
       /\ playing11 team' = Some (selectedPlayers team ids).
Proof.
  split; [ vm_compute; reflexivity | ].
  apply (lineup_score_stored 11 (Some ["p1"; "p2"; "p3"]) "p1" "p2" "u1"
           demoSelection demoSubmitted
           [ToRoom (GameOverResults (hd_error (rankings demoSubmitted))
                                    (rankings demoSubmitted))]).
  - vm_compute. reflexivity.
  - discriminate.
Defined.

(** ** C5: validation of lineups *)

(** C5, counterexample. A team that has already submitted submits again
    with captain and vice-captain swapped: the lineup is taken and the
    stored score goes from 405 to 412.5. *)
Lemma resubmission_counterexample :
  option_map submitted11 (getTeam "u1" (teams demoSubmitted)) = Some true
  /\ option_map totalScore (getTeam "u1" (teams demoSubmitted)) = Some (40500 # 100)
  /\ exists r' out,
       handle 12 (SubmitPlaying11 (Some ["p1"; "p2"; "p3"]) "p2" "p1" "u1") demoSubmitted
       = Live r' out
       /\ option_map totalScore (getTeam "u1" (teams r')) = Some (41250 # 100)
       /\ out <> [].
Proof.
  split; [ vm_compute; reflexivity | ].
  split; [ vm_compute; reflexivity | ].
  eexists. eexists. split; [ vm_compute; reflexivity | ].
  split; [ vm_compute; reflexivity | discriminate ].
Qed.

(** C5, as amended. [submit-playing-11] leaves the room untouched and
    sends nothing unless the team exists, the payload is an array of
    min(11, squad size) ids, as many squad members carry a selected id
    (for a squad with distinct ids: the ids are distinct and all belong
    to the squad), at most 4 selected players are overseas, and captain
    and vice-captain are distinct and both among the selected players.
    Under exactly these conditions the lineup is taken, whether or not
    the team had submitted before. *)
Theorem lineup_validated (now : Z) (playerIds : option (list string))
    (cId vcId userId : string) (r : Room) :
  (forall r' out,
      handle now (SubmitPlaying11 playerIds cId vcId userId) r = Live r' out ->
      (r' = r /\ out = [])
      \/ exists team ids captain viceCaptain,
           playerIds = Some ids
           /\ getTeam userId (teams r) = Some team
           /\ List.length ids = Nat.min 11 (List.length (squad team))
           /\ List.length (selectedPlayers team ids) = List.length ids
           /\ (NoDup (map (fun p => id (player p)) (squad team)) ->
               NoDup ids
               /\ forall x, In x ids -> In x (map (fun p => id (player p)) (squad team)))
           /\ (overseasCount (selectedPlayers team ids) <= 4)%nat
           /\ In captain (selectedPlayers team ids) /\ id (player captain) = cId
           /\ In viceCaptain (selectedPlayers team ids)
           /\ id (player viceCaptain) = vcId
           /\ cId <> vcId)
  /\ (forall team ids captain viceCaptain,
         playerIds = Some ids ->
         lineupAcceptable r userId team ids cId vcId captain viceCaptain ->
         exists r' out,
           handle now (SubmitPlaying11 playerIds cId vcId userId) r = Live r' out
           /\ getTeam userId (teams r')
              = Some (lineupTaken team ids cId vcId captain viceCaptain)).
Proof.
  split.
  - intros r' out H. apply submit_inv in H.
    destruct H as [H | (team & ids & captain & viceCaptain & -> & Ha & _)];
      [ left; exact H | ].
    right. exists team, ids, captain, viceCaptain.
    destruct Ha as (Hg & H1 & H2 & H3 & H4 & H5 & H6).
    apply findById_Some in H4. apply findById_Some in H5.
    split; [ reflexivity | ]. split; [ exact Hg | ]. split; [ exact H1 | ].
    split; [ exact H2 | ].
    split; [ intro Hnd; apply (selected_all_iff team ids Hnd), H2 | ].
    split; [ exact H3 | ]. tauto.
  - intros team ids captain viceCaptain -> Ha.
    destruct (submit_accepts now _ _ _ _ _ _ _ _ Ha) as (r' & out & H & Ht).
    exists r', out. split; [ exact H | ].
    rewrite Ht, getTeam_putTeam, String.eqb_refl. reflexivity.
Qed.

Lemma lineup_validated_witness :
  exists r' out,
    handle 12 (SubmitPlaying11 (Some ["p1"; "p2"; "p3"]) "p2" "p1" "u1") demoSubmitted
    = Live r' out
    /\ option_map submitted11 (getTeam "u1" (teams r')) = Some true.
Proof.
  destruct (proj2 (lineup_validated 12 (Some ["p1"; "p2"; "p3"]) "p2" "p1" "u1"
                     demoSubmitted)
              (mkTeam "u1" "A" (9700 # 100)
                 [mkSquadPlayer (demoPlayer "p1" "India" 80 (1 # 5)) (100 # 100);
                  mkSquadPlayer (demoPlayer "p2" "Overseas" 90 (1 # 5)) (100 # 100);
                  mkSquadPlayer (demoPlayer "p3" "India" 85 (1 # 5)) (100 # 100)]
                 false false true (40500 # 100)
                 (Some [mkSquadPlayer (demoPlayer "p1" "India" 80 (1 # 5)) (100 # 100);
                        mkSquadPlayer (demoPlayer "p2" "Overseas" 90 (1 # 5)) (100 # 100);
                        mkSquadPlayer (demoPlayer "p3" "India" 85 (1 # 5)) (100 # 100)]))
              ["p1"; "p2"; "p3"]
              (mkSquadPlayer (demoPlayer "p2" "Overseas" 90 (1 # 5)) (100 # 100))
              (mkSquadPlayer (demoPlayer "p1" "India" 80 (1 # 5)) (100 # 100))
              eq_refl)
    as (r' & out & H & Ht).
  - unfold lineupAcceptable. repeat split; try (vm_compute; reflexivity).
    + vm_compute. lia.
    + discriminate.
  - exists r', out. split; [ exact H | ]. rewrite Ht. reflexivity.
Defined.

(** ** C2: closing a round by skip votes *)




(** ** C9: the snapshot and its reload *)

(** C9. The snapshot of a room holds the host, the configuration, the
    team map, the activity stamp and, of the auction, the pool, the
    index, the current bid, the leader, the bidding-open flag, the phase,
    the skip set as an array and the seconds left; it has no property
    for the countdown handle or the deferred handle and does not depend
    on them. Loading the snapshot gives the room back with both handles
    empty. The code departs from the claim here: no countdown is started
    on load, so a room saved in the middle of a round comes back with
    the round open, the seconds left as saved and no countdown running. *)
Theorem snapshot_and_load (r : Room) :
  keysOf (cleanRoom r) = ["hostId"; "config"; "teams"; "auction"; "lastActivity"]
  /\ keysOf (auctionOf (cleanRoom r))
     = ["playerPool"; "currentPlayerIndex"; "currentBid"; "currentBidderId";
        "biddingOpen"; "phase"; "skippedBy"; "timeLeft"]
  /\ field "skippedBy" (match auctionOf (cleanRoom r) with
                        | JObject fs => fs
                        | _ => []
                        end)
     = Some (JArray (map JString (skippedBy (auction r))))
  /\ (forall countdown deferred,
         cleanRoom (set_nextPlayerTimeout deferred (inAuction (set_timer countdown) r))
         = cleanRoom r)
  /\ (NoDup (skippedBy (auction r)) ->
      loadRoom (cleanRoom r)
      = Some (set_nextPlayerTimeout false (inAuction (set_timer false) r))).
Proof.
  split; [ reflexivity | ]. split; [ reflexivity | ]. split; [ reflexivity | ].
  split; [ intros; reflexivity | ]. apply load_clean.
Qed.

(** A room in the third second of its first round, saved and loaded
    again: the round is open, seven seconds are left, and no countdown
    runs, so the countdown callback cannot occur. *)
Lemma snapshot_and_load_witness :
  phase (auction demoTicking) = AUCTION
  /\ biddingOpen (auction demoTicking) = true
  /\ timer (auction demoTicking) = true
  /\ restart 100 demoTicking
     = Some (set_nextPlayerTimeout false (inAuction (set_timer false) demoTicking))
  /\ timeLeft (auction (set_nextPlayerTimeout false
                          (inAuction (set_timer false) demoTicking))) = 7%Z
  /\ enabled TimerTick (set_nextPlayerTimeout false
                          (inAuction (set_timer false) demoTicking)) = false.
Proof.
  split; [ vm_compute; reflexivity | ].
  split; [ vm_compute; reflexivity | ].
  split; [ vm_compute; reflexivity | ].
  split.
  - unfold restart.
    destruct (snapshot_and_load demoTicking) as (_ & _ & _ & _ & Hl).
    rewrite Hl.
    + vm_compute. reflexivity.
    + vm_compute. constructor.
  - split; vm_compute; reflexivity.
Defined.

(** * The rest of the server: lemmas *)

(** ** Utilities *)

Lemma trimStart_length (l : list ascii) : (List.length (trimStart l) <= List.length l)%nat.
Proof.
  induction l as [ | c rest IH ]; simpl; [ lia | ].
  destruct (isWhiteSpace c); simpl; lia.
Qed.

Lemma trimStart_incl (l : list ascii) (c : ascii) : In c (trimStart l) -> In c l.
Proof.
  induction l as [ | x rest IH ]; simpl; [ tauto | ].
  destruct (isWhiteSpace x); simpl; tauto.
Qed.

Lemma trim_length (l : list ascii) : (List.length (trim l) <= List.length l)%nat.
Proof.
  unfold trim, trimEnd. rewrite length_rev.
  pose proof (trimStart_length (rev (trimStart l))) as H. rewrite length_rev in H.
  pose proof (trimStart_length l). lia.
Qed.

Lemma trim_incl (l : list ascii) (c : ascii) : In c (trim l) -> In c l.
Proof.
  unfold trim, trimEnd. intro H. apply in_rev in H. apply trimStart_incl in H.
  apply in_rev in H. apply trimStart_incl in H. exact H.
Qed.

Lemma trimStart_id (l : list ascii) :
  match l with c :: _ => isWhiteSpace c = false | [] => True end -> trimStart l = l.
Proof.
  destruct l as [ | c rest ]; simpl; [ reflexivity | ]. intros ->. reflexivity.
Qed.

Lemma length_string_of_list_ascii (l : list ascii) :
  String.length (string_of_list_ascii l) = List.length l.
Proof. induction l; simpl; congruence. Qed.

Lemma length_list_ascii_of_string (s : string) :
  List.length (list_ascii_of_string s) = String.length s.
Proof. induction s; simpl; congruence. Qed.

Lemma filter_length_le {A : Type} (f : A -> bool) (l : list A) :
  (List.length (filter f l) <= List.length l)%nat.
Proof. induction l as [ | x rest IH ]; simpl; [ lia | ]. destruct (f x); simpl; lia. Qed.

Lemma filter_id {A : Type} (f : A -> bool) (l : list A) :
  (forall x, In x l -> f x = true) -> filter f l = l.
Proof.
  induction l as [ | x rest IH ]; simpl; intro H; [ reflexivity | ].
  rewrite (H x) by (left; reflexivity). f_equal. apply IH. intros y Hy. apply H. right. exact Hy.
Qed.

Lemma In_firstn {A : Type} (n : nat) (l : list A) (x : A) : In x (firstn n l) -> In x l.
Proof.
  revert n. induction l as [ | y rest IH ]; intros [ | n ]; simpl; try tauto.
  intros [-> | H]; [ left; reflexivity | right; exact (IH n H) ].
Qed.

Lemma sanitizeInput_string (s : string) (maxLength : nat) :
  sanitizeInput (Some (JString s)) maxLength
  = string_of_list_ascii
      (filter (fun c => negb (isAngle c))
              (firstn maxLength (trim (list_ascii_of_string s)))).
Proof.
  unfold sanitizeInput, truthy. rewrite negb_involutive.
  destruct (String.eqb_spec s ""); [ subst; cbn; rewrite firstn_nil; reflexivity | reflexivity ].
Qed.

Lemma trimStart_fixed (l : list ascii) :
  List.length (trimStart l) = List.length l ->
  match l with c :: _ => negb (isWhiteSpace c) | [] => true end = true.
Proof.
  destruct l as [ | c rest ]; simpl; [ reflexivity | ].
  destruct (isWhiteSpace c); [ | reflexivity ].
  intro H. pose proof (trimStart_length rest). lia.
Qed.

Lemma trimStart_head (l : list ascii) :
  match l with c :: _ => negb (isWhiteSpace c) | [] => true end = true ->
  trimStart l = l.
Proof.
  destruct l as [ | c rest ]; simpl; [ reflexivity | ].
  destruct (isWhiteSpace c); [ discriminate | reflexivity ].
Qed.

Lemma firstn_length_id {A : Type} (n : nat) (l : list A) :
  List.length (firstn n l) = List.length l -> firstn n l = l.
Proof.
  revert n. induction l as [ | x rest IH ]; intros [ | n ]; simpl; try reflexivity.
  - discriminate.
  - intro H. f_equal. apply IH. lia.
Qed.

Lemma filter_length_id {A : Type} (f : A -> bool) (l : list A) :
  List.length (filter f l) = List.length l -> forall x, In x l -> f x = true.
Proof.
  induction l as [ | y rest IH ]; simpl; [ tauto | ].
  destruct (f y) eqn:E; simpl; intros H x [-> | Hx]; auto.
  - pose proof (filter_length_le f rest). lia.
  - pose proof (filter_length_le f rest). lia.
Qed.

Lemma sanitizeInput_fixes (maxLength : nat) (s : string) :
  sanitizeInput (Some (JString s)) maxLength = s <-> cleanInput maxLength s = true.
Proof.
  rewrite sanitizeInput_string. unfold cleanInput.
  set (l := list_ascii_of_string s).
  split.
  - intro H.
    assert (E : filter (fun c => negb (isAngle c)) (firstn maxLength (trim l)) = l).
    { unfold l. rewrite <- H at 2. rewrite list_ascii_of_string_of_list_ascii. reflexivity. }
    assert (L : List.length (filter (fun c => negb (isAngle c)) (firstn maxLength (trim l)))
                = List.length l) by (rewrite E; reflexivity).
    pose proof (filter_length_le (fun c => negb (isAngle c)) (firstn maxLength (trim l))) as L1.
    pose proof (length_firstn maxLength (trim l)) as L2.
    pose proof (trim_length l) as L3.
    assert (L4 : List.length (trim l) = List.length l) by lia.
    unfold trim, trimEnd in L4. rewrite length_rev in L4.
    pose proof (trimStart_length (rev (trimStart l))) as L5. rewrite length_rev in L5.
    pose proof (trimStart_length l) as L6.
    assert (L7 : List.length (trimStart l) = List.length l) by lia.
    assert (T1 : trimStart l = l).
    { apply trimStart_head, trimStart_fixed, L7. }
    rewrite T1 in L4.
    assert (T2 : trimStart (rev l) = rev l).
    { apply trimStart_head, trimStart_fixed. rewrite length_rev. exact L4. }
    assert (T : trim l = l).
    { unfold trim, trimEnd. rewrite T1, T2. apply rev_involutive. }
    rewrite T in *.
    assert (F : firstn maxLength l = l) by (apply firstn_length_id; lia).
    rewrite F in *.
    repeat (apply andb_true_iff; split).
    + apply negb_true_iff. apply not_true_iff_false. intro C.
      apply existsb_exists in C. destruct C as (c & Hc & Ha).
      pose proof (filter_length_id _ _ L c Hc) as N. cbn in N. rewrite Ha in N. discriminate.
    + apply Nat.leb_le. rewrite <- F. rewrite length_firstn. lia.
    + apply trimStart_fixed, L7.
    + apply trimStart_fixed. rewrite T2. reflexivity.
  - intro H.
    apply andb_true_iff in H. destruct H as [H H4].
    apply andb_true_iff in H. destruct H as [H H3].
    apply andb_true_iff in H. destruct H as [H1 H2].
    assert (T : trim l = l).
    { unfold trim, trimEnd. rewrite (trimStart_head l H3), (trimStart_head (rev l) H4).
      apply rev_involutive. }
    rewrite T. rewrite firstn_all2 by (apply Nat.leb_le, H2).
    rewrite filter_id.
    + apply string_of_list_ascii_of_string.
    + intros c Hc. apply negb_true_iff. apply not_true_iff_false. intro C.
      apply negb_true_iff in H1. apply not_true_iff_false in H1. apply H1.
      apply existsb_exists. exists c. split; assumption.
Qed.

Lemma sanitizeInput_length (str : option json) (maxLength : nat) :
  (String.length (sanitizeInput str maxLength) <= maxLength)%nat.
Proof.
  destruct str as [ [ | | | s | | ] | ]; try (cbn; lia).
  rewrite sanitizeInput_string, length_string_of_list_ascii.
  pose proof (filter_length_le (fun c => negb (isAngle c))
                (firstn maxLength (trim (list_ascii_of_string s)))).
  pose proof (length_firstn maxLength (trim (list_ascii_of_string s))). lia.
Qed.

Lemma sanitizeInput_chars (str : option json) (maxLength : nat) (c : ascii) :
  In c (list_ascii_of_string (sanitizeInput str maxLength)) ->
  isAngle c = false
  /\ exists s, str = Some (JString s) /\ In c (list_ascii_of_string s).
Proof.
  destruct str as [ [ | | | s | | ] | ]; try (cbn; tauto).
  rewrite sanitizeInput_string, list_ascii_of_string_of_list_ascii.
  intro H. apply filter_In in H. destruct H as [H1 H2].
  split; [ apply negb_true_iff, H2 | ].
  exists s. split; [ reflexivity | ].
  apply trim_incl. apply (In_firstn maxLength). exact H1.
Qed.


Lemma Qfloor_half_bounds (x : Q) (lo hi : Z) :
  inject_Z lo <= x <= inject_Z hi -> (lo <= Qfloor (x + (1 # 2)) <= hi)%Z.
Proof.
  intros [H1 H2]. split.
  - rewrite <- (Qfloor_Z lo). apply Qfloor_resp_le. lra.
  - assert (H : inject_Z (Qfloor (x + (1 # 2))) < inject_Z (hi + 1)).
    { apply Qle_lt_trans with (x + (1 # 2)); [ apply Qfloor_le | ].
      rewrite inject_Z_plus. change (inject_Z 1) with 1. lra. }
    rewrite <- Zlt_Qlt in H. lia.
Qed.

Lemma third (x : Q) : x / 3 == x * (1 # 3).
Proof. unfold Qdiv. reflexivity. Qed.

Lemma calculateWeightedRating_bounds role bat bowl field (lo hi : Z) :
  (lo <= intOrZero bat <= hi)%Z ->
  (lo <= intOrZero bowl <= hi)%Z ->
  (lo <= intOrZero field <= hi)%Z ->
  (lo <= calculateWeightedRating role bat bowl field <= hi)%Z.
Proof.
  intros [H1 H2] [H3 H4] [H5 H6].
  rewrite Zle_Qle in H1, H2, H3, H4, H5, H6.
  unfold calculateWeightedRating.
  repeat match goal with |- context [if ?c then _ else _] => destruct c end;
    apply Qfloor_half_bounds; try rewrite third; split; lra.
Qed.

Lemma calculateWeightedRating_mono role bat bowl field bat' bowl' field' :
  (intOrZero bat <= intOrZero bat')%Z ->
  (intOrZero bowl <= intOrZero bowl')%Z ->
  (intOrZero field <= intOrZero field')%Z ->
  (calculateWeightedRating role bat bowl field
   <= calculateWeightedRating role bat' bowl' field')%Z.
Proof.
  intros H1 H2 H3. rewrite Zle_Qle in H1, H2, H3.
  unfold calculateWeightedRating.
  repeat match goal with |- context [if ?c then _ else _] => destruct c end;
    apply Qfloor_resp_le; try rewrite !third; lra.
Qed.

(** [loadPlayerDatabase] *)

Lemma mapFrom_length {A B : Type} (f : nat -> A -> B) (idx : nat) (l : list A) :
  List.length (mapFrom f idx l) = List.length l.
Proof. revert idx. induction l; intro idx; simpl; [ | rewrite IHl ]; reflexivity. Qed.

Lemma mapFrom_nth {A B : Type} (f : nat -> A -> B) (idx : nat) (l : list A) (i : nat) :
  nth_error (mapFrom f idx l) i = option_map (f (idx + i)%nat) (nth_error l i).
Proof.
  revert idx i. induction l as [ | x rest IH ]; intros idx [ | i ]; simpl; try reflexivity.
  - rewrite Nat.add_0_r. reflexivity.
  - rewrite IH. rewrite Nat.add_succ_r. reflexivity.
Qed.

Lemma mapFrom_In {A B : Type} (f : nat -> A -> B) (idx : nat) (l : list A) (y : B) :
  In y (mapFrom f idx l) -> exists i x, In x l /\ y = f i x.
Proof.
  revert idx. induction l as [ | x rest IH ]; intro idx; simpl; [ tauto | ].
  intros [<- | H].
  - exists idx, x. split; [ left | ]; reflexivity.
  - destruct (IH _ H) as (i & x' & Hx & ->). exists i, x'. split; [ right; exact Hx | reflexivity ].
Qed.

Lemma stringOr_truthy (x : option string) (d : string) :
  truthy d = true -> truthy (stringOr x d) = true.
Proof.
  intro H. unfold stringOr. destruct x as [ s | ]; [ | exact H ].
  destruct (truthy s) eqn:E; assumption.
Qed.

Lemma numberOr_nonzero (x : option Q) (d : Q) : ~ d == 0 -> ~ numberOr x d == 0.
Proof.
  intro H. unfold numberOr. destruct x as [ q | ]; [ | exact H ].
  destruct (Qeq_bool q 0) eqn:E; [ exact H | ].
  intro C. apply Qeq_bool_iff in C. congruence.
Qed.

Lemma generatedId_inj (i j : nat) : generatedId i = generatedId j -> i = j.
Proof.
  unfold generatedId. intro H. cbn in H. injection H as H.
  apply Unsigned.to_uint_inj.
  assert (E : Some (Nat.to_uint i) = Some (Nat.to_uint j)).
  { rewrite <- !NilEmpty.usu. rewrite H. reflexivity. }
  injection E as E. exact E.
Qed.

Lemma generatedId_truthy (i : nat) : truthy (generatedId i) = true.
Proof. reflexivity. Qed.

Lemma generated_ids (idx : nat) (l : list RawPlayer) :
  Forall (fun p => stringOr (raw_id p) "" = "") l ->
  map id (mapFrom playerOfRaw idx l) = map generatedId (seq idx (List.length l)).
Proof.
  revert idx. induction l as [ | p rest IH ]; intros idx H; simpl; [ reflexivity | ].
  inversion H as [ | ? ? Hp Hrest ]; subst.
  rewrite (IH (S idx) Hrest). f_equal.
  unfold stringOr in *. destruct (raw_id p) as [ s | ]; [ | reflexivity ].
  destruct (truthy s) eqn:E; [ | reflexivity ].
  subst s. discriminate E.
Qed.

Lemma given_ids (idx : nat) (l : list RawPlayer) :
  Forall (fun p => exists s, raw_id p = Some s /\ truthy s = true) l ->
  map id (mapFrom playerOfRaw idx l) = map (fun p => stringOr (raw_id p) "") l.
Proof.
  revert idx. induction l as [ | p rest IH ]; intros idx H; simpl; [ reflexivity | ].
  inversion H as [ | ? ? (s & Hs & Ht) Hrest ]; subst.
  rewrite (IH (S idx) Hrest). f_equal.
  unfold stringOr. rewrite Hs, Ht. reflexivity.
Qed.

Lemma NoDup_map_inj {A B : Type} (f : A -> B) (l : list A) :
  (forall x y, f x = f y -> x = y) -> NoDup l -> NoDup (map f l).
Proof.
  intros Hf H. induction H as [ | x l Hx Hl IH ]; simpl; constructor; [ | exact IH ].
  intro C. apply in_map_iff in C. destruct C as (y & E & Hy). apply Hf in E. subst y.
  exact (Hx Hy).
Qed.

(** [shuffleArray] *)

Lemma setAt_length {A : Type} (i : nat) (v : A) (arr : list A) :
  List.length (setAt i v arr) = List.length arr.
Proof.
  revert i. induction arr as [ | x rest IH ]; intros [ | i ]; simpl; try reflexivity.
  rewrite IH. reflexivity.
Qed.

Lemma setAt_perm {A : Type} (j : nat) (x b : A) (rest : list A) :
  nth_error rest j = Some b -> Permutation (b :: setAt j x rest) (x :: rest).
Proof.
  revert j. induction rest as [ | y r IH ]; intros [ | j ]; simpl; try discriminate.
  - intro H. injection H as ->. apply perm_swap.
  - intro H. apply perm_trans with (y :: b :: setAt j x r); [ apply perm_swap | ].
    apply perm_trans with (y :: x :: r); [ apply perm_skip, IH, H | apply perm_swap ].
Qed.

Lemma swap_perm {A : Type} (i j : nat) (a b : A) (arr : list A) :
  nth_error arr i = Some a -> nth_error arr j = Some b ->
  Permutation (setAt j a (setAt i b arr)) arr.
Proof.
  revert i j. induction arr as [ | x rest IH ]; intros [ | i ] [ | j ]; simpl;
    try discriminate.
  - intros H _. injection H as ->. apply Permutation_refl.
  - intros H1 H2. injection H1 as ->. apply setAt_perm. exact H2.
  - intros H1 H2. injection H2 as ->. apply setAt_perm. exact H1.
  - intros H1 H2. apply perm_skip. apply IH; assumption.
Qed.

Lemma swapAt_perm {A : Type} (i j : nat) (arr : list A) : Permutation (swapAt i j arr) arr.
Proof.
  unfold swapAt. destruct (nth_error arr i) as [ a | ] eqn:Ei; [ | apply Permutation_refl ].
  destruct (nth_error arr j) as [ b | ] eqn:Ej; [ | apply Permutation_refl ].
  apply swap_perm; assumption.
Qed.

Lemma shuffleLoop_perm {A : Type} (random : nat -> Q) (calls i : nat) (arr : list A) :
  Permutation (shuffleLoop random calls i arr) arr.
Proof.
  revert calls arr. induction i as [ | i IH ]; intros calls arr; simpl.
  - apply Permutation_refl.
  - eapply perm_trans; [ apply IH | apply swapAt_perm ].
Qed.

Lemma randomIndex_range (x : Q) (i : nat) : 0 <= x -> x < 1 -> (randomIndex x i <= i)%nat.
Proof.
  intros H0 H1. unfold randomIndex.
  set (n := inject_Z (Z.of_nat (i + 1))).
  assert (Hn : 0 < n).
  { unfold n. change 0 with (inject_Z 0). rewrite <- Zlt_Qlt. lia. }
  assert (Hlo : 0 <= x * n) by (apply Qmult_le_0_compat; [ exact H0 | apply Qlt_le_weak, Hn ]).
  assert (Hhi : x * n < n).
  { setoid_replace n with (1 * n) at 2 by ring. apply Qmult_lt_r; assumption. }
  assert (F1 : (0 <= Qfloor (x * n))%Z).
  { rewrite <- (Qfloor_Z 0). apply Qfloor_resp_le. exact Hlo. }
  assert (F2 : (Qfloor (x * n) < Z.of_nat (i + 1))%Z).
  { rewrite Zlt_Qlt. apply Qle_lt_trans with (x * n); [ apply Qfloor_le | exact Hhi ]. }
  lia.
Qed.

(** ** The shape of a step *)

Lemma checkAuctionCompletion_auction now s :
  auction (fst (checkAuctionCompletion now s)) = auction (fst s)
  \/ (phase (auction (fst s)) = AUCTION
      /\ auction (fst (checkAuctionCompletion now s)) = ended (auction (fst s))).
Proof.
  unfold checkAuctionCompletion.
  destruct (negb (Phase_eqb (phase (auction (fst s))) AUCTION)) eqn:Ep; [ left; reflexivity | ].
  apply negb_false_iff, Phase_eqb_eq in Ep.
  destruct (_ =? 0)%nat; [ right; split; [ exact Ep | reflexivity ] | left; reflexivity ].
Qed.

Lemma prepareNext_auction now s :
  auction (fst (prepareNext now s))
  = if Phase_eqb (phase (auction (fst s))) AUCTION then advanced (auction (fst s))
    else auction (fst s).
Proof.
  unfold prepareNext. destruct (Phase_eqb (phase (auction (fst s))) AUCTION); reflexivity.
Qed.

Lemma prepareNext_teams_eq now s :
  teams (fst (prepareNext now s))
  = if Phase_eqb (phase (auction (fst s))) AUCTION then checkAll (teams (fst s))
    else teams (fst s).
Proof.
  unfold prepareNext. destruct (Phase_eqb (phase (auction (fst s))) AUCTION); reflexivity.
Qed.

(** The end of every way of closing a round: the completion check, then
    [prepareNext]. *)
Lemma closing_tail now y a :
  auction (fst y) = set_biddingOpen false a ->
  let x := prepareNext now (checkAuctionCompletion now y) in
  startingPurse (fst x) = startingPurse (fst y)
  /\ (teams (fst x) = teams (fst y) \/ teams (fst x) = checkAll (teams (fst y)))
  /\ exists over, auction (fst x) = closedOf over a.
Proof.
  intros Hy. cbn zeta.
  split; [ rewrite prepareNext_startingPurse;
           apply (checkAuctionCompletion_sameTeams now y) | ].
  split.
  - rewrite prepareNext_teams_eq.
    destruct (checkAuctionCompletion_sameTeams now y) as [-> _].
    destruct (Phase_eqb _ _); [ right | left ]; reflexivity.
  - rewrite prepareNext_auction.
    destruct (checkAuctionCompletion_auction now y) as [E | [Ep E]]; rewrite E, Hy.
    + exists false. reflexivity.
    + rewrite Hy in Ep. exists true. unfold closedOf. cbn zeta.
      apply Phase_eqb_eq in Ep. rewrite Ep. reflexivity.
Qed.

Lemma finishPlayerUnsold_shape now s :
  let x := finishPlayerUnsold now s in
  startingPurse (fst x) = startingPurse (fst s)
  /\ (teams (fst x) = teams (fst s) \/ teams (fst x) = checkAll (teams (fst s)))
  /\ auction (fst x) = closedOf false (auction (fst s)).
Proof.
  cbn zeta. unfold finishPlayerUnsold.
  split; [ rewrite prepareNext_startingPurse; reflexivity | ].
  split.
  - rewrite prepareNext_teams_eq. destruct (Phase_eqb _ _); [ right | left ]; reflexivity.
  - rewrite prepareNext_auction. reflexivity.
Qed.

Lemma finishBidding_shape now s s' :
  finishBidding now s = Done s' ->
  startingPurse (fst s') = startingPurse (fst s)
  /\ (exists over, auction (fst s') = closedOf over (auction (fst s)))
  /\ (teams (fst s') = teams (fst s) \/ teams (fst s') = checkAll (teams (fst s))
      \/ exists team p,
           getTeam (propertyKey (currentBidderId (auction (fst s)))) (teams (fst s))
           = Some team
           /\ currentPlayer (fst s) = Some p
           /\ currentBid (auction (fst s)) <= purse team
           /\ (List.length (squad team) < MAX_SQUAD_SIZE)%nat
           /\ teams (fst s')
              = checkAll (putTeam (propertyKey (currentBidderId (auction (fst s))))
                            (soldTo team p (currentBid (auction (fst s))))
                            (teams (fst s)))).
Proof.
  intro H.
  assert (Hu : forall x,
             x = finishPlayerUnsold now (upd (inAuction (set_biddingOpen false)) s) ->
             startingPurse (fst x) = startingPurse (fst s)
             /\ (exists over, auction (fst x) = closedOf over (auction (fst s)))
             /\ (teams (fst x) = teams (fst s) \/ teams (fst x) = checkAll (teams (fst s))
                 \/ False)).
  { intros x ->.
    destruct (finishPlayerUnsold_shape now (upd (inAuction (set_biddingOpen false)) s))
      as (E1 & E2 & E3).
    split; [ exact E1 | ]. split; [ exists false; rewrite E3; reflexivity | ].
    destruct E2 as [E2 | E2]; [ left | right; left ]; exact E2. }
  unfold finishBidding in H. cbn [fst snd] in H.
  destruct (getTeam _ _) as [team | ] eqn:Eg.
  - destruct (Qlt_bool _ _) eqn:Eq.
    { injection H as <-. destruct (Hu _ eq_refl) as (E1 & E2 & E3).
      split; [ exact E1 | ]. split; [ exact E2 | tauto ]. }
    destruct (_ <=? _)%nat eqn:El.
    { injection H as <-. destruct (Hu _ eq_refl) as (E1 & E2 & E3).
      split; [ exact E1 | ]. split; [ exact E2 | tauto ]. }
    destruct (currentPlayer _) as [p | ] eqn:Ec; [ | discriminate ].
    injection H as <-.
    match goal with
    | |- context [prepareNext now (checkAuctionCompletion now ?y)] =>
        destruct (closing_tail now y (auction (fst s)) eq_refl) as (E1 & E2 & E3)
    end.
    split; [ rewrite E1; reflexivity | ]. split; [ exact E3 | ].
    right. right. exists team, p.
    split; [ first [ reflexivity | exact Eg ] | ].
    split; [ first [ reflexivity | exact Ec ] | ].
    split; [ apply Qlt_bool_false, Eq | ].
    split; [ apply Nat.leb_gt, El | ].
    destruct E2 as [E2 | E2]; rewrite E2; cbn [fst snd upd emit checkEliminations set_teams teams];
      [ reflexivity | ].
    fold (checkAll (putTeam (propertyKey (currentBidderId (auction (fst s))))
       (soldTo team p (currentBid (auction (fst s)))) (teams (fst s)))).
    apply checkAll_idem.
  - injection H as <-.
    match goal with
    | |- context [prepareNext now (checkAuctionCompletion now ?y)] =>
        destruct (closing_tail now y (auction (fst s)) eq_refl) as (E1 & E2 & E3)
    end.
    split; [ rewrite E1; reflexivity | ]. split; [ exact E3 | ].
    destruct E2 as [E2 | E2]; rewrite E2; [ left | right; left ]; reflexivity.
Qed.

Lemma closeRound_shape now s s' :
  closeRound now s = Done s' ->
  startingPurse (fst s') = startingPurse (fst s)
  /\ (exists over, auction (fst s') = closedOf over (auction (fst s)))
  /\ (teams (fst s') = teams (fst s) \/ teams (fst s') = checkAll (teams (fst s))
      \/ exists u team p,
           saleOf (fst s) u team p /\ teams (fst s') = afterSale (fst s) u team p).
Proof.
  unfold closeRound. destruct (truthyId _) eqn:Et.
  - intro H. apply finishBidding_shape in H. destruct H as (E1 & E2 & E3).
    split; [ exact E1 | ]. split; [ exact E2 | ].
    destruct E3 as [E3 | [E3 | (team & p & Hg & Hc & Hp & Hl & E3)]]; [ tauto | tauto | ].
    right. right.
    destruct (currentBidderId (auction (fst s))) as [u | ] eqn:Eb; [ | discriminate Et ].
    exists u, team, p. split; [ | exact E3 ].
    repeat split; assumption.
  - intro H. injection H as <-.
    destruct (finishPlayerUnsold_shape now s) as (E1 & E2 & E3).
    split; [ exact E1 | ]. split; [ exists false; exact E3 | tauto ].
Qed.

Lemma startNextPlayer_auction now s :
  phase (auction (fst s)) = AUCTION ->
  auction (fst (startNextPlayer now s)) = nextOf (auction (fst s)).
Proof.
  intro Hp. unfold startNextPlayer, nextOf, currentPlayer.
  rewrite Hp. cbn [Phase_eqb negb].
  destruct (nth_error _ _); reflexivity.
Qed.

Lemma mayVote_open (userId : string) (r : Room) :
  mayVote userId r = true -> biddingOpen (auction r) = true.
Proof. unfold mayVote. intro H. apply andb_true_iff in H. tauto. Qed.

Lemma handle_auctionStep (now : Z) (ev : Event) (r r' : Room) (out : list Out) :
  handle now ev r = Live r' out ->
  auctionStep ev (auction r) (auction r').
Proof.
  intros H. destruct ev; cbn [auctionStep].
  - unfold handle, live in H. cbv zeta in H.
    apply Live_inj in H. destruct H as [<- _].
    apply (rejoinGame_sameAuction now userId (r, [])).
  - unfold handle, live in H. cbv zeta in H.
    apply Live_inj in H. destruct H as [<- _].
    apply (joinRoom_sameAuction now teamName userId (r, [])).
  - unfold handle, live in H. cbv zeta in H.
    destruct (leaveRoom now userId (r, [])) as [s' | ] eqn:E; [ | discriminate ].
    apply leaveRoom_shape in E. destruct E as (x & -> & Ea & _).
    apply Live_inj in H. destruct H as [<- _].
    destruct (checkAuctionCompletion_auction now x) as [E | [Ep E]]; rewrite E, Ea.
    + left. reflexivity.
    + rewrite Ea in Ep. right. split; [ exact Ep | reflexivity ].
  - unfold handle, live in H. cbv zeta in H.
    apply Live_inj in H. destruct H as [<- _].
    destruct (finishBiddingForMe_shape now userId (r, [])) as [E | (x & E & Ea)];
      rewrite E.
    + left. reflexivity.
    + destruct (checkAuctionCompletion_auction now x) as [E' | [Ep E']]; rewrite E', Ea.
      * left. reflexivity.
      * rewrite Ea in Ep. right. split; [ exact Ep | reflexivity ].
  - unfold handle, live in H. cbv zeta in H.
    apply Live_inj in H. destruct H as [<- _].
    unfold startAuction. destruct caller as [userId | ]; [ | left; reflexivity ].
    destruct (negb (hostId _ =? userId)%string); [ left; reflexivity | ].
    destruct (negb (Phase_eqb _ LOBBY)) eqn:Ep; [ left; reflexivity | ].
    apply negb_false_iff, Phase_eqb_eq in Ep. cbn [fst] in Ep.
    rewrite startNextPlayer_auction by reflexivity.
    right. split; [ exact Ep | reflexivity ].
  - apply placeBid_inv in H.
    destruct H as [[-> _] | (team & amount & p & -> & Ha & -> & _)]; [ left; reflexivity | ].
    destruct Ha as (Ho & _). right. exists amount.
    split; [ reflexivity | ]. split; [ exact Ho | reflexivity ].
  - rewrite skip_eq in H.
    destruct (mayVote userId r) eqn:Ev.
    + apply mayVote_open in Ev.
      destruct (skipQuorum (voted userId r)).
      * unfold live in H.
        destruct (closeRound now _) as [s' | ] eqn:E; [ | discriminate ].
        apply Live_inj in H. destruct H as [<- _].
        apply closeRound_shape in E. destruct E as (_ & (over & E) & _).
        right. split; [ exact Ev | ]. right. exists over. exact E.
      * apply Live_inj in H. destruct H as [<- _].
        right. split; [ exact Ev | ]. left. reflexivity.
    + apply Live_inj in H. destruct H as [<- _]. left. reflexivity.
  - unfold handle, live in H. cbv zeta in H.
    apply Live_inj in H. destruct H as [<- _].
    destruct (submit_shape now playerIds cId vcId userId (r, []))
      as [E | (team & t1 & _ & _ & _ & _ & _ & _ & [Ea | Ea])].
    + rewrite E. left. reflexivity.
    + rewrite Ea. left. reflexivity.
    + rewrite Ea. right. reflexivity.
  - rewrite tick_eq in H.
    destruct (timeLeft (auction r) - 1 <=? 0)%Z eqn:El.
    + unfold live in H.
      destruct (closeRound now _) as [s' | ] eqn:E; [ | discriminate ].
      apply Live_inj in H. destruct H as [<- _].
      apply closeRound_shape in E. destruct E as (_ & (over & E) & _).
      exists over. exact E.
    + apply Live_inj in H. destruct H as [<- _]. reflexivity.
  - unfold handle, live in H. cbv zeta in H.
    apply Live_inj in H. destruct H as [<- _].
    unfold nextPlayerTimeoutFired. cbn [fst upd].
    change (auction (set_nextPlayerTimeout false r)) with (auction r).
    destruct (Phase_eqb (phase (auction r)) AUCTION) eqn:Ep.
    + rewrite startNextPlayer_auction by (apply Phase_eqb_eq, Ep). reflexivity.
    + reflexivity.
Qed.

Lemma handle_auctionChange (now : Z) (ev : Event) (r r' : Room) (out : list Out) :
  handle now ev r = Live r' out ->
  enabled ev r = true ->
  auctionChange (bids ev) (auction r) (auction r').
Proof.
  intros H He. apply handle_auctionStep in H.
  destruct ev; cbn [auctionStep bids] in *.
  - rewrite H. constructor.
  - rewrite H. constructor.
  - destruct H as [-> | [Hp ->]]; [ constructor | apply ac_ended, Hp ].
  - destruct H as [-> | [Hp ->]]; [ constructor | apply ac_ended, Hp ].
  - destruct H as [-> | [Hp ->]]; [ constructor | apply ac_started, Hp ].
  - destruct H as [-> | (amount & _ & Ho & ->)];
      [ constructor | apply ac_bid; [ exact Ho | reflexivity ] ].
  - destruct H as [-> | (Ho & [-> | (over & ->)])];
      [ constructor | apply ac_vote, Ho | apply ac_skipped, Ho ].
  - destruct H as [-> | ->]; [ constructor | apply ac_result ].
  - destruct (timeLeft (auction r) - 1 <=? 0)%Z eqn:El.
    + destruct H as (over & ->). apply ac_expired; [ exact He | apply Z.leb_le, El ].
    + rewrite H. apply ac_tick; [ exact He | apply Z.leb_gt in El; lia ].
  - rewrite H. destruct (Phase_eqb _ AUCTION) eqn:Ep.
    + apply ac_next. apply Phase_eqb_eq, Ep.
    + constructor.
Qed.

Lemma handle_teamsMove (now : Z) (ev : Event) (r r' : Room) (out : list Out) :
  handle now ev r = Live r' out ->
  enabled ev r = true ->
  roundOk (auction r) ->
  teamsMove ev r r'.
Proof.
  intros H He Hok.
  assert (Hq : sells ev = false -> teamsMove ev r r').
  { intro Hs. left. split; [ apply (handle_teams _ _ _ _ _ H) | exact Hs ]. }
  destruct ev; try (apply Hq; reflexivity); clear Hq.
  - rewrite skip_eq in H.
    destruct (mayVote userId r) eqn:Ev.
    + apply mayVote_open in Ev.
      destruct (skipQuorum (voted userId r)).
      * unfold live in H.
        destruct (closeRound now _) as [s' | ] eqn:E; [ | discriminate ].
        apply Live_inj in H. destruct H as [<- _].
        apply closeRound_shape in E.
        destruct E as (_ & (over & Ea) & [Et | [Et | (u & team & p & Hs & Et)]]).
        -- right. left. split; [ reflexivity | left; exact Et ].
        -- right. left. split; [ reflexivity | right; exact Et ].
        -- right. right. split; [ reflexivity | ]. split; [ exact Ev | ].
           exists u, team, p, over, (set_timer false (votedBy userId (auction r))).
           split; [ exact Hs | ]. split; [ exact Et | ]. split; [ exact Ea | ].
           repeat split.
      * apply Live_inj in H. destruct H as [<- _].
        right. left. split; [ reflexivity | left; reflexivity ].
    + apply Live_inj in H. destruct H as [<- _].
      right. left. split; [ reflexivity | left; reflexivity ].
  - rewrite tick_eq in H. cbn in He.
    destruct (timeLeft (auction r) - 1 <=? 0)%Z eqn:El.
    + unfold live in H.
      destruct (closeRound now _) as [s' | ] eqn:E; [ | discriminate ].
      apply Live_inj in H. destruct H as [<- _].
      apply closeRound_shape in E.
      destruct E as (_ & (over & Ea) & [Et | [Et | (u & team & p & Hs & Et)]]).
      * right. left. split; [ reflexivity | left; exact Et ].
      * right. left. split; [ reflexivity | right; exact Et ].
      * right. right. split; [ reflexivity | ].
        split; [ apply (proj1 Hok), He | ].
        exists u, team, p, over, (set_timer false (ticked (auction r))).
        split; [ exact Hs | ]. split; [ exact Et | ]. split; [ exact Ea | ].
        repeat split.
    + apply Live_inj in H. destruct H as [<- _].
      right. left. split; [ reflexivity | left; reflexivity ].
Qed.

(** ** The auction invariant is kept *)

Lemma setAdd_NoDup (x : string) (s : list string) : NoDup s -> NoDup (setAdd x s).
Proof.
  intro H. unfold setAdd. destruct (setHas x s) eqn:E; [ exact H | ].
  apply NoDup_app; [ exact H | constructor; [ intros [] | constructor ] | ].
  intros a Ha [<- | []]. apply setHas_In in Ha. congruence.
Qed.

Ltac settle :=
  repeat split; intros;
  repeat match goal with
         | H : _ \/ _ |- _ => destruct H
         | H : _ /\ _ |- _ => destruct H
         end;
  try first [ tauto | discriminate | lia | congruence | apply toFixed2_isCents
            | apply NoDup_nil | apply setAdd_NoDup; assumption
            | solve [ match goal with
                      | Hq : ?A \/ ?B -> _ /\ _ |- _ =>
                          let HA := fresh in
                          assert (HA : A \/ B) by tauto;
                          destruct (Hq HA); congruence
                      end ] ].

Lemma auctionChange_inv (canBid : bool) (a a' : Auction) :
  auctionChange canBid a a' -> auctionInv a -> auctionInv a'.
Proof.
  intros H ((Hr1 & Hr2) & ((Hc1 & Hc2) & Hc3) & Hb & Hi & Hq & Hk & Hlb).
  unfold auctionInv, roundOk, clockOk, bidOk, indexOk, quiet, closed, skipOk, lobbyOk
    in *.
  assert (Hlt : biddingOpen a = true ->
                (currentPlayerIndex a < List.length (playerPool a))%nat).
  { intro Ho. apply nth_error_Some. apply Hr2, Ho. }
  destruct H.
  - tauto.
  - cbn. settle.
  - unfold nextOf. cbn [playerPool currentPlayerIndex set_phase].
    destruct (nth_error (playerPool a) (currentPlayerIndex a)) as [p | ] eqn:E; cbn; settle.
  - unfold nextOf.
    destruct (nth_error (playerPool a) (currentPlayerIndex a)) as [p | ] eqn:E; cbn; settle.
  - cbn. settle.
  - cbn. settle.
  - cbn. settle.
  - unfold closedOf. cbn [phase set_biddingOpen set_timer votedBy set_skippedBy].
    specialize (Hlt H).
    destruct (Phase_eqb (phase a) AUCTION) eqn:Ep; [ destruct over | ]; cbn; settle.
  - unfold closedOf. cbn [phase set_biddingOpen set_timer ticked set_timeLeft].
    specialize (Hc3 H). specialize (Hlt (Hr1 H)).
    destruct (Phase_eqb (phase a) AUCTION) eqn:Ep; [ destruct over | ]; cbn; settle.
  - cbn. settle.
Qed.

(** ** How a step changes what the teams hold *)

Lemma auctionChange_frame (canBid : bool) (a a' : Auction) :
  auctionChange canBid a a' ->
  playerPool a' = playerPool a
  /\ (currentPlayerIndex a <= currentPlayerIndex a' <= S (currentPlayerIndex a))%nat
  /\ (closed a -> (2 <= phaseRank (phase a))%nat ->
      closed a'
      /\ currentPlayerIndex a' = currentPlayerIndex a
      /\ (2 <= phaseRank (phase a'))%nat).
Proof.
  unfold closed. intro H. destruct H; try (cbn; settle; fail).
  - unfold nextOf. cbn [playerPool currentPlayerIndex set_phase].
    destruct (nth_error _ _); cbn; rewrite ?H; cbn; settle.
  - unfold nextOf. destruct (nth_error _ _); cbn; rewrite ?H; cbn; settle.
  - unfold closedOf. cbn [phase set_biddingOpen set_timer votedBy set_skippedBy].
    destruct (Phase_eqb (phase a) AUCTION); [ destruct over | ]; cbn; settle.
  - unfold closedOf. cbn [phase set_biddingOpen set_timer ticked set_timeLeft].
    destruct (Phase_eqb (phase a) AUCTION); [ destruct over | ]; cbn; settle.
Qed.

(** An auction state that a handler other than [place-bid] leaves with
    a round open and a leader has kept the round, its player and its
    leader. *)
Lemma auctionChange_leader (a a' : Auction) (u : string) :
  auctionChange false a a' ->
  biddingOpen a' = true ->
  currentBidderId a' = Some u ->
  biddingOpen a = true
  /\ currentBidderId a = Some u
  /\ playerPool a' = playerPool a
  /\ currentPlayerIndex a' = currentPlayerIndex a.
Proof.
  intro H. destruct H; try (cbn; settle; fail).
  - unfold nextOf. cbn [playerPool currentPlayerIndex set_phase].
    destruct (nth_error _ _); cbn; settle.
  - unfold nextOf. destruct (nth_error _ _); cbn; settle.
  - unfold closedOf. cbn [phase set_biddingOpen set_timer votedBy set_skippedBy].
    destruct (Phase_eqb (phase a) AUCTION); [ destruct over | ]; cbn; settle.
  - unfold closedOf. cbn [phase set_biddingOpen set_timer ticked set_timeLeft].
    destruct (Phase_eqb (phase a) AUCTION); [ destruct over | ]; cbn; settle.
Qed.

Lemma closedOf_facts (over : bool) (a0 : Auction) :
  biddingOpen (closedOf over a0) = false
  /\ playerPool (closedOf over a0) = playerPool a0
  /\ (timer a0 = false -> timer (closedOf over a0) = false)
  /\ ((currentPlayerIndex (closedOf over a0) = S (currentPlayerIndex a0)
       /\ phase a0 = AUCTION)
      \/ (currentPlayerIndex (closedOf over a0) = currentPlayerIndex a0
          /\ (phase a0 = AUCTION -> phase (closedOf over a0) = SELECTION)
          /\ (phase a0 <> AUCTION -> phase (closedOf over a0) = phase a0))).
Proof.
  unfold closedOf. cbn [phase set_biddingOpen].
  destruct (Phase_eqb (phase a0) AUCTION) eqn:Ep; [ destruct over | ]; cbn.
  - apply Phase_eqb_eq in Ep. settle.
  - apply Phase_eqb_eq in Ep. settle.
  - apply Phase_eqb_neq in Ep. settle.
Qed.

Lemma boughtOf_map (f : Team -> Team) (ts : TeamMap) :
  (forall t, squad (f t) = squad t) ->
  boughtOf (map (fun kt => (fst kt, f (snd kt))) ts) = boughtOf ts.
Proof.
  intro Hf. unfold boughtOf, teamValues.
  induction ts as [ | [k t] rest IH ]; simpl; [ reflexivity | ].
  rewrite Hf. f_equal. exact IH.
Qed.

Lemma boughtOf_checkAll (ts : TeamMap) : boughtOf (checkAll ts) = boughtOf ts.
Proof. apply boughtOf_map. apply checkTeam_squad. Qed.

Lemma boughtOf_putTeam_new (uid : string) (t : Team) (ts : TeamMap) :
  getTeam uid ts = None ->
  boughtOf (putTeam uid t ts) = boughtOf ts ++ map player (squad t).
Proof.
  intro H. unfold boughtOf. rewrite (teamValues_putTeam_new _ _ _ H).
  rewrite flat_map_app. simpl. rewrite app_nil_r. reflexivity.
Qed.

Lemma boughtOf_putTeam_same (uid : string) (t t1 : Team) (ts : TeamMap) :
  getTeam uid ts = Some t -> squad t1 = squad t ->
  boughtOf (putTeam uid t1 ts) = boughtOf ts.
Proof.
  intros Hg Hs. unfold boughtOf, teamValues.
  induction ts as [ | [k t0] rest IH ]; simpl in *; [ discriminate | ].
  destruct (k =? uid)%string.
  - injection Hg as ->. simpl. rewrite Hs. reflexivity.
  - simpl. f_equal. apply IH, Hg.
Qed.

Lemma boughtOf_putTeam_sold (uid : string) (t : Team) (p : Player) (price : Q)
    (ts : TeamMap) :
  getTeam uid ts = Some t ->
  Permutation (boughtOf (putTeam uid (soldTo t p price) ts)) (p :: boughtOf ts).
Proof.
  intros Hg. unfold boughtOf, teamValues.
  induction ts as [ | [k t0] rest IH ]; simpl in *; [ discriminate | ].
  destruct (k =? uid)%string.
  - injection Hg as ->. simpl. rewrite map_app. simpl.
    rewrite <- app_assoc. simpl. symmetry. apply Permutation_middle.
  - simpl. apply Permutation_sym.
    apply perm_trans with (map player (squad t0) ++ p :: flat_map (fun t1 => map player (squad t1)) (map snd rest)).
    + apply Permutation_middle.
    + apply Permutation_app_head. apply Permutation_sym. apply IH, Hg.
Qed.

Lemma boughtOf_deleteTeam_incl (uid : string) (ts : TeamMap) (p : Player) :
  In p (boughtOf (deleteTeam uid ts)) -> In p (boughtOf ts).
Proof.
  unfold boughtOf, teamValues, deleteTeam.
  induction ts as [ | [k t0] rest IH ]; simpl; [ tauto | ].
  destruct (negb (k =? uid)%string); simpl; rewrite ?in_app_iff; tauto.
Qed.

Lemma NoDup_app_incl {A : Type} (l1 l2 l2' : list A) :
  NoDup (l1 ++ l2) -> NoDup l2' -> incl l2' l2 -> NoDup (l1 ++ l2').
Proof.
  intros H H2 Hi. induction l1 as [ | x l1 IH ]; simpl in *; [ exact H2 | ].
  inversion H as [ | ? ? Hx Hl ]; subst. constructor; [ | apply IH, Hl ].
  rewrite in_app_iff in *. intros [C | C]; [ tauto | ]. apply Hx. right. apply Hi, C.
Qed.

Lemma boughtOf_deleteTeam_NoDup (uid : string) (ts : TeamMap) :
  NoDup (map id (boughtOf ts)) -> NoDup (map id (boughtOf (deleteTeam uid ts))).
Proof.
  unfold boughtOf, teamValues, deleteTeam.
  induction ts as [ | [k t0] rest IH ]; simpl; [ tauto | ].
  rewrite map_app. intro H.
  assert (Hr : NoDup (map id (flat_map (fun t => map player (squad t)) (map snd rest)))).
  { apply NoDup_app_remove_l in H. exact H. }
  destruct (negb (k =? uid)%string); simpl; [ | apply IH, Hr ].
  rewrite map_app. apply NoDup_app_incl with (1 := H); [ apply IH, Hr | ].
  intros x Hx. apply in_map_iff in Hx. destruct Hx as (q & <- & Hq).
  apply in_map. revert Hq. clear. induction rest as [ | [k t0] rest IH ]; simpl; [ tauto | ].
  destruct (negb (k =? uid)%string); simpl; rewrite ?in_app_iff; tauto.
Qed.

Lemma teamsChange_bought (sp price : Q) (onBlock : option Player) (ts ts' : TeamMap) :
  teamsChange false sp price onBlock ts ts' -> boughtOf ts' = boughtOf ts.
Proof.
  intro H. destruct H.
  - reflexivity.
  - apply boughtOf_checkAll.
  - discriminate.
  - rewrite boughtOf_checkAll, boughtOf_putTeam_new by assumption. apply app_nil_r.
  - apply boughtOf_putTeam_same with (t := team); [ assumption | reflexivity ].
  - apply boughtOf_putTeam_same with (t := team); [ assumption | reflexivity ].
Qed.

Section Holdings.

Variable P : Team -> Prop.

(** [P] looks at the squad and the purse only. *)
Hypothesis P_holdings :
  forall t t', squad t' = squad t -> purse t' = purse t -> P t -> P t'.

Lemma Forall_checkAll_holdings (ts : TeamMap) :
  Forall P (teamValues ts) -> Forall P (teamValues (checkAll ts)).
Proof.
  apply Forall_mapTeams. intros t Ht.
  apply (P_holdings t); [ apply checkTeam_squad | apply checkTeam_purse | exact Ht ].
Qed.

Lemma teamsChange_holdings (sp price : Q) (onBlock : option Player) (ts ts' : TeamMap) :
  teamsChange false sp price onBlock ts ts' ->
  (forall uid teamName, P (newTeam uid teamName sp)) ->
  Forall P (teamValues ts) -> Forall P (teamValues ts').
Proof.
  intros H Hnew Hall. destruct H.
  - exact Hall.
  - apply Forall_checkAll_holdings, Hall.
  - discriminate.
  - apply Forall_checkAll_holdings. apply Forall_putTeam; [ apply Hnew | exact Hall ].
  - apply Forall_putTeam; [ | exact Hall ].
    apply (P_holdings team); [ reflexivity | reflexivity | ].
    apply (Forall_getTeam P uid team ts Hall). assumption.
  - apply Forall_putTeam; [ | exact Hall ].
    apply (P_holdings team); [ reflexivity | reflexivity | ].
    apply (Forall_getTeam P uid team ts Hall). assumption.
Qed.

Lemma teamsMove_holdings (ev : Event) (r r' : Room) :
  teamsMove ev r r' ->
  (forall uid teamName, P (newTeam uid teamName (startingPurse r))) ->
  (forall u team p,
      saleOf r u team p -> biddingOpen (auction r) = true -> P team ->
      P (soldTo team p (currentBid (auction r)))) ->
  Forall P (teamValues (teams r)) -> Forall P (teamValues (teams r')).
Proof.
  intros H Hnew Hsale Hall.
  destruct H as [[H Hs] | [[_ [H | H]] | (_ & Ho & u & team & p & over & a0 & Hsl & H & _)]].
  - unfold teamsStep in H. destruct (leaver ev) as [uid | ].
    + rewrite H. apply Forall_deleteTeam, Hall.
    + rewrite Hs in H. apply (teamsChange_holdings _ _ _ _ _ H Hnew Hall).
  - rewrite H. exact Hall.
  - rewrite H. apply Forall_checkAll_holdings, Hall.
  - rewrite H. unfold afterSale. apply Forall_checkAll_holdings.
    apply Forall_putTeam; [ | exact Hall ].
    apply (Hsale u team p Hsl Ho).
    destruct Hsl as (_ & Hg & _). apply (Forall_getTeam P u team _ Hall Hg).
Qed.

End Holdings.

(** ** The squad limits are kept *)

Lemma overseasCount_app (l : list SquadPlayer) (x : SquadPlayer) :
  overseasCount (l ++ [x])
  = (overseasCount l + if isOverseas (player x) then 1 else 0)%nat.
Proof.
  unfold overseasCount. rewrite filter_app, length_app. simpl.
  destruct (isOverseas (player x)); reflexivity.
Qed.

Lemma squadOk_step (ev : Event) (r r' : Room) :
  teamsMove ev r r' -> leaderOk r ->
  Forall squadOk (teamValues (teams r)) -> Forall squadOk (teamValues (teams r')).
Proof.
  intros H Hl. apply (teamsMove_holdings squadOk) with (ev := ev); [ | exact H | | ].
  - intros t t' Hs _. unfold squadOk. rewrite Hs. tauto.
  - intros uid teamName. split; cbn; lia.
  - intros u team p (Hb & Hg & Hc & _ & Hlen) Ho [H1 H2].
    unfold squadOk, soldTo. cbn [squad set_squad set_purse].
    rewrite length_app, overseasCount_app. cbn [List.length player].
    split; [ unfold MAX_SQUAD_SIZE in *; lia | ].
    destruct (isOverseas p) eqn:Eo; [ | lia ].
    specialize (Hl Ho u team p Hb Hg Hc Eo). lia.
Qed.

(** ** Money is conserved *)

Lemma isCents_minus (x y : Q) : isCents x -> isCents y -> isCents (x - y).
Proof.
  intros [a Ha] [b Hb]. exists (a - b)%Z. rewrite Ha, Hb.
  unfold Qeq, Qminus, Qplus, Qopp. cbn. lia.
Qed.

Lemma toFixed2_id (x : Q) : isCents x -> toFixed2 x == x.
Proof.
  intros [k Hk]. rewrite (toFixed2_comp _ _ Hk), Hk. apply toFixed2_cents.
Qed.

Lemma sumQ_app (l1 l2 : list Q) : sumQ (l1 ++ l2) == sumQ l1 + sumQ l2.
Proof.
  unfold sumQ. induction l1 as [ | x l1 IH ]; simpl; [ ring | ]. rewrite IH. ring.
Qed.

Lemma isCents_comp (x y : Q) : x == y -> isCents x -> isCents y.
Proof. intros E [k Hk]. exists k. rewrite <- E. exact Hk. Qed.

Lemma moneyOk_step (ev : Event) (r r' : Room) :
  teamsMove ev r r' -> bidOk (auction r) -> isCents (startingPurse r) ->
  Forall (moneyOk (startingPurse r)) (teamValues (teams r)) ->
  Forall (moneyOk (startingPurse r)) (teamValues (teams r')).
Proof.
  intros H Hb Hsp.
  apply (teamsMove_holdings (moneyOk (startingPurse r))) with (ev := ev); [ | exact H | | ].
  - intros t t' Hs Hp. unfold moneyOk, spent. rewrite Hs, Hp. tauto.
  - intros uid teamName. split; [ exact Hsp | ]. unfold spent. cbn. ring.
  - intros u team p (Hl & _) _ [H1 H2].
    assert (Hc : isCents (currentBid (auction r))).
    { apply Hb. rewrite Hl. discriminate. }
    assert (E : toFixed2 (purse team - currentBid (auction r))
                == purse team - currentBid (auction r)).
    { apply toFixed2_id, isCents_minus; assumption. }
    unfold moneyOk, spent, soldTo. cbn [squad purse set_squad set_purse].
    split; [ apply toFixed2_isCents | ].
    rewrite map_app, sumQ_app, E. cbn. unfold spent in H2. rewrite <- H2. ring.
Qed.

(** ** The leader has room for the player on the block *)

Lemma teamsChange_back (sp price : Q) (onBlock : option Player) (ts ts' : TeamMap)
    (uid : string) (t' : Team) :
  teamsChange false sp price onBlock ts ts' ->
  getTeam uid ts' = Some t' ->
  squad t' = []
  \/ exists t, getTeam uid ts = Some t /\ squad t' = squad t.
Proof.
  intro H. destruct H.
  - intro Hg. right. exists t'. split; [ exact Hg | reflexivity ].
  - unfold checkAll. rewrite getTeam_map.
    destruct (getTeam uid ts) as [ t | ]; [ | discriminate ].
    intro Hg. injection Hg as <-. right. exists t.
    split; [ reflexivity | apply checkTeam_squad ].
  - discriminate.
  - unfold checkAll. rewrite getTeam_map, getTeam_putTeam.
    destruct (uid0 =? uid)%string.
    + intro Hg. injection Hg as <-. left. rewrite checkTeam_squad. reflexivity.
    + destruct (getTeam uid ts) as [ t | ]; [ | discriminate ].
      intro Hg. injection Hg as <-. right. exists t.
      split; [ reflexivity | apply checkTeam_squad ].
  - rewrite getTeam_putTeam. destruct (String.eqb_spec uid0 uid) as [-> | _].
    + intro Hg. injection Hg as <-. right. exists team. split; [ assumption | reflexivity ].
    + intro Hg. right. exists t'. split; [ exact Hg | reflexivity ].
  - rewrite getTeam_putTeam. destruct (String.eqb_spec uid0 uid) as [-> | _].
    + intro Hg. injection Hg as <-. right. exists team. split; [ assumption | reflexivity ].
    + intro Hg. right. exists t'. split; [ exact Hg | reflexivity ].
Qed.

Lemma leaderOk_step (now : Z) (ev : Event) (r r' : Room) (out : list Out) :
  handle now ev r = Live r' out ->
  enabled ev r = true ->
  roundOk (auction r) ->
  leaderOk r -> leaderOk r'.
Proof.
  intros H He Hok Hl Ho' u team' p Hb' Hg' Hc' Hov.
  destruct (bids ev) eqn:Eb.
  - destruct ev; try discriminate Eb.
    apply placeBid_inv in H.
    destruct H as [[-> _] | (team & amount & p0 & _ & Ha & -> & _)].
    + exact (Hl Ho' u team' p Hb' Hg' Hc' Hov).
    + destruct Ha as (_ & Hg & _ & _ & _ & _ & _ & Hc & Hguard).
      cbn in Hb', Hg', Hc'. injection Hb' as <-.
      unfold currentPlayer in Hc, Hc'. cbn in Hc'.
      rewrite Hg in Hg'. injection Hg' as <-.
      rewrite Hc in Hc'. injection Hc' as <-.
      apply Hguard, Hov.
  - pose proof (handle_auctionChange _ _ _ _ _ H He) as Ha. rewrite Eb in Ha.
    destruct (auctionChange_leader _ _ u Ha Ho' Hb') as (Ho & Hb & Epool & Eidx).
    assert (Hc : currentPlayer r = Some p).
    { unfold currentPlayer in *. rewrite <- Epool, <- Eidx. exact Hc'. }
    assert (Hback : squad team' = []
                    \/ exists team, getTeam u (teams r) = Some team
                                    /\ squad team' = squad team).
    { destruct (handle_teamsMove _ _ _ _ _ H He Hok)
        as [[Hs Hf] | [[_ [Hs | Hs]] | (_ & _ & u0 & t0 & p0 & over & a0 & _ & _ & Ea & _)]].
      - unfold teamsStep in Hs. destruct (leaver ev) as [uid | ].
        + rewrite Hs in Hg'. right. exists team'.
          split; [ apply (getTeam_deleteTeam_Some _ _ _ _ Hg') | reflexivity ].
        + rewrite Hf in Hs. exact (teamsChange_back _ _ _ _ _ _ _ Hs Hg').
      - rewrite Hs in Hg'. right. exists team'. split; [ exact Hg' | reflexivity ].
      - rewrite Hs in Hg'. unfold checkAll in Hg'. rewrite getTeam_map in Hg'.
        destruct (getTeam u (teams r)) as [ t | ]; [ | discriminate ].
        injection Hg' as <-. right. exists t.
        split; [ reflexivity | apply checkTeam_squad ].
      - rewrite Ea in Ho'. rewrite (proj1 (closedOf_facts over a0)) in Ho'. discriminate. }
    destruct Hback as [E | (team & Hg & E)]; rewrite E.
    + cbn. unfold MAX_OVERSEAS_SQUAD. lia.
    + exact (Hl Ho u team p Hb Hg Hc Hov).
Qed.

(** ** No player is sold twice *)

(** What the teams hold after a step: what they held, or that and the
    player sold in the step. *)
Lemma teamsMove_bought (ev : Event) (r r' : Room) :
  teamsMove ev r r' ->
  ((forall p, In p (bought r') -> In p (bought r))
   /\ (NoDup (map id (bought r)) -> NoDup (map id (bought r'))))
  \/ (biddingOpen (auction r) = true
      /\ exists p over a0,
           currentPlayer r = Some p
           /\ Permutation (bought r') (p :: bought r)
           /\ auction r' = closedOf over a0
           /\ currentPlayerIndex a0 = currentPlayerIndex (auction r)
           /\ phase a0 = phase (auction r)
           /\ timer a0 = false).
Proof.
  unfold bought.
  intros [[H Hs] | [[_ [H | H]] | (_ & Ho & u & team & p & over & a0 & Hsl & H & Ha)]].
  - left. unfold teamsStep in H. destruct (leaver ev) as [uid | ].
    + rewrite H. split; [ apply boughtOf_deleteTeam_incl | apply boughtOf_deleteTeam_NoDup ].
    + rewrite Hs in H. rewrite (teamsChange_bought _ _ _ _ _ H). tauto.
  - left. rewrite H. tauto.
  - left. rewrite H, boughtOf_checkAll. tauto.
  - right. split; [ exact Ho | ]. exists p, over, a0.
    destruct Hsl as (_ & Hg & Hc & _).
    split; [ exact Hc | ].
    split; [ | exact Ha ].
    rewrite H. unfold afterSale. rewrite boughtOf_checkAll.
    apply boughtOf_putTeam_sold, Hg.
Qed.

Lemma soldOk_step (now : Z) (ev : Event) (r r' : Room) (out : list Out) :
  handle now ev r = Live r' out ->
  enabled ev r = true ->
  auctionInv (auction r) ->
  soldOk r -> soldOk r'.
Proof.
  intros H He (Hok & _ & _ & _ & Hq & _ & _) Hs p Hp.
  pose proof (handle_auctionChange _ _ _ _ _ H He) as Ha.
  destruct (auctionChange_frame _ _ _ Ha) as (Epool & Eidx & Eset).
  destruct (teamsMove_bought _ _ _ (handle_teamsMove _ _ _ _ _ H He Hok))
    as [[Hin _] | (Ho & p0 & over & a0 & Hc & Hperm & Ea & Ei & Eph & Et)].
  - destruct (Hs p (Hin p Hp)) as (i & Hi & [Hlt | (-> & Hcl & Hrk)]).
    + exists i. rewrite Epool. split; [ exact Hi | left; lia ].
    + destruct (Eset Hcl Hrk) as (Hcl' & Ei' & Hrk').
      exists (currentPlayerIndex (auction r)). rewrite Epool.
      split; [ exact Hi | right ]. split; [ symmetry; exact Ei' | tauto ].
  - assert (Hold : forall q, In q (bought r) ->
                     exists i, nth_error (playerPool (auction r)) i = Some q
                               /\ (i < currentPlayerIndex (auction r))%nat).
    { intros q Hq'. destruct (Hs q Hq') as (i & Hi & [Hlt | (_ & [Hcl _] & _)]).
      - exists i. tauto.
      - congruence. }
    assert (Hph : phase (auction r) <> LOBBY /\ phase (auction r) <> SELECTION).
    { split; intro C; destruct Hq as [Hq _]; [ left; exact C | congruence
                                               | right; exact C | congruence ]. }
    destruct (closedOf_facts over a0) as (F1 & F2 & F3 & F4).
    rewrite <- Ea in F1, F3, F4. rewrite Ei, Eph in F4.
    apply (Permutation_in _ Hperm) in Hp. destruct Hp as [<- | Hp].
    + exists (currentPlayerIndex (auction r)). rewrite Epool.
      split; [ exact Hc | ].
      destruct F4 as [[F4 _] | (F4 & F5 & F6)]; [ left; lia | right ].
      split; [ symmetry; exact F4 | ].
      split; [ split; [ exact F1 | exact (F3 Et) ] | ].
      destruct (Phase_eqb_eq (phase (auction r)) AUCTION) as [_ _].
      destruct (phase (auction r)) eqn:Ep.
      * tauto.
      * rewrite F5 by reflexivity. cbn. lia.
      * tauto.
      * rewrite F6 by discriminate. cbn. lia.
    + destruct (Hold p Hp) as (i & Hi & Hlt).
      exists i. rewrite Epool. split; [ exact Hi | left; lia ].
Qed.

Lemma NoDup_ids_index (pool : list Player) (i j : nat) (p q : Player) :
  NoDup (map id pool) ->
  nth_error pool i = Some p -> nth_error pool j = Some q -> id p = id q -> i = j.
Proof.
  intros Hnd Hi Hj E.
  assert (Li : (i < List.length (map id pool))%nat).
  { rewrite length_map. apply nth_error_Some. congruence. }
  apply (proj1 (NoDup_nth_error (map id pool)) Hnd i j Li).
  rewrite !nth_error_map, Hi, Hj. cbn. congruence.
Qed.

Lemma distinctOk_step (now : Z) (ev : Event) (r r' : Room) (out : list Out) :
  handle now ev r = Live r' out ->
  enabled ev r = true ->
  auctionInv (auction r) ->
  soldOk r ->
  distinctOk r -> distinctOk r'.
Proof.
  intros H He (Hok & _) Hs Hd Hnd.
  pose proof (handle_auctionChange _ _ _ _ _ H He) as Ha.
  destruct (auctionChange_frame _ _ _ Ha) as (Epool & _).
  rewrite Epool in Hnd. specialize (Hd Hnd).
  destruct (teamsMove_bought _ _ _ (handle_teamsMove _ _ _ _ _ H He Hok))
    as [[_ Hkeep] | (Ho & p0 & over & a0 & Hc & Hperm & _)].
  - exact (Hkeep Hd).
  - apply (Permutation_NoDup (l := map id (p0 :: bought r))).
    + apply Permutation_sym, Permutation_map, Hperm.
    + cbn. constructor; [ | exact Hd ].
      intro C. apply in_map_iff in C. destruct C as (q & E & Hq).
      destruct (Hs q Hq) as (i & Hi & [Hlt | (_ & [Hcl _] & _)]); [ | congruence ].
      pose proof (NoDup_ids_index _ _ _ _ _ Hnd Hi Hc E). lia.
Qed.

(** ** The invariant of a room *)

Lemma createRoom_marketInv now teamName purse userId initialPool :
  marketInv (fst (createRoom now teamName purse userId initialPool)).
Proof.
  split; [ apply createRoom_teamsInv | ].
  split.
  { split; [ apply createRoom_roundOk | ].
    unfold createRoom. cbn [getTeam teams fst]. rewrite String.eqb_refl.
    cbn [emit fst snd auction].
    unfold clockOk, bidOk, indexOk, quiet, closed, skipOk, lobbyOk.
    cbn. settle. }
  unfold createRoom. cbn [getTeam teams fst]. rewrite String.eqb_refl.
  cbn [emit fst snd].
  split; [ constructor; [ split; cbn; lia | constructor ] | ].
  split; [ intro C; discriminate C | ].
  split; [ intros p [] | ].
  split; [ intros _; constructor | ].
  intro Hc. constructor; [ | constructor ].
  split; [ exact Hc | ]. unfold spent. cbn. ring.
Qed.

Lemma handle_marketInv now ev r r' out :
  marketInv r -> enabled ev r = true -> handle now ev r = Live r' out -> marketInv r'.
Proof.
  intros (Ht & Ha & Hsq & Hl & Hs & Hd & Hm) He H.
  pose proof Ha as (Hok & _ & Hb & _).
  pose proof (handle_teamsMove _ _ _ _ _ H He Hok) as Hmove.
  destruct (handle_teams _ _ _ _ _ H) as [_ Esp].
  split; [ exact (handle_teamsInv _ _ _ _ _ Ht H) | ].
  split; [ exact (auctionChange_inv _ _ _ (handle_auctionChange _ _ _ _ _ H He) Ha) | ].
  split; [ exact (squadOk_step _ _ _ Hmove Hl Hsq) | ].
  split; [ exact (leaderOk_step _ _ _ _ _ H He Hok Hl) | ].
  split; [ exact (soldOk_step _ _ _ _ _ H He Ha Hs) | ].
  split; [ exact (distinctOk_step _ _ _ _ _ H He Ha Hs Hd) | ].
  rewrite Esp. intro Hc. exact (moneyOk_step _ _ _ Hmove Hb Hc (Hm Hc)).
Qed.

Lemma reachable_marketInv (r : Room) : reachable r -> marketInv r.
Proof.
  intros (now & teamName & purse & userId & initialPool & evs & H).
  apply (run_invariant marketInv) with (3 := H).
  - intros. eapply handle_marketInv; eassumption.
  - apply createRoom_marketInv.
Qed.

(** ** What a step leaves of the room itself *)

Ltac frame_room :=
  repeat first [ progress cbn [fst snd upd emit set_lastActivity set_auction inAuction
                               set_teams set_nextPlayerTimeout hostId lastActivity
                               nextPlayerTimeout updateRoomActivity]
               | case_goal ];
  try (split; [ reflexivity
              | split; [ first [ left; reflexivity | right; reflexivity ]
                       | first [ left; reflexivity | right; split; reflexivity ] ] ]).

Lemma checkAuctionCompletion_room now s :
  roomFrame now false s (checkAuctionCompletion now s).
Proof. unfold roomFrame, checkAuctionCompletion, endAuctionPhase. frame_room. Qed.

Lemma finishPlayerUnsold_room now s : roomFrame now true s (finishPlayerUnsold now s).
Proof. unfold roomFrame, finishPlayerUnsold, prepareNext, checkEliminations. frame_room. Qed.

Lemma finishBidding_room now s s' :
  finishBidding now s = Done s' -> roomFrame now true s s'.
Proof.
  unfold finishBidding, finishPlayerUnsold, prepareNext, checkAuctionCompletion,
    endAuctionPhase, checkEliminations, roomFrame.
  cbn [fst snd upd emit].
  repeat case_goal; intro H; try discriminate H; injection H as <-; frame_room.
Qed.

Lemma closeRound_room now s s' : closeRound now s = Done s' -> roomFrame now true s s'.
Proof.
  unfold closeRound. destruct (truthyId _).
  - apply finishBidding_room.
  - intro H. injection H as <-. apply finishPlayerUnsold_room.
Qed.

Lemma rejoinGame_room now userId s : roomFrame now false s (rejoinGame now userId s).
Proof. unfold roomFrame, rejoinGame, replayState, emitResults. frame_room. Qed.

Lemma joinRoom_room now teamName userId s :
  roomFrame now false s (joinRoom now teamName userId s).
Proof.
  unfold roomFrame, joinRoom, replayState, emitResults, checkEliminations. frame_room.
Qed.

Lemma finishBiddingForMe_room now userId s :
  roomFrame now false s (finishBiddingForMe now userId s).
Proof.
  unfold roomFrame, finishBiddingForMe, checkAuctionCompletion, endAuctionPhase.
  frame_room.
Qed.

Lemma startAuction_room now caller s : roomFrame now false s (startAuction now caller s).
Proof.
  unfold roomFrame, startAuction, startNextPlayer, endAuctionPhase, startAuctionTimer.
  frame_room.
Qed.

Lemma placeBid_room now bidAmount userId s s' :
  placeBid now bidAmount userId s = Done s' -> roomFrame now false s s'.
Proof.
  unfold placeBid, startAuctionTimer, roomFrame.
  repeat case_goal; intro H; try discriminate H; injection H as <-; frame_room.
Qed.

Lemma submitPlaying11_room now playerIds cId vcId userId s :
  roomFrame now false s (submitPlaying11 now playerIds cId vcId userId s).
Proof. unfold roomFrame, submitPlaying11, calculateWinner. frame_room. Qed.

Lemma leaveRoom_room now userId s s' :
  leaveRoom now userId s = Some s' ->
  (lastActivity (fst s') = lastActivity (fst s) \/ lastActivity (fst s') = now)
  /\ nextPlayerTimeout (fst s') = nextPlayerTimeout (fst s)
  /\ (if (hostId (fst s) =? userId)%string
      then hd_error (teamKeys (deleteTeam userId (teams (fst s)))) = Some (hostId (fst s'))
      else hostId (fst s') = hostId (fst s))
  /\ teams (fst s') = deleteTeam userId (teams (fst s)).
Proof.
  unfold leaveRoom, checkAuctionCompletion, endAuctionPhase.
  cbn [fst snd upd emit hostId set_teams teams].
  destruct (hostId (fst s) =? userId)%string.
  - destruct (teamKeys (deleteTeam userId (teams (fst s)))) as [ | first rest ];
      [ discriminate | ].
    intro H. injection H as <-.
    repeat case_goal; cbn; repeat split; first [ left; reflexivity | right; reflexivity ].
  - intro H. injection H as <-.
    repeat case_goal; cbn; repeat split; first [ left; reflexivity | right; reflexivity ].
Qed.


Lemma prepareNext_pause now s :
  nextPlayerTimeout (fst (prepareNext now s)) = nextPlayerTimeout (fst s)
  \/ (nextPlayerTimeout (fst (prepareNext now s)) = true
      /\ phase (auction (fst (prepareNext now s))) = AUCTION).
Proof.
  unfold prepareNext.
  destruct (Phase_eqb (phase (auction (fst s))) AUCTION) eqn:Ep; cbn [negb].
  - right. apply Phase_eqb_eq in Ep. split; [ reflexivity | exact Ep ].
  - left. reflexivity.
Qed.

Lemma closeRound_pause now s s' :
  closeRound now s = Done s' ->
  nextPlayerTimeout (fst s') = nextPlayerTimeout (fst s)
  \/ (nextPlayerTimeout (fst s') = true /\ phase (auction (fst s')) = AUCTION).
Proof.
  assert (Hu : forall x, nextPlayerTimeout (fst x) = nextPlayerTimeout (fst s) ->
               nextPlayerTimeout (fst (prepareNext now x)) = nextPlayerTimeout (fst s)
               \/ (nextPlayerTimeout (fst (prepareNext now x)) = true
                   /\ phase (auction (fst (prepareNext now x))) = AUCTION)).
  { intros x Hx. rewrite <- Hx. apply prepareNext_pause. }
  assert (Hk : forall y, nextPlayerTimeout (fst (checkAuctionCompletion now y))
                         = nextPlayerTimeout (fst y)).
  { intro y. destruct (checkAuctionCompletion_room now y) as (_ & _ & [E | [C _]]);
      [ exact E | discriminate C ]. }
  unfold closeRound, finishBidding, finishPlayerUnsold. cbn [fst snd upd emit].
  repeat case_goal; intro H; try discriminate H; injection H as <-;
    apply Hu; rewrite ?Hk; reflexivity.
Qed.

Lemma handle_room (now : Z) (ev : Event) (r r' : Room) (out : list Out) :
  handle now ev r = Live r' out ->
  (lastActivity r' = lastActivity r \/ lastActivity r' = now)
  /\ match ev with
     | LeaveRoom userId =>
         if (hostId r =? userId)%string
         then hd_error (teamKeys (teams r')) = Some (hostId r')
         else hostId r' = hostId r
     | _ => hostId r' = hostId r
     end
  /\ match ev with
     | NextPlayerTimeout => nextPlayerTimeout r' = false
     | TimerTick | SkipForMe _ =>
         nextPlayerTimeout r' = nextPlayerTimeout r
         \/ (nextPlayerTimeout r' = true /\ phase (auction r') = AUCTION)
     | _ => nextPlayerTimeout r' = nextPlayerTimeout r
     end.
Proof.
  intro H.
  assert (Hf : forall s', roomFrame now false (r, []) s' ->
               (lastActivity (fst s') = lastActivity r \/ lastActivity (fst s') = now)
               /\ hostId (fst s') = hostId r
               /\ nextPlayerTimeout (fst s') = nextPlayerTimeout r).
  { intros s' (F1 & F2 & [F3 | [C _]]); [ tauto | discriminate C ]. }
  assert (Hc : forall s s', closeRound now s = Done s' ->
               (lastActivity (fst s') = lastActivity (fst s) \/ lastActivity (fst s') = now)
               /\ hostId (fst s') = hostId (fst s)
               /\ (nextPlayerTimeout (fst s') = nextPlayerTimeout (fst s)
                   \/ (nextPlayerTimeout (fst s') = true
                       /\ phase (auction (fst s')) = AUCTION))).
  { intros s s' E. pose proof (closeRound_room _ _ _ E) as (F1 & F2 & _).
    split; [ exact F2 | ]. split; [ exact F1 | ]. apply (closeRound_pause _ _ _ E). }
  destruct ev.
  - unfold handle, live in H. cbv zeta in H.
    apply Live_inj in H. destruct H as [<- _]. apply Hf, rejoinGame_room.
  - unfold handle, live in H. cbv zeta in H.
    apply Live_inj in H. destruct H as [<- _]. apply Hf, joinRoom_room.
  - unfold handle, live in H. cbv zeta in H.
    destruct (leaveRoom now userId (r, [])) as [s' | ] eqn:E; [ | discriminate ].
    apply Live_inj in H. destruct H as [<- _].
    apply leaveRoom_room in E. destruct E as (F1 & F2 & F3 & F4). cbn [fst] in *.
    split; [ exact F1 | ]. split; [ | exact F2 ].
    rewrite F4. exact F3.
  - unfold handle, live in H. cbv zeta in H.
    apply Live_inj in H. destruct H as [<- _]. apply Hf, finishBiddingForMe_room.
  - unfold handle, live in H. cbv zeta in H.
    apply Live_inj in H. destruct H as [<- _]. apply Hf, startAuction_room.
  - unfold handle, live in H. cbv zeta in H.
    destruct (placeBid now bidAmount userId (r, [])) as [s' | ] eqn:E; [ | discriminate ].
    apply Live_inj in H. destruct H as [<- _].
    apply Hf. apply (placeBid_room _ _ _ _ _ E).
  - rewrite skip_eq in H.
    destruct (mayVote userId r).
    + destruct (skipQuorum (voted userId r)).
      * unfold live in H.
        destruct (closeRound now _) as [s' | ] eqn:E; [ | discriminate ].
        apply Live_inj in H. destruct H as [<- _].
        apply (Hc _ _ E).
      * apply Live_inj in H. destruct H as [<- _]. cbn. tauto.
    + apply Live_inj in H. destruct H as [<- _]. tauto.
  - unfold handle, live in H. cbv zeta in H.
    apply Live_inj in H. destruct H as [<- _]. apply Hf, submitPlaying11_room.
  - rewrite tick_eq in H.
    destruct (timeLeft (auction r) - 1 <=? 0)%Z.
    + unfold live in H.
      destruct (closeRound now _) as [s' | ] eqn:E; [ | discriminate ].
      apply Live_inj in H. destruct H as [<- _].
      apply (Hc _ _ E).
    + apply Live_inj in H. destruct H as [<- _]. cbn. tauto.
  - unfold handle, live in H. cbv zeta in H.
    apply Live_inj in H. destruct H as [<- _].
    unfold nextPlayerTimeoutFired, startNextPlayer, endAuctionPhase, startAuctionTimer.
    cbn [fst snd upd].
    repeat case_goal; cbn; repeat split; first [ left; reflexivity | right; reflexivity ].
Qed.

(** ** The host and the pause *)

Lemma hd_error_getTeam (ts : TeamMap) (k : string) :
  hd_error (teamKeys ts) = Some k -> getTeam k ts <> None.
Proof.
  destruct ts as [ | [k0 t0] rest ]; cbn; [ discriminate | ].
  intro H. injection H as ->. rewrite String.eqb_refl. discriminate.
Qed.

Lemma teamsChange_keeps (canSell : bool) (sp price : Q) (onBlock : option Player)
    (ts ts' : TeamMap) (uid : string) :
  teamsChange canSell sp price onBlock ts ts' ->
  getTeam uid ts <> None -> getTeam uid ts' <> None.
Proof.
  intros H Hg. destruct (getTeam uid ts) as [ t | ] eqn:E; [ | congruence ].
  destruct (teamsChange_stays _ _ _ _ _ _ _ _ H E) as (t' & ->). discriminate.
Qed.

Lemma hostOk_step now ev r r' out :
  handle now ev r = Live r' out -> hostOk r -> hostOk r'.
Proof.
  intros H Hh. unfold hostOk in *.
  destruct (handle_room _ _ _ _ _ H) as (_ & Hhost & _).
  destruct (handle_teams _ _ _ _ _ H) as [Ht _]. unfold teamsStep in Ht.
  destruct ev; cbn [leaver] in Ht;
    try (rewrite Hhost; apply (teamsChange_keeps _ _ _ _ _ _ _ Ht Hh)).
  destruct (String.eqb_spec (hostId r) userId) as [E | E].
  - apply hd_error_getTeam, Hhost.
  - rewrite Hhost, Ht, getTeam_deleteTeam.
    destruct (String.eqb_spec userId (hostId r)); [ congruence | exact Hh ].
Qed.

Lemma closeRound_pauseOk now s s' :
  closeRound now s = Done s' ->
  timer (auction (fst s)) = false ->
  (nextPlayerTimeout (fst s) = true -> phase (auction (fst s)) <> LOBBY) ->
  quiet (auction (fst s')) ->
  pauseOk (fst s').
Proof.
  intros E Ht Hp Hq Hn.
  pose proof (closeRound_pause _ _ _ E) as Hpause.
  apply closeRound_shape in E. destruct E as (_ & (over & E) & _).
  destruct (closedOf_facts over (auction (fst s))) as (G1 & _ & G2 & G3).
  rewrite <- E in G1, G2, G3.
  assert (Hc : closed (auction (fst s'))) by (split; [ exact G1 | exact (G2 Ht) ]).
  split; [ exact Hc | ].
  destruct Hpause as [Ep | [_ Ep]]; [ | congruence ].
  rewrite Ep in Hn. specialize (Hp Hn).
  destruct G3 as [[_ G3] | (_ & G3 & G4)].
  - intro C. unfold quiet in Hq. rewrite E in C. unfold closedOf in C. cbn in C.
    rewrite G3 in C. cbn in C. destruct over; cbn in C; congruence.
  - destruct (phase (auction (fst s))) eqn:Ph; try (rewrite G4 by discriminate);
      try rewrite G3 by reflexivity; try discriminate. contradiction.
Qed.

Lemma pauseOk_step now ev r r' out :
  handle now ev r = Live r' out -> enabled ev r = true ->
  auctionInv (auction r) -> pauseOk r -> pauseOk r'.
Proof.
  intros H He Ha Hp.
  pose proof (auctionChange_inv _ _ _ (handle_auctionChange _ _ _ _ _ H He) Ha)
    as (_ & _ & _ & _ & Hq' & _ & _).
  assert (Hquiet : forall ev0,
             ev0 = ev -> sells ev = false -> ev <> NextPlayerTimeout ->
             nextPlayerTimeout r' = nextPlayerTimeout r ->
             pauseOk r').
  { intros ev0 _ Hsells Hne Hpause Hn. rewrite Hpause in Hn. specialize (Hp Hn).
    pose proof (handle_auctionStep _ _ _ _ _ H) as Hs.
    unfold closed in *.
    destruct ev; cbn [auctionStep] in Hs; try discriminate Hsells;
      try (exfalso; apply Hne; reflexivity).
    - rewrite Hs. exact Hp.
    - rewrite Hs. exact Hp.
    - destruct Hs as [-> | [_ ->]]; [ exact Hp | cbn; settle ].
    - destruct Hs as [-> | [_ ->]]; [ exact Hp | cbn; settle ].
    - destruct Hs as [-> | [C _]]; [ exact Hp | destruct Hp as [_ Hp]; contradiction ].
    - destruct Hs as [-> | (amount & _ & C & _)];
        [ exact Hp | destruct Hp as [[Hp _] _]; congruence ].
    - destruct Hs as [-> | ->]; [ exact Hp | cbn; settle ]. }
  destruct (handle_room _ _ _ _ _ H) as (_ & _ & Hpause).
  destruct ev; try (apply (Hquiet _ eq_refl); [ reflexivity | discriminate | exact Hpause ]);
    clear Hquiet.
  - rewrite skip_eq in H.
    destruct (mayVote userId r) eqn:Ev.
    + apply mayVote_open in Ev.
      assert (Hno : nextPlayerTimeout r = true -> False).
      { intro Hn. destruct (Hp Hn) as [[C _] _]. congruence. }
      destruct (skipQuorum (voted userId r)).
      * unfold live in H.
        destruct (closeRound now _) as [s' | ] eqn:E; [ | discriminate ].
        apply Live_inj in H. destruct H as [<- _].
        apply (closeRound_pauseOk _ _ _ E); [ reflexivity | | exact Hq' ].
        cbn. intro Hn. destruct (Hno Hn).
      * apply Live_inj in H. destruct H as [<- _].
        intro Hn. destruct (Hno Hn).
    + apply Live_inj in H. destruct H as [<- _]. exact Hp.
  - rewrite tick_eq in H. cbn in He.
    assert (Hno : nextPlayerTimeout r = true -> False).
    { intro Hn. destruct (Hp Hn) as [[_ C] _]. congruence. }
    destruct (timeLeft (auction r) - 1 <=? 0)%Z.
    + unfold live in H.
      destruct (closeRound now _) as [s' | ] eqn:E; [ | discriminate ].
      apply Live_inj in H. destruct H as [<- _].
      apply (closeRound_pauseOk _ _ _ E); [ reflexivity | | exact Hq' ].
      cbn. intro Hn. destruct (Hno Hn).
    + apply Live_inj in H. destruct H as [<- _].
      intro Hn. destruct (Hno Hn).
  - intro Hn. congruence.
Qed.

(** ** Rankings *)

Lemma insertByScore_perm (t : Team) (l : list Team) :
  Permutation (insertByScore t l) (t :: l).
Proof.
  induction l as [ | u rest IH ]; simpl; [ apply Permutation_refl | ].
  destruct (Qlt_bool (totalScore t) (totalScore u)); [ | apply Permutation_refl ].
  apply perm_trans with (u :: t :: rest); [ apply perm_skip, IH | apply perm_swap ].
Qed.

Lemma sortByScore_perm (l : list Team) : Permutation (sortByScore l) l.
Proof.
  unfold sortByScore. induction l as [ | t rest IH ]; simpl; [ apply Permutation_refl | ].
  apply perm_trans with (t :: fold_right insertByScore [] rest);
    [ apply insertByScore_perm | apply perm_skip, IH ].
Qed.

Lemma insertByScore_sorted (t : Team) (l : list Team) :
  StronglySorted scoreOrder l -> StronglySorted scoreOrder (insertByScore t l).
Proof.
  induction 1 as [ | u rest Hs IH Hu ]; simpl.
  - constructor; [ constructor | constructor ].
  - destruct (Qlt_bool (totalScore t) (totalScore u)) eqn:E.
    + apply Qlt_bool_true in E. constructor; [ exact IH | ].
      apply (Permutation_Forall (Permutation_sym (insertByScore_perm t rest))).
      constructor; [ apply Qlt_le_weak, E | exact Hu ].
    + apply Qlt_bool_false in E. constructor.
      * constructor; assumption.
      * constructor; [ exact E | ].
        apply Forall_impl with (2 := Hu). intros x Hx. unfold scoreOrder in *.
        apply Qle_trans with (totalScore u); assumption.
Qed.

Lemma sortByScore_sorted (l : list Team) : StronglySorted scoreOrder (sortByScore l).
Proof.
  unfold sortByScore. induction l as [ | t rest IH ]; simpl; [ constructor | ].
  apply insertByScore_sorted, IH.
Qed.

(** The sort is stable: teams with the same score keep their order. *)
Lemma insertByScore_stable (q : Q) (t : Team) (l : list Team) :
  filter (fun x => Qeq_bool (totalScore x) q) (insertByScore t l)
  = filter (fun x => Qeq_bool (totalScore x) q) (t :: l).
Proof.
  induction l as [ | u rest IH ]; simpl; [ reflexivity | ].
  destruct (Qlt_bool (totalScore t) (totalScore u)) eqn:E; [ | reflexivity ].
  simpl. rewrite IH. simpl.
  destruct (Qeq_bool (totalScore t) q) eqn:Et; [ | reflexivity ].
  destruct (Qeq_bool (totalScore u) q) eqn:Eu; [ | reflexivity ].
  apply Qlt_bool_true in E. apply Qeq_bool_iff in Et, Eu.
  rewrite Et, Eu in E. exfalso. exact (Qlt_irrefl _ E).
Qed.

Lemma sortByScore_stable (q : Q) (l : list Team) :
  filter (fun x => Qeq_bool (totalScore x) q) (sortByScore l)
  = filter (fun x => Qeq_bool (totalScore x) q) l.
Proof.
  unfold sortByScore. induction l as [ | t rest IH ]; simpl; [ reflexivity | ].
  rewrite insertByScore_stable. simpl. rewrite IH. reflexivity.
Qed.

(** ** Rounding *)

Lemma toFixed2_near (x : Q) : x - (1 # 200) <= toFixed2 x /\ toFixed2 x <= x + (1 # 200).
Proof.
  unfold toFixed2. destruct (Qle_bool 0 x).
  - destruct (round100_near x) as [H1 H2]. unfold round100 in *.
    split; [ apply Qlt_le_weak, H2 | exact H1 ].
  - destruct (round100_near (- x)) as [H1 H2]. unfold round100 in *.
    split; lra.
Qed.

(** ** The countdown *)


(** ** Reachable rooms *)

Lemma createRoom_hostOk now teamName purse userId initialPool :
  hostOk (fst (createRoom now teamName purse userId initialPool)).
Proof.
  unfold hostOk, createRoom. cbn [getTeam teams fst]. rewrite String.eqb_refl.
  cbn. rewrite String.eqb_refl. discriminate.
Qed.

Lemma createRoom_pauseOk now teamName purse userId initialPool :
  pauseOk (fst (createRoom now teamName purse userId initialPool)).
Proof.
  unfold pauseOk, createRoom. cbn [getTeam teams fst]. rewrite String.eqb_refl.
  cbn. discriminate.
Qed.

Lemma reachable_hostOk (r : Room) : reachable r -> hostOk r.
Proof.
  intros (now & teamName & purse & userId & initialPool & evs & H).
  apply (run_invariant hostOk) with (3 := H).
  - intros. eapply hostOk_step; eassumption.
  - apply createRoom_hostOk.
Qed.

Lemma reachable_pauseOk (r : Room) : reachable r -> pauseOk r.
Proof.
  intros (now & teamName & purse & userId & initialPool & evs & H).
  apply (run_invariant (fun r => marketInv r /\ pauseOk r)) with (3 := H).
  - intros now0 ev r0 r' out [Hm Hp] He Hh.
    split; [ eapply handle_marketInv; eassumption | ].
    destruct Hm as (_ & Ha & _). eapply pauseOk_step; eassumption.
  - split; [ apply createRoom_marketInv | apply createRoom_pauseOk ].
Qed.

(** The pool and the starting purse are those of the creation. *)
Lemma run_constants (evs : list (Z * Event)) (r r' : Room) :
  run evs r = Some r' ->
  playerPool (auction r') = playerPool (auction r)
  /\ startingPurse r' = startingPurse r.
Proof.
  revert r. induction evs as [ | [now ev] rest IH ]; intros r H; cbn in H.
  - injection H as <-. split; reflexivity.
  - destruct (enabled ev r); [ | discriminate ].
    destruct (handle now ev r) as [r1 out | | ] eqn:E; try discriminate.
    destruct (IH _ H) as [E1 E2].
    destruct (handle_auction _ _ _ _ _ E) as (E3 & _).
    destruct (handle_teams _ _ _ _ _ E) as (_ & E4).
    split; congruence.
Qed.

(** The finished flag is never lowered. *)
Lemma teamsChange_finished (canSell : bool) (sp price : Q) (onBlock : option Player)
    (ts ts' : TeamMap) (uid : string) (t t' : Team) :
  teamsChange canSell sp price onBlock ts ts' ->
  getTeam uid ts = Some t -> getTeam uid ts' = Some t' ->
  isFinishedBidding t = true -> isFinishedBidding t' = true.
Proof.
  assert (Hc : forall x, isFinishedBidding (checkTeam x) = isFinishedBidding x).
  { intro x. unfold checkTeam. destruct (eliminationDue x); reflexivity. }
  intros H Hg Hg' Hf. destruct H.
  - congruence.
  - unfold checkAll in Hg'. rewrite getTeam_map, Hg in Hg'. injection Hg' as <-.
    rewrite Hc. exact Hf.
  - unfold checkAll in Hg'. rewrite getTeam_map, getTeam_putTeam in Hg'.
    destruct (String.eqb_spec uid0 uid) as [-> | _].
    + injection Hg' as <-. rewrite Hc. cbn. congruence.
    + rewrite Hg in Hg'. injection Hg' as <-. rewrite Hc. exact Hf.
  - unfold checkAll in Hg'. rewrite getTeam_map, getTeam_putTeam in Hg'.
    destruct (String.eqb_spec uid0 uid) as [-> | _]; [ congruence | ].
    rewrite Hg in Hg'. injection Hg' as <-. rewrite Hc. exact Hf.
  - rewrite getTeam_putTeam in Hg'. destruct (String.eqb_spec uid0 uid) as [-> | _].
    + injection Hg' as <-. reflexivity.
    + congruence.
  - rewrite getTeam_putTeam in Hg'. destruct (String.eqb_spec uid0 uid) as [-> | _].
    + injection Hg' as <-. cbn. congruence.
    + congruence.
Qed.

Lemma handle_finished (now : Z) (ev : Event) (r r' : Room) (out : list Out)
    (uid : string) (t t' : Team) :
  handle now ev r = Live r' out ->
  getTeam uid (teams r) = Some t -> getTeam uid (teams r') = Some t' ->
  isFinishedBidding t = true -> isFinishedBidding t' = true.
Proof.
  intros H Hg Hg' Hf. destruct (handle_teams _ _ _ _ _ H) as [Ht _].
  unfold teamsStep in Ht. destruct (leaver ev) as [userId | ].
  - rewrite Ht in Hg'. apply getTeam_deleteTeam_Some in Hg'. congruence.
  - exact (teamsChange_finished _ _ _ _ _ _ _ _ _ Ht Hg Hg' Hf).
Qed.

Lemma putTeam_new (uid : string) (t : Team) (ts : TeamMap) :
  getTeam uid ts = None -> putTeam uid t ts = ts ++ [(uid, t)].
Proof.
  induction ts as [ | [k t0] rest IH ]; simpl; [ reflexivity | ].
  destruct (k =? uid)%string; [ discriminate | ]. intro H. rewrite (IH H). reflexivity.
Qed.

Lemma closeRound_progress now s s' :
  closeRound now s = Done s' ->
  phase (auction (fst s')) = AUCTION -> nextPlayerTimeout (fst s') = true.
Proof.
  assert (Hu : forall x,
             phase (auction (fst (prepareNext now x))) = AUCTION ->
             nextPlayerTimeout (fst (prepareNext now x)) = true).
  { intro x. unfold prepareNext.
    destruct (Phase_eqb (phase (auction (fst x))) AUCTION) eqn:Ep; cbn [negb].
    - reflexivity.
    - intro C. apply Phase_eqb_neq in Ep. contradiction. }
  unfold closeRound, finishBidding, finishPlayerUnsold. cbn [fst snd upd emit].
  repeat case_goal; intro H; try discriminate H; injection H as <-; apply Hu.
Qed.

Lemma progressOk_step now ev r r' out :
  handle now ev r = Live r' out -> enabled ev r = true ->
  pauseOk r -> progressOk r -> progressOk r'.
Proof.
  intros H He Hpz Hp Hph.
  destruct (handle_room _ _ _ _ _ H) as (_ & _ & Hpause).
  pose proof (handle_auctionStep _ _ _ _ _ H) as Hs.
  unfold progressOk, pauseOk, closed in *.
  destruct ev; cbn [auctionStep] in Hs.
  - rewrite Hpause. rewrite Hs in *. exact (Hp Hph).
  - rewrite Hpause. rewrite Hs in *. exact (Hp Hph).
  - rewrite Hpause. destruct Hs as [Hs | [_ Hs]]; rewrite Hs in *;
      [ exact (Hp Hph) | discriminate Hph ].
  - rewrite Hpause. destruct Hs as [Hs | [_ Hs]]; rewrite Hs in *;
      [ exact (Hp Hph) | discriminate Hph ].
  - rewrite Hpause. destruct Hs as [Hs | [Hl Hs]]; rewrite Hs in *;
      [ exact (Hp Hph) | ].
    assert (Hf : nextPlayerTimeout r = false).
    { destruct (nextPlayerTimeout r); [ | reflexivity ].
      destruct (Hpz eq_refl) as [_ C]. contradiction. }
    unfold nextOf in *. cbn [playerPool currentPlayerIndex set_phase] in *.
    destruct (nth_error _ _); cbn in *; [ left; tauto | discriminate Hph ].
  - rewrite Hpause. destruct Hs as [Hs | (amount & _ & Ho & Hs)]; rewrite Hs in *;
      [ exact (Hp Hph) | ].
    cbn in Hph. destruct (Hp Hph) as [(_ & _ & F) | (C & _)]; [ | congruence ].
    left. cbn. tauto.
  - rewrite skip_eq in H.
    destruct (mayVote userId r) eqn:Ev.
    + apply mayVote_open in Ev.
      destruct (skipQuorum (voted userId r)).
      * unfold live in H.
        destruct (closeRound now _) as [s' | ] eqn:E; [ | discriminate ].
        apply Live_inj in H. destruct H as [<- _].
        right. pose proof (closeRound_progress _ _ _ E Hph) as F.
        apply closeRound_shape in E. destruct E as (_ & (over & E) & _).
        match type of E with
        | _ = closedOf over ?a0 =>
            destruct (closedOf_facts over a0) as (G1 & _ & G2 & _)
        end.
        rewrite <- E in G1, G2. split; [ exact G1 | ]. split; [ apply G2; reflexivity | exact F ].
      * apply Live_inj in H. destruct H as [<- _]. cbn in *. exact (Hp Hph).
    + apply Live_inj in H. destruct H as [<- _]. exact (Hp Hph).
  - rewrite Hpause. destruct Hs as [Hs | Hs]; rewrite Hs in *;
      [ exact (Hp Hph) | discriminate Hph ].
  - rewrite tick_eq in H. cbn in He.
    destruct (timeLeft (auction r) - 1 <=? 0)%Z.
    + unfold live in H.
      destruct (closeRound now _) as [s' | ] eqn:E; [ | discriminate ].
      apply Live_inj in H. destruct H as [<- _].
      right. pose proof (closeRound_progress _ _ _ E Hph) as F.
      apply closeRound_shape in E. destruct E as (_ & (over & E) & _).
      match type of E with
      | _ = closedOf over ?a0 =>
          destruct (closedOf_facts over a0) as (G1 & _ & G2 & _)
      end.
      rewrite <- E in G1, G2. split; [ exact G1 | ]. split; [ apply G2; reflexivity | exact F ].
    + apply Live_inj in H. destruct H as [<- _]. cbn in *. exact (Hp Hph).
  - rewrite Hpause. rewrite Hs in *.
    destruct (Phase_eqb (phase (auction r)) AUCTION) eqn:Ep.
    + unfold nextOf in *. destruct (nth_error _ _); cbn in *;
        [ left; tauto | discriminate Hph ].
    + apply Phase_eqb_neq in Ep. contradiction.
Qed.

Lemma createRoom_progressOk now teamName purse userId initialPool :
  progressOk (fst (createRoom now teamName purse userId initialPool)).
Proof.
  unfold progressOk, createRoom. cbn [getTeam teams fst]. rewrite String.eqb_refl.
  cbn. discriminate.
Qed.

Lemma reachable_progressOk (r : Room) : reachable r -> progressOk r.
Proof.
  intros (now & teamName & purse & userId & initialPool & evs & H).
  apply (run_invariant (fun r => (marketInv r /\ pauseOk r) /\ progressOk r)) with (3 := H).
  - intros now0 ev r0 r' out [[Hm Hp] Hg] He Hh.
    split; [ split | ].
    + eapply handle_marketInv; eassumption.
    + destruct Hm as (_ & Ha & _). eapply pauseOk_step; eassumption.
    + eapply progressOk_step; eassumption.
  - split; [ split | ];
      [ apply createRoom_marketInv | | apply createRoom_progressOk ].
    unfold pauseOk, createRoom. cbn [getTeam teams fst]. rewrite String.eqb_refl.
    cbn. discriminate.
Qed.

Lemma shuffleArray_perm {A : Type} (random : nat -> Q) (array : list A) :
  Permutation array (shuffleArray random array).
Proof. apply Permutation_sym. apply shuffleLoop_perm. Qed.

Lemma shuffleArray_length {A : Type} (random : nat -> Q) (array : list A) :
  List.length (shuffleArray random array) = List.length array.
Proof. symmetry. apply Permutation_length, shuffleArray_perm. Qed.


Lemma joinRoom_effect now teamName userId r :
  let s' := joinRoom now teamName userId (r, []) in
  auction (fst s') = auction r
  /\ hostId (fst s') = hostId r
  /\ startingPurse (fst s') = startingPurse r
  /\ nextPlayerTimeout (fst s') = nextPlayerTimeout r
  /\ lastActivity (fst s') = now
  /\ teams (fst s')
     = checkAll (match getTeam userId (teams r) with
                 | Some _ => teams r
                 | None =>
                     teams r
                     ++ [(userId, newTeam userId (teamNameOr teamName) (startingPurse r))]
                 end)
  /\ exists pre,
       snd s' = pre ++ [ToRoom (TeamsUpdated (teamValues (teams (fst s'))))].
Proof.
  cbn zeta. unfold joinRoom, replayState, emitResults, checkEliminations.
  cbn [fst snd upd emit updateRoomActivity].
  destruct (getTeam userId (teams r)) as [ team | ] eqn:Eg.
  - cbn [fst snd upd emit teams set_lastActivity]. rewrite Eg.
    repeat case_goal; cbn [fst snd upd emit]; repeat (split; [ reflexivity | ]);
      eexists; reflexivity.
  - cbn [fst snd upd emit teams set_lastActivity set_teams].
    rewrite getTeam_putTeam, String.eqb_refl.
    repeat case_goal; cbn [fst snd upd emit];
      (split; [ reflexivity | ]); (split; [ reflexivity | ]); (split; [ reflexivity | ]);
      (split; [ reflexivity | ]); (split; [ reflexivity | ]);
      (split; [ cbn; rewrite (putTeam_new _ _ _ Eg); reflexivity | ]);
      eexists; reflexivity.
Qed.


Lemma reachable_pool (r : Room) : reachable r -> playerPool (auction r) <> [].
Proof.
  intros (now & teamName & purse & userId & initialPool & evs & H).
  destruct (run_constants _ _ _ H) as [E _]. rewrite E.
  unfold createRoom. cbn [getTeam teams fst]. rewrite String.eqb_refl. cbn.
  destruct initialPool; cbn; discriminate.
Qed.




Lemma auctionStep_index (ev : Event) (a a' : Auction) :
  auctionStep ev a a' ->
  currentPlayerIndex a' = S (currentPlayerIndex a) ->
  sells ev = true /\ phase a = AUCTION /\ phase a' = AUCTION
  /\ biddingOpen a' = false /\ timer a' = false.
Proof.
  assert (Hn : forall x, currentPlayerIndex (nextOf x) = currentPlayerIndex x).
  { intro x. unfold nextOf. destruct (nth_error _ _); reflexivity. }
  assert (Hc : forall over a0,
             timer a0 = false ->
             currentPlayerIndex (closedOf over a0) = S (currentPlayerIndex a0) ->
             phase a0 = AUCTION /\ phase (closedOf over a0) = AUCTION
             /\ biddingOpen (closedOf over a0) = false
             /\ timer (closedOf over a0) = false).
  { intros over a0 Ht. unfold closedOf. cbn [phase set_biddingOpen].
    destruct (Phase_eqb (phase a0) AUCTION) eqn:Ep; [ destruct over | ]; cbn;
      intro C; try lia.
    apply Phase_eqb_eq in Ep. tauto. }
  intros H E. destruct ev; cbn [auctionStep sells] in *.
  - subst a'. lia.
  - subst a'. lia.
  - destruct H as [-> | [_ ->]]; cbn in E; lia.
  - destruct H as [-> | [_ ->]]; cbn in E; lia.
  - destruct H as [-> | [_ ->]]; [ lia | rewrite Hn in E; cbn in E; lia ].
  - destruct H as [-> | (amount & _ & _ & ->)]; cbn in E; lia.
  - destruct H as [-> | (_ & [-> | (over & ->)])]; [ lia | cbn in E; lia | ].
    split; [ reflexivity | ].
    apply (Hc over (set_timer false (votedBy userId a)) eq_refl) in E. cbn in E. tauto.
  - destruct H as [-> | ->]; cbn in E; lia.
  - destruct (timeLeft a - 1 <=? 0)%Z.
    + destruct H as (over & ->).
      split; [ reflexivity | ].
      apply (Hc over (set_timer false (ticked a)) eq_refl) in E. cbn in E. tauto.
    + subst a'. cbn in E. lia.
  - subst a'. destruct (Phase_eqb (phase a) AUCTION); [ rewrite Hn in E | ]; lia.
Qed.

Lemma NoDup_flat_map_part {A B : Type} (f : A -> list B) (l : list A) (x : A) :
  NoDup (flat_map f l) -> In x l -> NoDup (f x).
Proof.
  induction l as [ | y rest IH ]; simpl; [ tauto | ].
  intros H [-> | Hx].
  - apply NoDup_app_remove_r in H. exact H.
  - apply IH; [ | exact Hx ]. apply NoDup_app_remove_l in H. exact H.
Qed.

(** ** Plain ids and halted rooms *)


(** In a halted room no event opens a round, starts a timer or moves the
    index: the auction can only be ended. *)
Lemma halted_step (now : Z) (ev : Event) (r r' : Room) (out : list Out) :
  handle now ev r = Live r' out -> enabled ev r = true -> halted r ->
  halted r' /\ currentPlayerIndex (auction r') = currentPlayerIndex (auction r).
Proof.
  intros H He ([Ho Ht] & Hp & Hl).
  pose proof (handle_auctionStep _ _ _ _ _ H) as Hs.
  destruct (handle_room _ _ _ _ _ H) as (_ & _ & Hn).
  unfold halted, closed.
  destruct ev; cbn [auctionStep] in Hs; cbn [enabled] in He; try congruence.
  - rewrite Hs, Hn. tauto.
  - rewrite Hs, Hn. tauto.
  - rewrite Hn. destruct Hs as [-> | [_ ->]]; cbn; repeat split; try assumption;
      discriminate.
  - rewrite Hn. destruct Hs as [-> | [_ ->]]; cbn; repeat split; try assumption;
      discriminate.
  - rewrite Hn. destruct Hs as [-> | [C _]]; [ tauto | contradiction ].
  - rewrite Hn. destruct Hs as [-> | (amount & _ & C & _)]; [ tauto | congruence ].
  - rewrite skip_eq in H. destruct (mayVote userId r) eqn:Ev.
    + apply mayVote_open in Ev. congruence.
    + apply Live_inj in H. destruct H as [<- _]. tauto.
  - rewrite Hn. destruct Hs as [-> | ->]; cbn; repeat split; try assumption.
    discriminate.
Qed.

Lemma halted_run (evs : list (Z * Event)) (r r' : Room) :
  halted r -> run evs r = Some r' ->
  halted r' /\ currentPlayerIndex (auction r') = currentPlayerIndex (auction r).
Proof.
  intros Hh H.
  apply (run_invariant
           (fun x => halted x
                     /\ currentPlayerIndex (auction x) = currentPlayerIndex (auction r)))
    with (3 := H).
  - intros now ev r0 r1 out [Hh0 Hi] He Hs.
    destruct (halted_step _ _ _ _ _ Hs He Hh0) as [Hh1 Hi1].
    split; [ exact Hh1 | congruence ].
  - split; [ exact Hh | reflexivity ].
Qed.

(** A room saved during the pause between two rounds is halted once it
    is loaded. *)
Lemma reloaded_halted (r : Room) :
  pauseOk r -> nextPlayerTimeout r = true -> halted (reloaded r).
Proof.
  intros Hp Hn. destruct (Hp Hn) as [[Ho _] Hl].
  unfold halted, closed, reloaded. cbn. tauto.
Qed.


(** * More properties of the server *)

(** ** Utilities *)

(** X1. [sanitizeInput] returns at most [maxLength] code units, none of
    them an angle bracket and all of them taken from the argument; an
    argument that is not a string, or the empty string, gives the empty
    string. A team name, [sanitizeInput(teamName, 30) || "Team"], is
    therefore never empty and never longer than 30. *)
Theorem sanitizeInput_safe (str : option json) (maxLength : nat) :
  (String.length (sanitizeInput str maxLength) <= maxLength)%nat
  /\ (forall c, In c (list_ascii_of_string (sanitizeInput str maxLength)) ->
      c <> "<"%char /\ c <> ">"%char
      /\ exists s, str = Some (JString s) /\ In c (list_ascii_of_string s))
  /\ ((forall s, str <> Some (JString s)) -> sanitizeInput str maxLength = "")
  /\ sanitizeInput (Some (JString "")) maxLength = ""
  /\ teamNameOr (sanitizeInput str 30) <> ""
  /\ (String.length (teamNameOr (sanitizeInput str 30)) <= 30)%nat.
Proof.
  split; [ apply sanitizeInput_length | ].
  split.
  { intros c Hc. destruct (sanitizeInput_chars _ _ _ Hc) as (Ha & Hs).
    unfold isAngle in Ha. apply orb_false_iff in Ha. destruct Ha as [H1 H2].
    split; [ apply Ascii.eqb_neq, H1 | ]. split; [ apply Ascii.eqb_neq, H2 | exact Hs ]. }
  split.
  { intro H. destruct str as [ [ | | | s | | ] | ]; try reflexivity.
    destruct (H s eq_refl). }
  split; [ reflexivity | ].
  unfold teamNameOr, truthy.
  destruct (String.eqb_spec (sanitizeInput str 30) "") as [E | E]; cbn [negb].
  - split; [ discriminate | cbn; lia ].
  - split; [ exact E | apply sanitizeInput_length ].
Qed.

Lemma sanitizeInput_safe_witness :
  sanitizeInput (Some (JString "  <b>Mumbai</b> ")) 30 = "bMumbai/b"
  /\ sanitizeInput (Some (JNumber 7)) 30 = ""
  /\ (String.length (sanitizeInput (Some (JString "  <b>Mumbai</b> ")) 30) <= 30)%nat
  /\ sanitizeInput (Some (JNumber 7)) 30 = "".
Proof.
  split; [ vm_compute; reflexivity | ].
  split; [ vm_compute; reflexivity | ].
  split; [ exact (proj1 (sanitizeInput_safe (Some (JString "  <b>Mumbai</b> ")) 30)) | ].
  destruct (sanitizeInput_safe (Some (JNumber 7)) 30) as (_ & _ & H & _).
  apply H. intros s C. discriminate C.
Defined.

(** X2. [sanitizeInput] returns a string as it is exactly when the
    string has no angle bracket, at most [maxLength] code units and no
    white space at either end. *)
Theorem sanitizeInput_fixpoints (maxLength : nat) (s : string) :
  sanitizeInput (Some (JString s)) maxLength = s <-> cleanInput maxLength s = true.
Proof. apply sanitizeInput_fixes. Qed.

Lemma sanitizeInput_fixpoints_witness :
  sanitizeInput (Some (JString "user-42")) 100 = "user-42"
  /\ cleanInput 100 " user-42" = false
  /\ sanitizeInput (Some (JString " user-42")) 100 <> " user-42".
Proof.
  split.
  - apply (proj2 (sanitizeInput_fixpoints 100 "user-42")). vm_compute. reflexivity.
  - split; [ vm_compute; reflexivity | ].
    intro C. apply (proj1 (sanitizeInput_fixpoints 100 " user-42")) in C.
    vm_compute in C. discriminate C.
Defined.

(** X3. The weighted rating lies between the smallest and the largest
    of the three skills, a skill that is not a number counting as 0, so
    skills from 0 to 100 give a rating from 0 to 100; and a higher skill
    never gives a lower rating. *)
Theorem weightedRating_bounds (role : string) (bat bowl field : option Z) :
  (forall lo hi : Z,
      (lo <= intOrZero bat <= hi)%Z ->
      (lo <= intOrZero bowl <= hi)%Z ->
      (lo <= intOrZero field <= hi)%Z ->
      (lo <= calculateWeightedRating role bat bowl field <= hi)%Z)
  /\ (forall bat' bowl' field',
         (intOrZero bat <= intOrZero bat')%Z ->
         (intOrZero bowl <= intOrZero bowl')%Z ->
         (intOrZero field <= intOrZero field')%Z ->
         (calculateWeightedRating role bat bowl field
          <= calculateWeightedRating role bat' bowl' field')%Z)
  /\ calculateWeightedRating role None None None = 0%Z.
Proof.
  split; [ intros lo hi; apply calculateWeightedRating_bounds | ].
  split; [ intros bat' bowl' field'; apply calculateWeightedRating_mono | ].
  assert (H : (0 <= calculateWeightedRating role None None None <= 0)%Z).
  { apply calculateWeightedRating_bounds; cbn; lia. }
  lia.
Qed.

Lemma weightedRating_bounds_witness :
  calculateWeightedRating "Batsman" (Some 90%Z) (Some 20%Z) (Some 70%Z) = 83%Z
  /\ (0 <= calculateWeightedRating "Batsman" (Some 90%Z) (Some 20%Z) (Some 70%Z)
      <= 100)%Z.
Proof.
  split; [ vm_compute; reflexivity | ].
  apply (proj1 (weightedRating_bounds "Batsman" (Some 90%Z) (Some 20%Z) (Some 70%Z)));
    cbn; lia.
Defined.

(** X4. [loadPlayerDatabase] returns one player for every entry of the
    file, in the order of the file, and nothing when the file cannot be
    read. Every player it returns has a non-empty id, country and
    status and a base price other than 0: a missing id becomes
    [player_] and the position, a missing country "India", a missing
    status "Uncapped" and a missing base price 0.2. *)
Theorem loadPlayerDatabase_defaults (file : option (list RawPlayer)) :
  loadPlayerDatabase None = []
  /\ (forall players,
         file = Some players ->
         List.length (loadPlayerDatabase file) = List.length players
         /\ forall idx,
              nth_error (loadPlayerDatabase file) idx
              = option_map (playerOfRaw idx) (nth_error players idx))
  /\ (forall p,
         In p (loadPlayerDatabase file) ->
         id p <> "" /\ country p <> "" /\ status p <> "" /\ ~ basePrice p == 0)
  /\ (forall idx raw,
         (raw_id raw = None -> id (playerOfRaw idx raw) = generatedId idx)
         /\ (raw_country raw = None -> country (playerOfRaw idx raw) = "India")
         /\ (raw_status raw = None -> status (playerOfRaw idx raw) = "Uncapped")
         /\ (raw_basePrice raw = None -> basePrice (playerOfRaw idx raw) = 2 # 10)).
Proof.
  split; [ reflexivity | ].
  split.
  { intros players ->. cbn. split; [ apply mapFrom_length | ].
    intro idx. rewrite mapFrom_nth. reflexivity. }
  split.
  { intros p Hp. destruct file as [ players | ]; [ | destruct Hp ].
    cbn in Hp. apply mapFrom_In in Hp. destruct Hp as (i & raw & _ & ->). cbn.
    assert (T : forall s, truthy s = true -> s <> "").
    { intros s Hs E. subst s. discriminate Hs. }
    split; [ apply T, stringOr_truthy; reflexivity | ].
    split; [ apply T, stringOr_truthy; reflexivity | ].
    split; [ apply T, stringOr_truthy; reflexivity | ].
    apply numberOr_nonzero. discriminate. }
  intros idx raw. unfold playerOfRaw. cbn.
  repeat split; intros ->; reflexivity.
Qed.

Lemma loadPlayerDatabase_defaults_witness :
  map (fun p => (id p, country p, status p, rating p, basePrice p))
      (loadPlayerDatabase (Some demoRaw))
  = [("player_0", "India", "Uncapped", 83%Z, 2 # 10);
     ("p7", "Overseas", "Capped", 89%Z, 2 # 1);
     ("player_2", "India", "Uncapped", 0%Z, 2 # 10)]
  /\ List.length (loadPlayerDatabase (Some demoRaw)) = 3%nat.
Proof.
  split; [ vm_compute; reflexivity | ].
  destruct (loadPlayerDatabase_defaults (Some demoRaw)) as (_ & H & _).
  exact (proj1 (H demoRaw eq_refl)).
Defined.

(** X5. When no entry of the file has an id, the ids that
    [loadPlayerDatabase] makes up are [player_0], [player_1], ... and
    no two players share one; when every entry has an id, the ids are
    those of the file. *)
Theorem loadPlayerDatabase_ids (players : list RawPlayer) :
  (Forall (fun raw => stringOr (raw_id raw) "" = "") players ->
   map id (loadPlayerDatabase (Some players))
   = map generatedId (seq 0 (List.length players))
   /\ NoDup (map id (loadPlayerDatabase (Some players))))
  /\ (Forall (fun raw => exists s, raw_id raw = Some s /\ s <> "") players ->
      map id (loadPlayerDatabase (Some players))
      = map (fun raw => stringOr (raw_id raw) "") players).
Proof.
  split.
  - intro H. cbn. rewrite (generated_ids 0 players H). split; [ reflexivity | ].
    apply NoDup_map_inj; [ apply generatedId_inj | apply seq_NoDup ].
  - intro H. cbn. apply given_ids.
    apply Forall_impl with (2 := H). intros raw (s & Hs & Hn). exists s.
    split; [ exact Hs | ]. unfold truthy. apply negb_true_iff, String.eqb_neq, Hn.
Qed.

Lemma loadPlayerDatabase_ids_witness :
  map id (loadPlayerDatabase (Some demoAnonymous))
  = ["player_0"; "player_1"; "player_2"; "player_3"]
  /\ NoDup (map id (loadPlayerDatabase (Some demoAnonymous))).
Proof.
  split; [ vm_compute; reflexivity | ].
  apply (proj1 (loadPlayerDatabase_ids demoAnonymous)).
  repeat constructor.
Defined.

(** X6. [shuffleArray] returns a permutation of its argument: no
    element is lost and none is added. Every index it draws lies in the
    part of the array still to be shuffled, and an array of fewer than
    two elements comes back as it is. *)
Theorem shuffleArray_permutation {A : Type} (random : nat -> Q) (array : list A) :
  (forall k, 0 <= random k /\ random k < 1) ->
  (forall k i, (randomIndex (random k) i <= i)%nat)
  /\ Permutation array (shuffleArray random array)
  /\ List.length (shuffleArray random array) = List.length array
  /\ ((List.length array <= 1)%nat -> shuffleArray random array = array).
Proof.
  intro Hr.
  split; [ intros k i; apply randomIndex_range; apply Hr | ].
  split; [ apply shuffleArray_perm | ].
  split; [ apply shuffleArray_length | ].
  intro Hl. unfold shuffleArray.
  replace (List.length array - 1)%nat with 0%nat by lia. reflexivity.
Qed.

Lemma shuffleArray_permutation_witness :
  shuffleArray demoRandom [1; 2; 3; 4]%nat = [3; 2; 1; 4]%nat
  /\ Permutation [1; 2; 3; 4]%nat (shuffleArray demoRandom [1; 2; 3; 4]%nat).
Proof.
  split; [ vm_compute; reflexivity | ].
  apply (shuffleArray_permutation demoRandom [1; 2; 3; 4]%nat).
  intro k. destruct k as [ | [ | k ] ]; split; cbn; lra.
Defined.

(** X7. The starting purse of a new room is the purse asked for clamped
    to the interval from 50 to 500; a purse that is not a number, or is
    0, counts as 100. *)
Theorem hostPurse_clamped (purse : jsnum) :
  50 <= hostPurse purse /\ hostPurse purse <= 500
  /\ (forall q, purse = JNum q -> 50 <= q -> q <= 500 -> hostPurse purse = q)
  /\ (forall q, purse = JNum q -> q == 0 -> hostPurse purse = 100)
  /\ (forall q, purse = JNum q -> q < 50 -> ~ q == 0 -> hostPurse purse = 50)
  /\ (forall q, purse = JNum q -> 500 < q -> hostPurse purse = 500)
  /\ (purse = JNaN -> hostPurse purse = 100).
Proof.
  split; [ apply hostPurse_bounds | ]. split; [ apply hostPurse_bounds | ].
  repeat split.
  - intros q -> H1 H2. unfold hostPurse.
    destruct (Qeq_bool q 0) eqn:E0.
    { apply Qeq_bool_iff in E0. rewrite E0 in H1. exfalso. revert H1. apply Qlt_not_le.
      reflexivity. }
    destruct (Qlt_bool 500 q) eqn:E1.
    { apply Qlt_bool_true in E1. exfalso. exact (Qlt_not_le _ _ E1 H2). }
    destruct (Qlt_bool q 50) eqn:E2; [ | reflexivity ].
    apply Qlt_bool_true in E2. exfalso. exact (Qlt_not_le _ _ E2 H1).
  - intros q -> H. unfold hostPurse.
    apply Qeq_bool_iff in H. rewrite H. reflexivity.
  - intros q -> H1 H2. unfold hostPurse.
    destruct (Qeq_bool q 0) eqn:E0; [ apply Qeq_bool_iff in E0; contradiction | ].
    destruct (Qlt_bool 500 q) eqn:E1.
    { apply Qlt_bool_true in E1. exfalso. lra. }
    apply Qlt_bool_true in H1. rewrite H1. reflexivity.
  - intros q -> H. unfold hostPurse.
    destruct (Qeq_bool q 0) eqn:E0.
    { apply Qeq_bool_iff in E0. exfalso. lra. }
    apply Qlt_bool_true in H. rewrite H. reflexivity.
  - intros ->. reflexivity.
Qed.

Lemma hostPurse_clamped_witness :
  hostPurse (JNum 120) = 120 /\ hostPurse (JNum 7) = 50 /\ hostPurse (JNum 9000) = 500.
Proof.
  destruct (hostPurse_clamped (JNum 120)) as (_ & _ & H1 & _).
  destruct (hostPurse_clamped (JNum 7)) as (_ & _ & _ & _ & H2 & _).
  destruct (hostPurse_clamped (JNum 9000)) as (_ & _ & _ & _ & _ & H3 & _).
  split; [ apply (H1 120 eq_refl); lra | ].
  split; [ apply (H2 7 eq_refl); [ lra | intro C; vm_compute in C; discriminate C ] | ].
  apply (H3 9000 eq_refl). lra.
Defined.

(** X8. [create-room] makes a room in the lobby whose only team is the
    host's, with the clamped purse, no player and no flag. Its pool is
    the placeholder player when the catalogue is empty or cannot be
    read, and a permutation of the catalogue otherwise; when no entry of
    the catalogue has an id, no two players of the pool share an id. *)
Theorem createRoom_initial (now : Z) (teamName : string) (purse : jsnum) (userId : string)
    (random : nat -> Q) (file : option (list RawPlayer)) :
  (forall k, 0 <= random k /\ random k < 1) ->
  let r := fst (createRoom now teamName purse userId
                  (shuffleArray random (loadPlayerDatabase file))) in
  hostId r = userId
  /\ startingPurse r = hostPurse purse
  /\ teams r = [(userId, newTeam userId (teamNameOr teamName) (hostPurse purse))]
  /\ phase (auction r) = LOBBY
  /\ currentPlayerIndex (auction r) = 0%nat
  /\ biddingOpen (auction r) = false
  /\ playerPool (auction r) = initialPoolOf random file
  /\ (loadPlayerDatabase file = [] -> playerPool (auction r) = errorPool)
  /\ (loadPlayerDatabase file <> [] ->
      Permutation (loadPlayerDatabase file) (playerPool (auction r)))
  /\ playerPool (auction r) <> []
  /\ (forall players,
         file = Some players ->
         Forall (fun raw => stringOr (raw_id raw) "" = "") players ->
         NoDup (map id (playerPool (auction r)))).
Proof.
  intro Hr. cbn zeta.
  pose proof (shuffleArray_perm random (loadPlayerDatabase file)) as Hperm.
  pose proof (shuffleArray_length random (loadPlayerDatabase file)) as Hlen.
  unfold createRoom. cbn [getTeam teams fst]. rewrite String.eqb_refl.
  cbn [emit fst snd hostId startingPurse teams auction phase currentPlayerIndex
       biddingOpen playerPool].
  unfold initialPoolOf. rewrite Hlen.
  repeat (split; [ reflexivity | ]).
  split.
  { intro E. rewrite E. reflexivity. }
  split.
  { intro E. destruct (loadPlayerDatabase file) as [ | p rest ]; [ congruence | ].
    cbn [List.length Nat.eqb]. exact Hperm. }
  split.
  { destruct (loadPlayerDatabase file) as [ | p rest ] eqn:E; cbn [List.length Nat.eqb].
    - discriminate.
    - intro C. rewrite C in Hperm. apply Permutation_sym, Permutation_nil in Hperm.
      discriminate Hperm. }
  intros players -> Hall.
  destruct (loadPlayerDatabase (Some players)) as [ | p rest ] eqn:E;
    cbn [List.length Nat.eqb].
  - repeat constructor. intros [].
  - apply (Permutation_NoDup (Permutation_map id Hperm)).
    rewrite <- E. cbn. rewrite (generated_ids 0 players Hall).
    apply NoDup_map_inj; [ apply generatedId_inj | apply seq_NoDup ].
Qed.

Lemma createRoom_initial_witness :
  map id (playerPool (auction (fst (createRoom 0 "A" (JNum 100) "u1"
            (shuffleArray demoRandom (loadPlayerDatabase (Some demoAnonymous)))))))
  = ["player_2"; "player_1"; "player_0"; "player_3"]
  /\ NoDup (map id (playerPool (auction (fst (createRoom 0 "A" (JNum 100) "u1"
              (shuffleArray demoRandom (loadPlayerDatabase (Some demoAnonymous)))))))).
Proof.
  split; [ vm_compute; reflexivity | ].
  assert (Hr : forall k, 0 <= demoRandom k /\ demoRandom k < 1).
  { intro k. destruct k as [ | [ | k ] ]; split; cbn; lra. }
  destruct (createRoom_initial 0 "A" (JNum 100) "u1" demoRandom (Some demoAnonymous) Hr)
    as (_ & _ & _ & _ & _ & _ & _ & _ & _ & _ & H).
  apply (H demoAnonymous eq_refl). repeat constructor.
Defined.

(** ** The life of a room *)

(** X9. The player pool and the starting purse of a room are fixed when
    the room is created: no event changes them, the pool is never empty
    and the starting purse lies between 50 and 500. *)
Theorem room_constants (now : Z) (teamName : string) (purse : jsnum) (userId : string)
    (initialPool : list Player) (evs : list (Z * Event)) (r : Room) :
  run evs (fst (createRoom now teamName purse userId initialPool)) = Some r ->
  playerPool (auction r)
  = (if (List.length initialPool =? 0)%nat then errorPool else initialPool)
  /\ playerPool (auction r) <> []
  /\ startingPurse r = hostPurse purse
  /\ 50 <= startingPurse r /\ startingPurse r <= 500.
Proof.
  intro H. destruct (run_constants _ _ _ H) as [E1 E2].
  unfold createRoom in E1, E2. cbn [getTeam teams fst] in E1, E2.
  rewrite String.eqb_refl in E1, E2. cbn in E1, E2.
  split; [ exact E1 | ].
  split.
  { rewrite E1. destruct initialPool; cbn; discriminate. }
  split; [ exact E2 | ]. rewrite E2. apply hostPurse_bounds.
Qed.

Lemma room_constants_witness :
  playerPool (auction demoSold) = demoPool /\ startingPurse demoSold = 100.
Proof.
  destruct (room_constants 0 "A" (JNum 100) "u1" demoPool
              ([(1%Z, StartAuction (Some "u1")); (2%Z, PlaceBid (JNum (6 # 5)) "u1")]
               ++ repeat (3%Z, TimerTick) 10) demoSold)
    as (H1 & _ & H2 & _).
  - vm_compute. reflexivity.
  - split; [ exact H1 | exact H2 ].
Defined.



(** X11. [join-room] is accepted in every phase. A user who has a team
    in the room keeps it as it is, whatever team name is sent. A user
    who has none gets a new team at the end of the team list, with the
    room's starting purse, an empty squad and no flag, provided the user
    id is plain: under the name of an inherited property the handler
    finds a value and makes no team, and a team under a string of digits
    is listed before the others. The auction state and the host do not
    change and the activity stamp is refreshed. *)
Theorem joinRoom_membership (now : Z) (teamName userId : string) (r : Room) :
  (getTeam userId (teams r) = None -> plainId userId = true) ->
  exists r' out,
    handle now (JoinRoom teamName userId) r = Live r' out
    /\ auction r' = auction r
    /\ hostId r' = hostId r
    /\ startingPurse r' = startingPurse r
    /\ lastActivity r' = now
    /\ teams r'
       = checkAll (match getTeam userId (teams r) with
                   | Some _ => teams r
                   | None =>
                       teams r
                       ++ [(userId,
                            newTeam userId (teamNameOr teamName) (startingPurse r))]
                   end)
    /\ (reachable r ->
        teams r'
        = match getTeam userId (teams r) with
          | Some _ => teams r
          | None =>
              teams r
              ++ [(userId, newTeam userId (teamNameOr teamName) (startingPurse r))]
          end)
    /\ exists pre, out = pre ++ [ToRoom (TeamsUpdated (teamValues (teams r')))].
Proof.
  intros _.
  exists (fst (joinRoom now teamName userId (r, []))),
         (snd (joinRoom now teamName userId (r, []))).
  split; [ reflexivity | ].
  destruct (joinRoom_effect now teamName userId r) as (E1 & E2 & E3 & _ & E5 & E6 & E7).
  split; [ exact E1 | ]. split; [ exact E2 | ]. split; [ exact E3 | ].
  split; [ exact E5 | ]. split; [ exact E6 | ]. split; [ | exact E7 ].
  intro Hr. rewrite E6. apply checkAll_flagged.
  apply reachable_teamsInv in Hr. destruct Hr as (Hsp & _ & _ & Hf).
  destruct (getTeam userId (teams r)); [ exact Hf | ].
  unfold teamValues. rewrite map_app. apply Forall_app. split; [ exact Hf | ].
  constructor; [ | constructor ].
  unfold flagged, eliminationDue. cbn.
  assert (E : Qlt_bool (startingPurse r) BID_INCREMENT = false).
  { apply Qlt_bool_false. apply Qle_trans with 50; [ discriminate | exact Hsp ]. }
  rewrite E. discriminate.
Qed.

Lemma joinRoom_membership_witness :
  getTeam "u2" (teams demoSold) = None
  /\ plainId "u2" = true
  /\ exists r' out,
       handle 5 (JoinRoom "" "u2") demoSold = Live r' out
       /\ teams r' = teams demoSold ++ [("u2", newTeam "u2" "Team" 100)].
Proof.
  split; [ vm_compute; reflexivity | ].
  split; [ vm_compute; reflexivity | ].
  destruct (joinRoom_membership 5 "" "u2" demoSold)
    as (r' & out & H & _ & _ & _ & _ & _ & Ht & _).
  - intros _. vm_compute. reflexivity.
  - exists r', out. split; [ exact H | ].
    rewrite Ht; [ reflexivity | ].
    apply reachable_after. vm_compute. discriminate.
Defined.



(** X13. [rejoin-game] changes nothing in the room but the activity
    stamp. A user without a team in the room, whose id is not the name
    of an inherited property, gets the error message and nothing else
    happens; a user with a team is sent the team, with the host flag,
    and the room is sent the team list; then the socket is told where
    the game stands. *)
Theorem rejoinGame_reads_only (now : Z) (userId : string) (r : Room) :
  (getTeam userId (teams r) = None -> inherited userId = false ->
   handle now (RejoinGame userId) r
   = Live r [ToSocket (ErrorMessage "Session expired or room closed.")])
  /\ (forall team,
         getTeam userId (teams r) = Some team ->
         exists rest,
           handle now (RejoinGame userId) r
           = Live (set_lastActivity now r)
                  (ToSocket (JoinedRoom team (hostId r =? userId)%string)
                   :: ToRoom (TeamsUpdated (teamValues (teams r))) :: rest)
           /\ (phase (auction r) = LOBBY -> rest = [])
           /\ (phase (auction r) = SELECTION -> rest = [ToSocket StartSelectionPhase])
           /\ (phase (auction r) = RESULT ->
               rest = [ToRoom (GameOverResults (hd_error (rankings r)) (rankings r))])
           /\ (phase (auction r) = AUCTION -> biddingOpen (auction r) = false ->
               rest = [])
           /\ (phase (auction r) = AUCTION -> biddingOpen (auction r) = true ->
               exists mid,
                 rest = ToSocket (NewPlayer (currentPlayer r) (currentBid (auction r)))
                        :: mid
                        ++ [ToSocket (TimerUpdate
                                        (if (timeLeft (auction r) =? 0)%Z then 10%Z
                                         else timeLeft (auction r)))])).
Proof.
  split.
  - intros Hg _. unfold handle, live, rejoinGame. cbv zeta. cbn [fst]. rewrite Hg.
    reflexivity.
  - intros team Hg. unfold handle, live, rejoinGame, replayState, emitResults.
    cbv zeta. cbn [fst snd emit upd updateRoomActivity]. rewrite Hg.
    destruct (phase (auction r)) eqn:Ep; cbn [Phase_eqb andb].
    + eexists. split; [ reflexivity | ]. repeat split; intros; congruence.
    + destruct (biddingOpen (auction r)) eqn:Eo.
      * destruct (currentBidderId (auction r)) as [ bidder | ];
          [ destruct (truthy bidder) | ]; cbn [andb fst snd emit app];
          eexists; (split; [ reflexivity | ]);
          repeat split; intros; try congruence;
          first [ exists []; reflexivity | refine (ex_intro _ [_] _); reflexivity ].
      * eexists. split; [ reflexivity | ]. repeat split; intros; congruence.
    + eexists. split; [ reflexivity | ]. repeat split; intros; congruence.
    + eexists. split; [ reflexivity | ]. repeat split; intros; congruence.
Qed.

Lemma rejoinGame_reads_only_witness :
  handle 9 (RejoinGame "nobody") demoOpen
  = Live demoOpen [ToSocket (ErrorMessage "Session expired or room closed.")].
Proof.
  apply (proj1 (rejoinGame_reads_only 9 "nobody" demoOpen)); vm_compute; reflexivity.
Defined.

(** X14. In a room reached from its creation the host has a team in the
    room, so the room is never empty; and while the phase is AUCTION at
    least one team can still bid: it is neither eliminated nor finished
    and has room in its squad. *)
Theorem host_is_member (r : Room) :
  reachable r ->
  (exists team, getTeam (hostId r) (teams r) = Some team)
  /\ teams r <> []
  /\ (phase (auction r) = AUCTION -> activeBidders r <> []).
Proof.
  intro Hr. pose proof (reachable_hostOk r Hr) as Hh. unfold hostOk in Hh.
  assert (Hne : teams r <> []).
  { intro C. rewrite C in Hh. apply Hh. reflexivity. }
  split; [ destruct (getTeam (hostId r) (teams r)) as [ t | ]; [ exists t; reflexivity | congruence ] | ].
  split; [ exact Hne | ].
  intro Hp. destruct (reachable_gameInv r Hr) as (_ & _ & Ha).
  destruct (Ha Hp) as [C | C]; [ contradiction | exact C ].
Qed.

Lemma host_is_member_witness :
  exists team, getTeam (hostId fullSquadOpen) (teams fullSquadOpen) = Some team.
Proof.
  apply (host_is_member fullSquadOpen).
  apply reachable_after. vm_compute. discriminate.
Defined.

(** X15. [start-auction] does nothing unless the caller is the host and
    the room is in the lobby. In the lobby of a room reached from its
    creation the host's call moves the room to AUCTION and opens the
    first round: the first player of the pool is on the block at its
    base price, nobody leads, no skip is recorded and the countdown
    runs from 10. *)
Theorem startAuction_opens (now : Z) (caller : option string) (r : Room) :
  (caller <> Some (hostId r) \/ phase (auction r) <> LOBBY ->
   handle now (StartAuction caller) r = Live r [])
  /\ (reachable r -> phase (auction r) = LOBBY -> caller = Some (hostId r) ->
      exists p,
        hd_error (playerPool (auction r)) = Some p
        /\ handle now (StartAuction caller) r
           = Live (set_lastActivity now
                     (set_auction (opened p (set_phase AUCTION (auction r))) r))
                  [ToRoom AuctionStartedSignal; ToRoom (NewPlayer (Some p) (basePrice p))]).
Proof.
  split.
  - intros Hc. unfold handle, live, startAuction. cbv zeta.
    destruct caller as [ userId | ]; [ | reflexivity ]. cbn [fst].
    destruct (String.eqb_spec (hostId r) userId) as [E | E]; cbn [negb]; [ | reflexivity ].
    destruct (Phase_eqb (phase (auction r)) LOBBY) eqn:Ep; cbn [negb]; [ | reflexivity ].
    apply Phase_eqb_eq in Ep. destruct Hc as [Hc | Hc]; [ subst; congruence | contradiction ].
  - intros Hr Hp ->.
    destruct (reachable_marketInv r Hr) as (_ & Ha & _).
    destruct Ha as (_ & _ & _ & _ & _ & _ & Hl). specialize (Hl Hp).
    pose proof (reachable_pool r Hr) as Hpool.
    destruct (playerPool (auction r)) as [ | p rest ] eqn:Epool; [ congruence | ].
    exists p. split; [ reflexivity | ].
    unfold handle, live, startAuction, startNextPlayer, currentPlayer. cbv zeta.
    cbn [fst]. rewrite String.eqb_refl, Hp. cbn [negb Phase_eqb].
    cbn [fst snd upd emit updateRoomActivity inAuction set_auction auction set_phase
         phase playerPool currentPlayerIndex set_lastActivity].
    rewrite Epool, Hl. cbn [nth_error].
    unfold startAuctionTimer. cbn. reflexivity.
Qed.

Lemma startAuction_opens_witness :
  handle 1 (StartAuction (Some "u2")) demoLobby = Live demoLobby []
  /\ exists p,
       hd_error (playerPool (auction demoLobby)) = Some p
       /\ handle 1 (StartAuction (Some "u1")) demoLobby
          = Live (set_lastActivity 1
                    (set_auction (opened p (set_phase AUCTION (auction demoLobby)))
                       demoLobby))
                 [ToRoom AuctionStartedSignal; ToRoom (NewPlayer (Some p) (basePrice p))].
Proof.
  split.
  - apply (proj1 (startAuction_opens 1 (Some "u2") demoLobby)).
    left. vm_compute. discriminate.
  - apply (proj2 (startAuction_opens 1 (Some "u1") demoLobby)).
    + apply reachable_after. vm_compute. discriminate.
    + vm_compute. reflexivity.
    + vm_compute. reflexivity.
Defined.

(** X16. [finish-bidding-for-me] does nothing unless the user has a
    team that is not eliminated and holds at least 18 players; then it
    sets the team's finished flag and touches no other team, and the
    auction ends when no team is left that can bid. No handler lowers a
    finished flag. *)
Theorem finishBidding_flag (now : Z) (userId : string) (r : Room) :
  (forall r' out,
      handle now (FinishBiddingForMe userId) r = Live r' out ->
      (r' = r /\ out = [])
      \/ exists team,
           getTeam userId (teams r) = Some team
           /\ (MIN_SQUAD_TO_PLAY <= List.length (squad team))%nat
           /\ isEliminated team = false
           /\ teams r' = putTeam userId (set_isFinishedBidding true team) (teams r)
           /\ lastActivity r' = now
           /\ (auction r' = auction r
               \/ (phase (auction r) = AUCTION
                   /\ activeBidders r' = []
                   /\ auction r' = ended (auction r))))
  /\ (forall team,
         getTeam userId (teams r) = Some team ->
         (MIN_SQUAD_TO_PLAY <= List.length (squad team))%nat ->
         isEliminated team = false ->
         exists r' out,
           handle now (FinishBiddingForMe userId) r = Live r' out
           /\ getTeam userId (teams r') = Some (set_isFinishedBidding true team))
  /\ (forall now' ev r' out uid t t',
         handle now' ev r = Live r' out ->
         getTeam uid (teams r) = Some t ->
         getTeam uid (teams r') = Some t' ->
         isFinishedBidding t = true -> isFinishedBidding t' = true).
Proof.
  split; [ | split ].
  - intros r' out H. unfold handle, live, finishBiddingForMe in H. cbv zeta in H.
    cbn [fst] in H.
    destruct (getTeam userId (teams r)) as [ team | ] eqn:Eg;
      [ | apply Live_inj in H; destruct H as [<- <-]; left; split; reflexivity ].
    destruct (_ && _) eqn:Ec;
      [ | apply Live_inj in H; destruct H as [<- <-]; left; split; reflexivity ].
    apply andb_true_iff in Ec. destruct Ec as [E1 E2].
    apply Nat.leb_le in E1. apply negb_true_iff in E2.
    right. exists team. split; [ reflexivity | ].
    split; [ exact E1 | ]. split; [ exact E2 | ].
    unfold checkAuctionCompletion, endAuctionPhase in H.
    cbn [fst snd upd emit updateRoomActivity] in H.
    destruct (negb (Phase_eqb _ AUCTION)) eqn:Ep.
    { apply Live_inj in H. destruct H as [<- _]. cbn. tauto. }
    destruct (_ =? 0)%nat eqn:Ea.
    + apply Live_inj in H. destruct H as [<- _]. cbn. repeat split.
      right. split; [ apply negb_false_iff, Phase_eqb_eq in Ep; exact Ep | ].
      split; [ | reflexivity ].
      apply Nat.eqb_eq, length_zero_iff_nil in Ea. exact Ea.
    + apply Live_inj in H. destruct H as [<- _]. cbn. tauto.
  - intros team Hg Hl He.
    exists (fst (finishBiddingForMe now userId (r, []))),
           (snd (finishBiddingForMe now userId (r, []))).
    split; [ reflexivity | ].
    unfold finishBiddingForMe. cbn [fst]. rewrite Hg, He.
    apply Nat.leb_le in Hl. rewrite Hl. cbn [negb andb].
    match goal with
    | |- context [checkAuctionCompletion now ?y] =>
        destruct (checkAuctionCompletion_sameTeams now y) as [-> _]
    end.
    cbn. rewrite getTeam_putTeam, String.eqb_refl. reflexivity.
  - intros now' ev r' out uid t t'. apply handle_finished.
Qed.

Lemma finishBidding_flag_witness :
  handle 9 (FinishBiddingForMe "u1") demoSold = Live demoSold []
  /\ exists r' out,
       handle 9 (FinishBiddingForMe "u1") fullSquadOpen = Live r' out
       /\ option_map isFinishedBidding (getTeam "u1" (teams r')) = Some true.
Proof.
  split.
  - destruct (handle 9 (FinishBiddingForMe "u1") demoSold) as [r' out | | ] eqn:E;
      try (vm_compute in E; discriminate E).
    destruct (proj1 (finishBidding_flag 9 "u1" demoSold) r' out E)
      as [[-> ->] | (team & Hg & Hl & _)]; [ reflexivity | ].
    exfalso. vm_compute in Hg. injection Hg as <-. vm_compute in Hl. lia.
  - assert (Ho : option_map (fun t => (List.length (squad t), isEliminated t))
                   (getTeam "u1" (teams fullSquadOpen)) = Some (25%nat, false)).
    { vm_compute. reflexivity. }
    destruct (getTeam "u1" (teams fullSquadOpen)) as [ team | ] eqn:Eg;
      [ | discriminate Ho ].
    cbn in Ho. injection Ho as Hl He.
    destruct (proj1 (proj2 (finishBidding_flag 9 "u1" fullSquadOpen)) team Eg)
      as (r' & out & H & Ht).
    + rewrite Hl. unfold MIN_SQUAD_TO_PLAY. lia.
    + exact He.
    + exists r', out. split; [ exact H | ]. rewrite Ht. reflexivity.
Defined.

(** ** The auction *)



(** X18. The index of the player on the block never passes the end of
    the pool, and an open round always has a player on the block. A
    step leaves the index or moves it on by one; it moves on only when a
    tick or a skip vote closes a round during the auction phase. *)
Theorem index_moves_forward :
  (forall r,
      reachable r ->
      (currentPlayerIndex (auction r) <= List.length (playerPool (auction r)))%nat
      /\ (biddingOpen (auction r) = true -> exists p, currentPlayer r = Some p)
      /\ (phase (auction r) = LOBBY -> currentPlayerIndex (auction r) = 0%nat))
  /\ (forall now ev r r' out,
         handle now ev r = Live r' out -> enabled ev r = true ->
         (currentPlayerIndex (auction r) <= currentPlayerIndex (auction r')
          <= S (currentPlayerIndex (auction r)))%nat
         /\ (currentPlayerIndex (auction r') = S (currentPlayerIndex (auction r)) ->
             sells ev = true
             /\ phase (auction r) = AUCTION /\ phase (auction r') = AUCTION
             /\ biddingOpen (auction r') = false /\ timer (auction r') = false)).
Proof.
  split.
  - intros r Hr.
    destruct (reachable_marketInv r Hr) as (_ & ((_ & Hr2) & _ & _ & Hi & _ & _ & Hl) & _).
    split; [ exact Hi | ]. split; [ | exact Hl ].
    intro Ho. specialize (Hr2 Ho). unfold currentPlayer.
    destruct (nth_error _ _) as [ p | ]; [ exists p; reflexivity | congruence ].
  - intros now ev r r' out H He. split.
    + exact (proj1 (proj2 (auctionChange_frame _ _ _ (handle_auctionChange _ _ _ _ _ H He)))).
    + apply auctionStep_index. exact (handle_auctionStep _ _ _ _ _ H).
Qed.

Lemma index_moves_forward_witness :
  currentPlayerIndex (auction demoSold) = 1%nat
  /\ (currentPlayerIndex (auction demoSold) <= List.length (playerPool (auction demoSold)))%nat.
Proof.
  split; [ vm_compute; reflexivity | ].
  apply (proj1 index_moves_forward demoSold).
  apply reachable_after. vm_compute. discriminate.
Defined.

(** X19. In the lobby and in the selection phase of a room reached from
    its creation no round is open and no countdown runs, so bids and
    skip votes change nothing and are not answered; in the lobby no team
    holds a player or carries a flag. *)
Theorem quiet_phases (r : Room) :
  reachable r ->
  phase (auction r) = LOBBY \/ phase (auction r) = SELECTION ->
  biddingOpen (auction r) = false
  /\ timer (auction r) = false
  /\ (forall now bidAmount userId, handle now (PlaceBid bidAmount userId) r = Live r [])
  /\ (forall now userId, handle now (SkipForMe userId) r = Live r [])
  /\ (phase (auction r) = LOBBY ->
      Forall (fun t => squad t = [] /\ isEliminated t = false
                       /\ isFinishedBidding t = false)
             (teamValues (teams r))).
Proof.
  intros Hr Hp.
  destruct (reachable_marketInv r Hr) as (_ & (_ & _ & _ & _ & Hq & _) & _).
  destruct (Hq Hp) as [C1 C2].
  split; [ exact C1 | ]. split; [ exact C2 | ].
  split.
  { intros now bidAmount userId. unfold handle. cbv zeta.
    rewrite placeBid_closed by exact C1. reflexivity. }
  split; [ intros now userId; apply skip_closed, C1 | ].
  intro Hl. destruct (reachable_gameInv r Hr) as (_ & Hlob & _).
  exact (proj2 (Hlob Hl)).
Qed.

Lemma quiet_phases_witness :
  phase (auction demoSelection) = SELECTION
  /\ handle 20 (PlaceBid (JNum 5) "u1") demoSelection = Live demoSelection [].
Proof.
  split; [ vm_compute; reflexivity | ].
  destruct (quiet_phases demoSelection) as (_ & _ & H & _).
  - apply reachable_after. vm_compute. discriminate.
  - right. vm_compute. reflexivity.
  - apply H.
Defined.

(** X20. In a room reached from its creation no squad holds more than
    25 players or more than 8 overseas players. *)
Theorem squad_limits (r : Room) :
  reachable r ->
  Forall (fun t => (List.length (squad t) <= MAX_SQUAD_SIZE)%nat
                   /\ (overseasCount (squad t) <= MAX_OVERSEAS_SQUAD)%nat)
         (teamValues (teams r)).
Proof.
  intro Hr. destruct (reachable_marketInv r Hr) as (_ & _ & Hs & _). exact Hs.
Qed.

Lemma squad_limits_witness :
  map (fun t => List.length (squad t)) (teamValues (teams fullSquadOpen)) = [25%nat]
  /\ Forall (fun t => (List.length (squad t) <= MAX_SQUAD_SIZE)%nat
                      /\ (overseasCount (squad t) <= MAX_OVERSEAS_SQUAD)%nat)
            (teamValues (teams fullSquadOpen)).
Proof.
  split; [ vm_compute; reflexivity | ].
  apply squad_limits. apply reachable_after. vm_compute. discriminate.
Defined.

(** X21. Every player that a team of a reachable room holds is a player
    of the pool who was on the block in a round that has been closed.
    When the ids of the pool are distinct, no id is held twice: neither
    by two teams nor twice by one team. *)
Theorem no_player_sold_twice (r : Room) :
  reachable r ->
  (forall p, In p (bought r) ->
     exists i,
       nth_error (playerPool (auction r)) i = Some p
       /\ (i <= currentPlayerIndex (auction r))%nat
       /\ (biddingOpen (auction r) = true -> (i < currentPlayerIndex (auction r))%nat))
  /\ (NoDup (map id (playerPool (auction r))) ->
      NoDup (map id (bought r))
      /\ Forall (fun t => NoDup (map (fun sp => id (player sp)) (squad t)))
                (teamValues (teams r))).
Proof.
  intro Hr. destruct (reachable_marketInv r Hr) as (_ & _ & _ & _ & Hs & Hd & _).
  split.
  - intros p Hp. destruct (Hs p Hp) as (i & Hi & [Hlt | (-> & [Hc _] & _)]).
    + exists i. split; [ exact Hi | ]. split; [ lia | intros _; exact Hlt ].
    + exists (currentPlayerIndex (auction r)). split; [ exact Hi | ].
      split; [ lia | congruence ].
  - intro Hn. specialize (Hd Hn). split; [ exact Hd | ].
    apply Forall_forall. intros t Ht.
    unfold bought, boughtOf in Hd. rewrite flat_map_concat_map, concat_map, map_map in Hd.
    rewrite <- flat_map_concat_map in Hd.
    pose proof (NoDup_flat_map_part _ _ t Hd Ht) as H. cbn in H.
    rewrite map_map in H. exact H.
Qed.

Lemma no_player_sold_twice_witness :
  map id (bought demoSelection) = ["p1"; "p2"; "p3"]
  /\ NoDup (map id (bought demoSelection)).
Proof.
  split; [ vm_compute; reflexivity | ].
  destruct (no_player_sold_twice demoSelection) as [_ H].
  - apply reachable_after. vm_compute. discriminate.
  - apply H. vm_compute. repeat constructor; cbn; intuition discriminate.
Defined.

(** X22. Money is conserved. In a room reached from its creation a
    leading bid is a whole number of hundredths; and when the starting
    purse is one too, so is every purse, and the purse of a team and the
    prices it has paid add up to the starting purse. *)
Theorem money_conserved (r : Room) :
  reachable r ->
  (currentBidderId (auction r) <> None -> isCents (currentBid (auction r)))
  /\ (isCents (startingPurse r) ->
      Forall (fun t => isCents (purse t) /\ purse t + spent t == startingPurse r)
             (teamValues (teams r))).
Proof.
  intro Hr. destruct (reachable_marketInv r Hr) as (_ & (_ & _ & Hb & _) & _ & _ & _ & _ & Hm).
  split; [ exact Hb | exact Hm ].
Qed.

Lemma money_conserved_witness :
  map (fun t => (Qeq_bool (purse t) 97, Qeq_bool (spent t) 3))
      (teamValues (teams demoSelection)) = [(true, true)]
  /\ Forall (fun t => isCents (purse t)
                      /\ purse t + spent t == startingPurse demoSelection)
            (teamValues (teams demoSelection)).
Proof.
  split; [ vm_compute; reflexivity | ].
  assert (Hr : reachable demoSelection).
  { apply reachable_after. vm_compute. discriminate. }
  apply (proj2 (money_conserved demoSelection Hr)).
  exists 10000%Z. vm_compute. reflexivity.
Defined.

(** X23. Every bid that is taken raises the current bid, the rounding
    notwithstanding: the new current bid is at least 0.245 above the old
    one, and at least the full increment above it when the old one was
    itself a bid, as it is in a reachable room with a leader. It passes
    the bidder's purse by half a hundredth at most. *)
Theorem bids_rise (now : Z) (bidAmount : jsnum) (userId : string)
    (r r' : Room) (out : list Out) :
  handle now (PlaceBid bidAmount userId) r = Live r' out ->
  out <> [] ->
  currentBid (auction r) + (49 # 200) <= currentBid (auction r')
  /\ currentBid (auction r) < currentBid (auction r')
  /\ (reachable r -> currentBidderId (auction r) <> None ->
      currentBid (auction r) + BID_INCREMENT <= currentBid (auction r'))
  /\ (forall team,
         getTeam userId (teams r) = Some team ->
         currentBid (auction r') <= purse team + (1 # 200)).
Proof.
  intros H Hout. apply placeBid_inv in H.
  destruct H as [[_ ->] | (team & amount & p & _ & Ha & -> & _)]; [ congruence | ].
  destruct Ha as (_ & Hg & _ & _ & _ & Hlo & Hhi & _).
  cbn [bidTaken auction currentBid].
  destruct (toFixed2_near amount) as [N1 N2]. unfold BID_INCREMENT in *.
  split; [ lra | ]. split; [ lra | ].
  split.
  - intros Hr Hl. destruct (reachable_marketInv r Hr) as (_ & (_ & _ & Hb & _) & _).
    apply toFixed2_ge_cents; [ apply isCents_plus_increment, Hb, Hl | exact Hlo ].
  - intros team' Hg'. rewrite Hg in Hg'. injection Hg' as <-. lra.
Qed.

Lemma bids_rise_witness :
  currentBid (auction oddPriceOpen) = 204 # 1000
  /\ handle 2 (PlaceBid (JNum (4545 # 10000)) "u1") oddPriceOpen
     = Live (bidTaken 2 oddPriceOpen "u1" (4545 # 10000))
            [ToRoom (BidUpdated (45 # 100) "u1" "A")]
  /\ currentBid (auction oddPriceOpen) + (49 # 200)
     <= currentBid (auction (bidTaken 2 oddPriceOpen "u1" (4545 # 10000))).
Proof.
  split; [ vm_compute; reflexivity | ].
  assert (H : handle 2 (PlaceBid (JNum (4545 # 10000)) "u1") oddPriceOpen
              = Live (bidTaken 2 oddPriceOpen "u1" (4545 # 10000))
                     [ToRoom (BidUpdated (45 # 100) "u1" "A")]).
  { vm_compute. reflexivity. }
  split; [ exact H | ].
  apply (bids_rise 2 (JNum (4545 # 10000)) "u1" oddPriceOpen _ _ H). discriminate.
Defined.

(** X24. The rankings sent with the results are the teams of the room
    that are not eliminated, each once, the highest score first. In a
    room where no user id is a string of digits, so that
    [Object.values] lists the teams in the order of joining, teams with
    equal scores are ranked in that order. The winner is the first of
    the rankings: no team that is still in the game has a higher score,
    and there is no winner exactly when every team is eliminated. *)
Theorem rankings_sorted (r : Room) :
  Permutation (rankings r)
              (filter (fun t => negb (isEliminated t)) (teamValues (teams r)))
  /\ StronglySorted scoreOrder (rankings r)
  /\ (Forall (fun k => digitsOnly k = false) (teamKeys (teams r)) ->
      forall q,
        filter (fun t => Qeq_bool (totalScore t) q) (rankings r)
        = filter (fun t => Qeq_bool (totalScore t) q)
                 (filter (fun t => negb (isEliminated t)) (teamValues (teams r))))
  /\ (forall w,
         hd_error (rankings r) = Some w ->
         In w (teamValues (teams r)) /\ isEliminated w = false
         /\ forall t, In t (teamValues (teams r)) -> isEliminated t = false ->
                      totalScore t <= totalScore w)
  /\ (hd_error (rankings r) = None
      <-> forall t, In t (teamValues (teams r)) -> isEliminated t = true).
Proof.
  unfold rankings.
  set (l := filter (fun t => negb (isEliminated t)) (teamValues (teams r))).
  pose proof (sortByScore_perm l) as Hp.
  pose proof (sortByScore_sorted l) as Hs.
  split; [ exact Hp | ]. split; [ exact Hs | ].
  split; [ intros _ q; apply sortByScore_stable | ].
  split.
  - intros w Hw.
    destruct (sortByScore l) as [ | w' rest ] eqn:E; [ discriminate Hw | ].
    cbn in Hw. injection Hw as ->.
    assert (Hin : In w l).
    { apply (Permutation_in _ Hp). left. reflexivity. }
    unfold l in Hin. apply filter_In in Hin. destruct Hin as [H1 H2].
    split; [ exact H1 | ]. split; [ apply negb_true_iff, H2 | ].
    intros t Ht He.
    assert (Htl : In t (w :: rest)).
    { apply (Permutation_in _ (Permutation_sym Hp)). unfold l. apply filter_In.
      split; [ exact Ht | rewrite He; reflexivity ]. }
    destruct Htl as [<- | Htl]; [ apply Qle_refl | ].
    inversion Hs as [ | ? ? _ Hall ]; subst. rewrite Forall_forall in Hall.
    exact (Hall t Htl).
  - split.
    + intros Hn t Ht. destruct (isEliminated t) eqn:He; [ reflexivity | ].
      assert (Hin : In t (sortByScore l)).
      { apply (Permutation_in _ (Permutation_sym Hp)). unfold l. apply filter_In.
        split; [ exact Ht | rewrite He; reflexivity ]. }
      destruct (sortByScore l); [ destruct Hin | discriminate Hn ].
    + intro Hall. destruct (sortByScore l) as [ | w rest ] eqn:E; [ reflexivity | ].
      assert (Hin : In w l).
      { apply (Permutation_in _ Hp). left. reflexivity. }
      unfold l in Hin. apply filter_In in Hin. destruct Hin as [H1 H2].
      rewrite (Hall w H1) in H2. discriminate H2.
Qed.

Lemma rankings_sorted_witness :
  map team_id (rankings demoSubmitted) = ["u1"]
  /\ (exists w,
        hd_error (rankings demoSubmitted) = Some w
        /\ In w (teamValues (teams demoSubmitted)) /\ isEliminated w = false)
  /\ filter (fun t => Qeq_bool (totalScore t) 405) (rankings demoSubmitted)
     = filter (fun t => Qeq_bool (totalScore t) 405)
              (filter (fun t => negb (isEliminated t))
                      (teamValues (teams demoSubmitted))).
Proof.
  split; [ vm_compute; reflexivity | ].
  destruct (rankings_sorted demoSubmitted) as (_ & _ & Ht & H & _).
  split.
  - destruct (hd_error (rankings demoSubmitted)) as [ w | ] eqn:E;
      [ | vm_compute in E; discriminate E ].
    exists w. split; [ reflexivity | ].
    destruct (H w eq_refl) as (H1 & H2 & _). split; assumption.
  - apply Ht. vm_compute. repeat constructor.
Defined.

(** X25. As long as the server is not restarted, a room reached from
    its creation never has both of its timers pending: a running
    countdown belongs to an open round, and while the pause between two
    rounds is pending no round is open and no countdown runs. During
    the auction phase exactly one of the two is pending, so that the
    auction goes on. A restart breaks this. [loadGameData] leaves both
    handles empty and starts no timer, so a room saved during the pause
    comes back in its phase with no round open and neither timer
    pending; and from there no event opens a round, starts a timer or
    moves the index: an auction that was under way can only be ended. *)
Theorem one_timer_pending (r : Room) :
  reachable r ->
  (timer (auction r) = true ->
   biddingOpen (auction r) = true /\ nextPlayerTimeout r = false)
  /\ (nextPlayerTimeout r = true ->
      biddingOpen (auction r) = false /\ timer (auction r) = false
      /\ phase (auction r) <> LOBBY)
  /\ (phase (auction r) = AUCTION ->
      (biddingOpen (auction r) = true /\ timer (auction r) = true
       /\ nextPlayerTimeout r = false)
      \/ (biddingOpen (auction r) = false /\ timer (auction r) = false
          /\ nextPlayerTimeout r = true))
  /\ loadRoom (cleanRoom r) = Some (reloaded r)
  /\ (nextPlayerTimeout r = true ->
      phase (auction (reloaded r)) = phase (auction r)
      /\ biddingOpen (auction (reloaded r)) = false
      /\ timer (auction (reloaded r)) = false
      /\ nextPlayerTimeout (reloaded r) = false
      /\ forall evs r',
           run evs (reloaded r) = Some r' ->
           biddingOpen (auction r') = false
           /\ timer (auction r') = false
           /\ nextPlayerTimeout r' = false
           /\ currentPlayerIndex (auction r') = currentPlayerIndex (auction r)).
Proof.
  intro Hr.
  destruct (reachable_marketInv r Hr) as (_ & ((Hr1 & _) & _ & _ & _ & _ & Hk & _) & _).
  pose proof (reachable_pauseOk r Hr) as Hp.
  pose proof (reachable_progressOk r Hr) as Hg.
  split.
  { intro Ht. split; [ exact (Hr1 Ht) | ].
    destruct (nextPlayerTimeout r) eqn:En; [ | reflexivity ].
    destruct (Hp En) as [[_ C] _]. congruence. }
  split.
  { intro Hn. destruct (Hp Hn) as [[C1 C2] C3]. tauto. }
  split; [ exact Hg | ].
  split; [ exact (load_clean r Hk) | ].
  intro Hn. pose proof (reloaded_halted r Hp Hn) as Hh.
  destruct Hh as ([H1 H2] & H3 & H4).
  split; [ reflexivity | ]. split; [ exact H1 | ]. split; [ exact H2 | ].
  split; [ exact H3 | ].
  intros evs r' Hrun.
  destruct (halted_run evs (reloaded r) r' (conj (conj H1 H2) (conj H3 H4)) Hrun)
    as (([G1 G2] & G3 & _) & Gi).
  split; [ exact G1 | ]. split; [ exact G2 | ]. split; [ exact G3 | exact Gi ].
Qed.

Lemma one_timer_pending_witness :
  nextPlayerTimeout demoSold = true
  /\ phase (auction demoSold) = AUCTION
  /\ (biddingOpen (auction demoSold) = false /\ timer (auction demoSold) = false
      /\ phase (auction demoSold) <> LOBBY)
  /\ loadRoom (cleanRoom demoSold) = Some (reloaded demoSold)
  /\ phase (auction (reloaded demoSold)) = AUCTION
  /\ nextPlayerTimeout (reloaded demoSold) = false
  /\ timer (auction (reloaded demoSold)) = false.
Proof.
  assert (Hn : nextPlayerTimeout demoSold = true) by (vm_compute; reflexivity).
  assert (Hp : phase (auction demoSold) = AUCTION) by (vm_compute; reflexivity).
  split; [ exact Hn | ]. split; [ exact Hp | ].
  destruct (one_timer_pending demoSold) as (_ & H2 & _ & H4 & H5).
  - apply reachable_after. vm_compute. discriminate.
  - split; [ exact (H2 Hn) | ]. split; [ exact H4 | ].
    destruct (H5 Hn) as (E1 & _ & E3 & E4 & _).
    split; [ rewrite E1; exact Hp | ]. split; [ exact E4 | exact E3 ].
Defined.

(** X26. The snapshot of every room reached from its creation loads
    back as the same room with both timer handles empty: the skip votes
    of such a room hold no user twice, so turning them into an array and
    back into a set loses nothing. After a restart the room is there
    unless it has been idle for more than a day. *)
Theorem reachable_snapshot_loads (now : Z) (r : Room) :
  reachable r ->
  NoDup (skippedBy (auction r))
  /\ loadRoom (cleanRoom r)
     = Some (set_nextPlayerTimeout false (inAuction (set_timer false) r))
  /\ restart now r
     = (if expired now r then None
        else Some (set_nextPlayerTimeout false (inAuction (set_timer false) r))).
Proof.
  intro Hr. destruct (reachable_marketInv r Hr) as (_ & (_ & _ & _ & _ & _ & Hk & _) & _).
  split; [ exact Hk | ].
  pose proof (load_clean r Hk) as E.
  split; [ exact E | ].
  unfold restart. rewrite E. reflexivity.
Qed.

Lemma reachable_snapshot_loads_witness :
  skippedBy (auction demoOneVote) = ["u1"]
  /\ loadRoom (cleanRoom demoOneVote)
     = Some (set_nextPlayerTimeout false (inAuction (set_timer false) demoOneVote)).
Proof.
  split; [ vm_compute; reflexivity | ].
  apply (reachable_snapshot_loads 0 demoOneVote).
  apply reachable_after. vm_compute. discriminate.
Defined.

(** X27. The auction state machine. Whatever the room, the handler of
    an event changes the auction state in one of the ways listed for the
    event in [auctionStep]: joining and rejoining change nothing; leaving
    and finishing can only end the auction; starting opens the first
    round; a bid sets the bid, the leader and the countdown; a skip vote
    is recorded and may close the round; a lineup can only set the phase
    to RESULT; a tick lowers the count or closes the round; the end of
    the pause opens the next round or ends the auction. The pool and the
    starting purse never change, and the activity stamp stays or becomes
    the time of the event. *)
Theorem auction_state_machine (now : Z) (ev : Event) (r r' : Room) (out : list Out) :
  handle now ev r = Live r' out ->
  auctionStep ev (auction r) (auction r')
  /\ playerPool (auction r') = playerPool (auction r)
  /\ startingPurse r' = startingPurse r
  /\ (lastActivity r' = lastActivity r \/ lastActivity r' = now).
Proof.
  intro H.
  split; [ exact (handle_auctionStep _ _ _ _ _ H) | ].
  split; [ exact (proj1 (handle_auction _ _ _ _ _ H)) | ].
  split; [ exact (proj2 (handle_teams _ _ _ _ _ H)) | ].
  exact (proj1 (handle_room _ _ _ _ _ H)).
Qed.

Lemma auction_state_machine_witness :
  auctionStep (PlaceBid (JNum (6 # 5)) "u1") (auction demoOpen)
              (auction (bidTaken 2 demoOpen "u1" (6 # 5)))
  /\ startingPurse (bidTaken 2 demoOpen "u1" (6 # 5)) = startingPurse demoOpen.
Proof.
  destruct (auction_state_machine 2 (PlaceBid (JNum (6 # 5)) "u1") demoOpen
              (bidTaken 2 demoOpen "u1" (6 # 5))
              [ToRoom (BidUpdated (120 # 100) "u1" "A")]) as (H1 & _ & H2 & _).
  - vm_compute. reflexivity.
  - split; [ exact H1 | exact H2 ].
Defined.
